(** * Axonion: the simulation engine of a single-neuron workstation

    A shallow embedding of the engine of [mossware/axonion]:

    - [nt/neuron.py]  the Hodgkin-Huxley style membrane integrator coupled
                      with the metabolic state machine ([Module Neuron]);
    - [nt/stim.py]    the stimulation waveform generator ([Module Stimulator]);
    - [nt/daq.py]     the noise and quantisation channel ([Module DAQ]);
    - [nt/gui.py]     the fixed-step orchestration loop of [MainWindow]
                      ([Module MainWindow]), without its widgets.

    Conventions of the embedding.

    - In [Neuron], [Stimulator], [DAQ] and [MainWindow] a Python [float] is
      read as a real number ([R]): rounding, infinities and NaN of the
      binary64 format are not modelled there, and comparisons are the
      decidable comparisons of [R].
    - Two effects of the binary64 format are modelled apart, where a
      property is decided by them.  [Neuron.Ranged] has the rate functions
      and [step] with [math_exp], which raises [OverflowError] when the
      exponential leaves the binary64 range.  [Binary64] has the float
      operations themselves, correctly rounded, and [nt/stim.py] on them.
    - A Python [int] is a [Z]; [int(x)] and [round(x)] go from [R] to [Z].
    - The exceptions of the arithmetic are [ZeroDivisionError] and
      [OverflowError]; a division whose divisor is not a non-zero literal
      is written with [py_div] in the [result] monad.
    - Mutation of [self] is explicit state passing: a method takes the object
      and returns the new object (with the returned value, if any).
    - A draw of the random generator ([random.gauss], [np.random.normal]) is
      an extra argument of the function that draws it. *)

From Stdlib Require Import Reals Lra Lia ZArith Bool String List Sorted Psatz.
From Stdlib Require SpecFloat.
Import ListNotations.
Open Scope R_scope.

(** ** Python arithmetic on reals *)

Inductive exn : Type := ZeroDivisionError | OverflowError.

Inductive result (A : Type) : Type :=
| Ok (a : A)
| Raise (e : exn).

Arguments Ok {A} a.
Arguments Raise {A} e.

Definition bind {A B : Type} (c : result A) (k : A -> result B) : result B :=
  match c with
  | Ok a => k a
  | Raise e => Raise e
  end.

Notation "x <- c ;; k" := (bind c (fun x => k))
  (at level 61, c at next level, right associativity).

(** [a / b] on floats. *)
Definition py_div (a b : R) : result R :=
  if Req_dec_T b 0 then Raise ZeroDivisionError else Ok (a / b).

(** [a < b], [a <= b] and [a != b] as Python booleans. *)
Definition ltb (a b : R) : bool := if Rlt_dec a b then true else false.
Definition leb (a b : R) : bool := if Rle_dec a b then true else false.
Definition neqb (a b : R) : bool := if Req_dec_T a b then false else true.

(** [int(x)]: truncation toward zero. *)
Definition py_int (x : R) : Z :=
  if Rle_dec 0 x then Zfloor x else Zceil x.

(** [round(x)]: the nearest integer, a tie going to the even neighbour. *)
Definition py_round (x : R) : Z :=
  let f := Zfloor x in
  let d := x - IZR f in
  if Rlt_dec d (1 / 2) then f
  else if Rlt_dec (1 / 2) d then (f + 1)%Z
  else if Z.even f then f else (f + 1)%Z.

(** [math.fmod(x, y)] for [y != 0]: the remainder has the sign of [x]. *)
Definition fmod (x y : R) : R := x - y * IZR (py_int (x / y)).

(** [x % y] on floats ([float_rem] of CPython): the remainder of [fmod],
    moved by [y] when it is non-zero and its sign is not the sign of [y]. *)
Definition py_mod (x y : R) : result R :=
  if Req_dec_T y 0 then Raise ZeroDivisionError
  else
    let r := fmod x y in
    if neqb r 0 && negb (Bool.eqb (ltb y 0) (ltb r 0)) then Ok (r + y)
    else Ok r.

(** [2 ** k] for an [int] exponent. *)
Definition py_pow2 (k : Z) : R := powerRZ 2 k.

(** [math.exp(x)]: the exponential, or [OverflowError] when the result is
    out of the binary64 range.  Rounding to nearest turns a result into an
    infinity from [2^1024 - 2^970] on, half a unit in the last place above
    the largest float, [(2^53 - 1) * 2^971]. *)
Definition exp_overflow : R := (2 ^ 54 - 1) * 2 ^ 970.

Definition math_exp (x : R) : result R :=
  if Rle_dec exp_overflow (exp x) then Raise OverflowError else Ok (exp x).

(** ** nt/neuron.py *)

Module Neuron.

Record state : Type := mk {
  q10 : R;
  v : R;
  prev_v : R;
  m : R;
  h : R;
  n : R;
  w : R;
  ATP : R;
  mito : R;
  Ca : R;
  integrity : R;
  damage : R;
  health : R;
  dead : bool;
  flag_atp_low : bool;
  flag_ca_high : bool;
  flag_mito_stress : bool;
  flag_integrity_low : bool;
  flag_damage_high : bool;
  flag_cascade : bool
}.

(** Assignments [self.f = x]. *)
Definition set_v (x : R) (s : state) : state :=
  mk (q10 s) x (prev_v s) (m s) (h s) (n s) (w s) (ATP s) (mito s) (Ca s)
     (integrity s) (damage s) (health s) (dead s) (flag_atp_low s)
     (flag_ca_high s) (flag_mito_stress s) (flag_integrity_low s)
     (flag_damage_high s) (flag_cascade s).
Definition set_prev_v (x : R) (s : state) : state :=
  mk (q10 s) (v s) x (m s) (h s) (n s) (w s) (ATP s) (mito s) (Ca s)
     (integrity s) (damage s) (health s) (dead s) (flag_atp_low s)
     (flag_ca_high s) (flag_mito_stress s) (flag_integrity_low s)
     (flag_damage_high s) (flag_cascade s).
Definition set_m (x : R) (s : state) : state :=
  mk (q10 s) (v s) (prev_v s) x (h s) (n s) (w s) (ATP s) (mito s) (Ca s)
     (integrity s) (damage s) (health s) (dead s) (flag_atp_low s)
     (flag_ca_high s) (flag_mito_stress s) (flag_integrity_low s)
     (flag_damage_high s) (flag_cascade s).
Definition set_h (x : R) (s : state) : state :=
  mk (q10 s) (v s) (prev_v s) (m s) x (n s) (w s) (ATP s) (mito s) (Ca s)
     (integrity s) (damage s) (health s) (dead s) (flag_atp_low s)
     (flag_ca_high s) (flag_mito_stress s) (flag_integrity_low s)
     (flag_damage_high s) (flag_cascade s).
Definition set_n (x : R) (s : state) : state :=
  mk (q10 s) (v s) (prev_v s) (m s) (h s) x (w s) (ATP s) (mito s) (Ca s)
     (integrity s) (damage s) (health s) (dead s) (flag_atp_low s)
     (flag_ca_high s) (flag_mito_stress s) (flag_integrity_low s)
     (flag_damage_high s) (flag_cascade s).
Definition set_ATP (x : R) (s : state) : state :=
  mk (q10 s) (v s) (prev_v s) (m s) (h s) (n s) (w s) x (mito s) (Ca s)
     (integrity s) (damage s) (health s) (dead s) (flag_atp_low s)
     (flag_ca_high s) (flag_mito_stress s) (flag_integrity_low s)
     (flag_damage_high s) (flag_cascade s).
Definition set_mito (x : R) (s : state) : state :=
  mk (q10 s) (v s) (prev_v s) (m s) (h s) (n s) (w s) (ATP s) x (Ca s)
     (integrity s) (damage s) (health s) (dead s) (flag_atp_low s)
     (flag_ca_high s) (flag_mito_stress s) (flag_integrity_low s)
     (flag_damage_high s) (flag_cascade s).
Definition set_Ca (x : R) (s : state) : state :=
  mk (q10 s) (v s) (prev_v s) (m s) (h s) (n s) (w s) (ATP s) (mito s) x
     (integrity s) (damage s) (health s) (dead s) (flag_atp_low s)
     (flag_ca_high s) (flag_mito_stress s) (flag_integrity_low s)
     (flag_damage_high s) (flag_cascade s).
Definition set_integrity (x : R) (s : state) : state :=
  mk (q10 s) (v s) (prev_v s) (m s) (h s) (n s) (w s) (ATP s) (mito s) (Ca s)
     x (damage s) (health s) (dead s) (flag_atp_low s)
     (flag_ca_high s) (flag_mito_stress s) (flag_integrity_low s)
     (flag_damage_high s) (flag_cascade s).
Definition set_damage (x : R) (s : state) : state :=
  mk (q10 s) (v s) (prev_v s) (m s) (h s) (n s) (w s) (ATP s) (mito s) (Ca s)
     (integrity s) x (health s) (dead s) (flag_atp_low s)
     (flag_ca_high s) (flag_mito_stress s) (flag_integrity_low s)
     (flag_damage_high s) (flag_cascade s).
Definition set_health (x : R) (s : state) : state :=
  mk (q10 s) (v s) (prev_v s) (m s) (h s) (n s) (w s) (ATP s) (mito s) (Ca s)
     (integrity s) (damage s) x (dead s) (flag_atp_low s)
     (flag_ca_high s) (flag_mito_stress s) (flag_integrity_low s)
     (flag_damage_high s) (flag_cascade s).
Definition set_dead (x : bool) (s : state) : state :=
  mk (q10 s) (v s) (prev_v s) (m s) (h s) (n s) (w s) (ATP s) (mito s) (Ca s)
     (integrity s) (damage s) (health s) x (flag_atp_low s)
     (flag_ca_high s) (flag_mito_stress s) (flag_integrity_low s)
     (flag_damage_high s) (flag_cascade s).
Definition set_flag_atp_low (x : bool) (s : state) : state :=
  mk (q10 s) (v s) (prev_v s) (m s) (h s) (n s) (w s) (ATP s) (mito s) (Ca s)
     (integrity s) (damage s) (health s) (dead s) x
     (flag_ca_high s) (flag_mito_stress s) (flag_integrity_low s)
     (flag_damage_high s) (flag_cascade s).
Definition set_flag_ca_high (x : bool) (s : state) : state :=
  mk (q10 s) (v s) (prev_v s) (m s) (h s) (n s) (w s) (ATP s) (mito s) (Ca s)
     (integrity s) (damage s) (health s) (dead s) (flag_atp_low s)
     x (flag_mito_stress s) (flag_integrity_low s)
     (flag_damage_high s) (flag_cascade s).
Definition set_flag_mito_stress (x : bool) (s : state) : state :=
  mk (q10 s) (v s) (prev_v s) (m s) (h s) (n s) (w s) (ATP s) (mito s) (Ca s)
     (integrity s) (damage s) (health s) (dead s) (flag_atp_low s)
     (flag_ca_high s) x (flag_integrity_low s)
     (flag_damage_high s) (flag_cascade s).
Definition set_flag_integrity_low (x : bool) (s : state) : state :=
  mk (q10 s) (v s) (prev_v s) (m s) (h s) (n s) (w s) (ATP s) (mito s) (Ca s)
     (integrity s) (damage s) (health s) (dead s) (flag_atp_low s)
     (flag_ca_high s) (flag_mito_stress s) x
     (flag_damage_high s) (flag_cascade s).
Definition set_flag_damage_high (x : bool) (s : state) : state :=
  mk (q10 s) (v s) (prev_v s) (m s) (h s) (n s) (w s) (ATP s) (mito s) (Ca s)
     (integrity s) (damage s) (health s) (dead s) (flag_atp_low s)
     (flag_ca_high s) (flag_mito_stress s) (flag_integrity_low s)
     x (flag_cascade s).
Definition set_flag_cascade (x : bool) (s : state) : state :=
  mk (q10 s) (v s) (prev_v s) (m s) (h s) (n s) (w s) (ATP s) (mito s) (Ca s)
     (integrity s) (damage s) (health s) (dead s) (flag_atp_low s)
     (flag_ca_high s) (flag_mito_stress s) (flag_integrity_low s)
     (flag_damage_high s) x.

(** [reset]: every field but [q10] goes back to its resting value. *)
Definition reset (s : state) : state :=
  {| q10 := q10 s;
     v := -65; prev_v := -65;
     m := 0.05; h := 0.6; n := 0.32;
     w := 0;
     ATP := 1; mito := 100; Ca := 0;
     integrity := 100; damage := 0; health := 100;
     dead := false;
     flag_atp_low := false; flag_ca_high := false;
     flag_mito_stress := false; flag_integrity_low := false;
     flag_damage_high := false; flag_cascade := false |}.

(** [__init__]: [self.q10 = 1.0], then [self.reset()].  The fields [reset]
    overwrites have no value before it runs; they are given as 0 here. *)
Definition init : state :=
  reset (mk 1 0 0 0 0 0 0 0 0 0 0 0 0 false false false false false false false).

(** *** Hodgkin-Huxley rates *)

Definition _alpha_m (v : R) : result R :=
  if neqb v (-40)
  then py_div (0.1 * (v + 40)) (1 - exp (- (v + 40) / 10))
  else Ok 1.

Definition _beta_m (v : R) : R := 4 * exp (- (v + 65) / 18).

Definition _alpha_h (v : R) : R := 0.07 * exp (- (v + 65) / 20).

Definition _beta_h (v : R) : result R :=
  py_div 1 (1 + exp (- (v + 35) / 10)).

Definition _alpha_n (v : R) : result R :=
  if neqb v (-55)
  then py_div (0.01 * (v + 55)) (1 - exp (- (v + 55) / 10))
  else Ok 0.1.

Definition _beta_n (v : R) : R := 0.125 * exp (- (v + 65) / 80).

(** *** kill *)

Definition kill (s : state) : state :=
  if dead s then s
  else
    let s := set_dead true s in
    let s := set_v 0 s in
    let s := set_integrity 0 s in
    let s := set_damage 100 s in
    let s := set_health 0 s in
    let s := set_ATP 0 s in
    let s := set_mito 0 s in
    set_Ca 10 s.

(** *** step, by the sections of its body *)

(** [# forced collapse] (the body of the [if kill_mode and not self.dead]). *)
Definition forced_collapse (s : state) (dt_sec : R) : state :=
  let s := set_ATP (ATP s - 5 * dt_sec) s in
  let s := set_Ca (Ca s + 2 * dt_sec) s in
  let s := set_damage (damage s + 5 * dt_sec) s in
  if leb (ATP s) 0 || leb 100 (damage s) || ltb 20 (Ca s)
  then kill s else s.

(** [# membrane] and [# pump]: the gating variables, the ionic currents and
    the two voltage updates.  [v0] is the local [v], the voltage the call
    started with. *)
Definition membrane (s : state) (v0 am bm ah bh an bn dt_ms i_ext : R)
  : state :=
  let s := set_m (m s + (am * (1 - m s) - bm * m s) * dt_ms * 0.5) s in
  let s := set_h (h s + (ah * (1 - h s) - bh * h s) * dt_ms * 0.5) s in
  let s := set_n (n s + (an * (1 - n s) - bn * n s) * dt_ms * 0.5) s in
  let s := set_m (Rmax 0 (Rmin 1 (m s))) s in
  let s := set_h (Rmax 0 (Rmin 1 (h s))) s in
  let s := set_n (Rmax 0 (Rmin 1 (n s))) s in
  let gNa := 120 in
  let gK := 36 in
  let gL := 0.5 in
  let ENa := 50 in
  let EK := -77 in
  let EL := -54.4 in
  let INa := gNa * (m s ^ 3) * h s * (v0 - ENa) in
  let IK := gK * (n s ^ 4) * (v0 - EK) in
  let IL := gL * (v0 - EL) in
  let dv := i_ext - INa - IK - IL in
  let s := set_v (v s + dv * dt_ms) s in
  let pump_strength := 0.004 * ATP s in
  set_v (v s + (-65 - v s) * pump_strength * dt_ms) s.

(** [# calcium]: the spike edge and the clearance. *)
Definition calcium (s : state) (dt_sec : R) : state :=
  let spike := ltb (prev_v s) 0 && leb 0 (v s) in
  let s := if spike then set_Ca (Ca s + 0.02) s else s in
  let ca_clear_rate := 0.05 + 2 * ATP s in
  let s := set_Ca (Ca s - Ca s * ca_clear_rate * dt_sec) s in
  if ltb (Ca s) 0 then set_Ca 0 s else s.

(** [# atp]: the energy balance, up to the clamp. *)
Definition atp (s : state) (dt_sec i_ext : R) : state :=
  let prod_rate := 0.008 * (mito s / 100) in
  let pump_cost_rate := 0.0007 * Rabs i_ext in
  let ca_cost_rate := 0.006 * Ca s in
  let s := set_ATP (ATP s + (prod_rate - pump_cost_rate - ca_cost_rate) * dt_sec) s in
  set_ATP (Rmax 0 (Rmin 1 (ATP s))) s.

(** [# mitochondria]. *)
Definition mitochondria (s : state) (dt_sec i_ext : R) : state :=
  let mito_recovery_rate := 0.02 * (100 - mito s) in
  let load_term := Rmax 0 (Rabs i_ext - 15) * 0.0005 in
  let ca_term := Rmax 0 (Ca s - 0.3) * 0.1 in
  let s := set_mito (mito s + (mito_recovery_rate - load_term - ca_term) * dt_sec) s in
  set_mito (Rmax 0 (Rmin 100 (mito s))) s.

(** The composite stress score of [# damage / health]. *)
Definition stress (s : state) : R :=
  let voltage_term := Rabs (v s + 65) / 250 in
  let ca_term := 1.5 * Ca s in
  let atp_term := 1.5 * (1 - ATP s) in
  let mito_term := (100 - mito s) / 100 in
  voltage_term + ca_term + atp_term + mito_term.

(** [# damage / health]: integrity, damage and the derived health. *)
Definition damage_health (s : state) (dt_sec : R) : state :=
  let stress := stress s in
  let s := if ltb stress 0.6
           then set_integrity (integrity s + 0.1 * dt_sec) s
           else set_integrity (integrity s - (stress - 0.6) * dt_sec) s in
  let s := set_integrity (Rmax 0 (Rmin 100 (integrity s))) s in
  let s := if ltb 1 stress
           then set_damage (damage s + (stress - 1) * 0.5 * dt_sec) s
           else s in
  let s := set_damage (Rmax 0 (Rmin 100 (damage s))) s in
  let s := set_health (integrity s - 0.7 * damage s) s in
  set_health (Rmax 0 (Rmin 100 (health s))) s.

(** [step(dt_ms, i_ext, kill_mode)]; [gauss] is the value of
    [random.gauss(0.0, 0.5)], drawn on the dead path only. *)
Definition step (s : state) (dt_ms i_ext : R) (kill_mode : bool) (gauss : R)
  : result (state * R) :=
  let dt_sec := dt_ms / 1000 in
  let s := if kill_mode && negb (dead s) then forced_collapse s dt_sec else s in
  if dead s then
    let s := set_v (v s + (0 - v s) * dt_sec * 0.2 + gauss) s in
    Ok (s, v s)
  else
    let v0 := v s in
    am <- _alpha_m v0 ;;
    let bm := _beta_m v0 in
    let ah := _alpha_h v0 in
    bh <- _beta_h v0 ;;
    an <- _alpha_n v0 ;;
    let bn := _beta_n v0 in
    let s := membrane s v0 am bm ah bh an bn dt_ms i_ext in
    let s := calcium s dt_sec in
    let s := atp s dt_sec i_ext in
    if leb (ATP s) 0.001 then
      let s := kill s in
      let s := set_prev_v v0 s in
      Ok (s, v s)
    else
      let s := mitochondria s dt_sec i_ext in
      let s := damage_health s dt_sec in
      if leb (health s) 0 then
        let s := kill s in
        let s := set_prev_v v0 s in
        Ok (s, v s)
      else
        let s := set_prev_v v0 s in
        Ok (s, v s).

(** *** The rates and [step] with the range of [math.exp]

    The same seven functions with the one exception their arithmetic can
    raise besides [ZeroDivisionError]: [math.exp] fails with
    [OverflowError] when its result is beyond the binary64 range. *)

Module Ranged.

Definition _alpha_m (v : R) : result R :=
  if neqb v (-40)
  then e <- math_exp (- (v + 40) / 10) ;; py_div (0.1 * (v + 40)) (1 - e)
  else Ok 1.

Definition _beta_m (v : R) : result R :=
  e <- math_exp (- (v + 65) / 18) ;; Ok (4 * e).

Definition _alpha_h (v : R) : result R :=
  e <- math_exp (- (v + 65) / 20) ;; Ok (0.07 * e).

Definition _beta_h (v : R) : result R :=
  e <- math_exp (- (v + 35) / 10) ;; py_div 1 (1 + e).

Definition _alpha_n (v : R) : result R :=
  if neqb v (-55)
  then e <- math_exp (- (v + 55) / 10) ;; py_div (0.01 * (v + 55)) (1 - e)
  else Ok 0.1.

Definition _beta_n (v : R) : result R :=
  e <- math_exp (- (v + 65) / 80) ;; Ok (0.125 * e).

Definition step (s : state) (dt_ms i_ext : R) (kill_mode : bool) (gauss : R)
  : result (state * R) :=
  let dt_sec := dt_ms / 1000 in
  let s := if kill_mode && negb (dead s) then forced_collapse s dt_sec else s in
  if dead s then
    let s := set_v (v s + (0 - v s) * dt_sec * 0.2 + gauss) s in
    Ok (s, v s)
  else
    let v0 := v s in
    am <- _alpha_m v0 ;;
    bm <- _beta_m v0 ;;
    ah <- _alpha_h v0 ;;
    bh <- _beta_h v0 ;;
    an <- _alpha_n v0 ;;
    bn <- _beta_n v0 ;;
    let s := membrane s v0 am bm ah bh an bn dt_ms i_ext in
    let s := calcium s dt_sec in
    let s := atp s dt_sec i_ext in
    if leb (ATP s) 0.001 then
      let s := kill s in
      let s := set_prev_v v0 s in
      Ok (s, v s)
    else
      let s := mitochondria s dt_sec i_ext in
      let s := damage_health s dt_sec in
      if leb (health s) 0 then
        let s := kill s in
        let s := set_prev_v v0 s in
        Ok (s, v s)
      else
        let s := set_prev_v v0 s in
        Ok (s, v s).

End Ranged.

End Neuron.

(** ** nt/stim.py *)

Module Stimulator.

Open Scope string_scope.

Definition MODES : list string := ["OFF"; "CONSTANT"; "STEP"; "PULSE"].

Record state : Type := mk {
  mode : string;
  amplitude : R;
  duration : R;
  frequency : R;
  pulse_width : R;
  protocol_start_time : R;
  step_active : bool;
  step_start_time : R;
  step_duration : R
}.

Definition set_step_active (x : bool) (s : state) : state :=
  mk (mode s) (amplitude s) (duration s) (frequency s) (pulse_width s)
     (protocol_start_time s) x (step_start_time s) (step_duration s).
Definition set_step_start_time (x : R) (s : state) : state :=
  mk (mode s) (amplitude s) (duration s) (frequency s) (pulse_width s)
     (protocol_start_time s) (step_active s) x (step_duration s).
Definition set_protocol_start_time (x : R) (s : state) : state :=
  mk (mode s) (amplitude s) (duration s) (frequency s) (pulse_width s)
     x (step_active s) (step_start_time s) (step_duration s).
Definition set_mode_field (x : string) (s : state) : state :=
  mk x (amplitude s) (duration s) (frequency s) (pulse_width s)
     (protocol_start_time s) (step_active s) (step_start_time s)
     (step_duration s).
Definition set_amplitude (x : R) (s : state) : state :=
  mk (mode s) x (duration s) (frequency s) (pulse_width s)
     (protocol_start_time s) (step_active s) (step_start_time s)
     (step_duration s).
Definition set_frequency (x : R) (s : state) : state :=
  mk (mode s) (amplitude s) (duration s) x (pulse_width s)
     (protocol_start_time s) (step_active s) (step_start_time s)
     (step_duration s).
Definition set_pulse_width (x : R) (s : state) : state :=
  mk (mode s) (amplitude s) (duration s) (frequency s) x
     (protocol_start_time s) (step_active s) (step_start_time s)
     (step_duration s).

(** [__init__]. *)
Definition init : state :=
  {| mode := "OFF";
     amplitude := 10; duration := 500; frequency := 10; pulse_width := 5;
     protocol_start_time := 0;
     step_active := false; step_start_time := 0; step_duration := 5 |}.

(** [mode in self.MODES]. *)
Definition known_mode (x : string) : bool := existsb (String.eqb x) MODES.

Definition set_mode (s : state) (x : string) (current_time : R) : state :=
  if known_mode x then
    let s := set_mode_field x s in
    let s := set_protocol_start_time current_time s in
    set_step_active false s
  else s.

Definition trigger_step (s : state) (current_time : R) : state :=
  let s := set_step_active true s in
  set_step_start_time current_time s.

(** [_step_current(t)]: the object after the call and the current. *)
Definition _step_current (s : state) (t : R) : state * R :=
  if negb (step_active s) then (s, 0)
  else
    let rel := t - step_start_time s in
    if leb 0 rel && ltb rel (step_duration s) then (s, amplitude s)
    else
      let s := set_step_active false s in
      (s, 0).

(** [current_at(t)]: the object after the call and the current. *)
Definition current_at (s : state) (t : R) : result (state * R) :=
  if mode s =? "OFF" then Ok (s, 0)
  else if mode s =? "STEP" then Ok (_step_current s t)
  else
    let rel_t := t - protocol_start_time s in
    if mode s =? "CONSTANT" then Ok (s, amplitude s)
    else if mode s =? "PULSE" then
      if leb (frequency s) 0 || ltb rel_t 0 then Ok (s, 0)
      else
        period <- py_div 1000 (frequency s) ;;
        if leb period 0 then Ok (s, 0)
        else
          let width := Rmin (pulse_width s) period in
          phase <- py_mod rel_t period ;;
          if ltb phase width then Ok (s, amplitude s)
          else Ok (s, 0)
    else Ok (s, 0).

End Stimulator.

(** ** nt/daq.py *)

Module DAQ.

Record state : Type := mk {
  adc_bits : Z;
  noise_level : R;
  voltage_range : R * R
}.

(** [__init__]. *)
Definition init : state :=
  {| adc_bits := 12; noise_level := 0.5; voltage_range := (-100, 100) |}.

Definition quantize (d : state) (val : R) : result R :=
  let '(min_v, max_v) := voltage_range d in
  let steps := py_pow2 (adc_bits d) in
  step_size <- py_div (max_v - min_v) steps ;;
  let val := Rmax min_v (Rmin val max_v) in
  q <- py_div (val - min_v) step_size ;;
  let q_val := IZR (py_round q) * step_size + min_v in
  Ok q_val.

(** [acquire_sample(true_voltage)]; [normal] is the value of
    [np.random.normal(0, self.noise_level)]. *)
Definition acquire_sample (d : state) (true_voltage normal : R) : result R :=
  let noisy := true_voltage + normal in
  digitized <- quantize d noisy ;;
  Ok digitized.

End DAQ.

(** ** nt/gui.py: the orchestration loop of [MainWindow]

    Only the attributes the simulation reads or writes are kept; plotting,
    labels and widgets are left out.  [log(msg)] appends to a list of
    notifications, one constructor per message of the source. *)

Module MainWindow.

(** [collections.deque] with its [maxlen]. *)
Record deque : Type := mk_deque {
  items : list R;
  maxlen : option nat
}.

Definition append (d : deque) (x : R) : deque :=
  match maxlen d with
  | None => mk_deque (items d ++ [x]) None
  | Some O => d
  | Some k =>
      if (k <=? length (items d))%nat
      then mk_deque (skipn 1 (items d) ++ [x]) (Some k)
      else mk_deque (items d ++ [x]) (Some k)
  end.

Inductive notification : Type :=
| CellDied          (* EVENT: Cell has died. *)
| AtpLow            (* WARNING: ATP levels critically low. *)
| CaHigh            (* WARNING: Intracellular Ca overload developing. *)
| MitoStress        (* NOTICE: Mitochondrial output reduced. *)
| IntegrityLow      (* NOTICE: Structural integrity declining. *)
| DamageHigh        (* WARNING: Permanent damage accumulating. *)
| Cascade           (* DANGER: Excitotoxic cascade conditions reached. *)
| Recovery (recovery_ms : R).
                    (* Recovery: membrane returned near rest after ... ms. *)

Record state : Type := mk {
  neuron : Neuron.state;
  stim : Stimulator.state;
  daq : DAQ.state;
  time_ms : R;
  dt : R;
  timer_interval : Z;
  time_scale_factor : R;
  running : bool;
  plot_dt_ms : R;
  time_since_last_plot : R;
  t_data : deque;
  v_data : deque;
  t_full : deque;
  v_full : deque;
  meta_t : list R;
  meta_atp : list R;
  meta_ca : list R;
  meta_mito : list R;
  meta_integrity : list R;
  meta_damage : list R;
  last_step_time_ms : option R;
  step_recovery_logged : bool;
  log_widget : list (R * notification)
}.

(** [__init__], with [plot_buffer_size = int(2.0 * 1000 / 1.0) = 2000]. *)
Definition init : state :=
  {| neuron := Neuron.init;
     stim := Stimulator.init;
     daq := DAQ.init;
     time_ms := 0;
     dt := 0.025;
     timer_interval := 20;
     time_scale_factor := 1;
     running := false;
     plot_dt_ms := 1;
     time_since_last_plot := 0;
     t_data := mk_deque [] (Some 2000%nat);
     v_data := mk_deque [] (Some 2000%nat);
     t_full := mk_deque [] None;
     v_full := mk_deque [] None;
     meta_t := []; meta_atp := []; meta_ca := []; meta_mito := [];
     meta_integrity := []; meta_damage := [];
     last_step_time_ms := None;
     step_recovery_logged := false;
     log_widget := [] |}.

Definition set_neuron (x : Neuron.state) (s : state) : state :=
  mk x (stim s) (daq s) (time_ms s) (dt s) (timer_interval s)
     (time_scale_factor s) (running s) (plot_dt_ms s)
     (time_since_last_plot s) (t_data s) (v_data s) (t_full s) (v_full s)
     (meta_t s) (meta_atp s) (meta_ca s) (meta_mito s) (meta_integrity s)
     (meta_damage s) (last_step_time_ms s) (step_recovery_logged s)
     (log_widget s).
Definition set_stim (x : Stimulator.state) (s : state) : state :=
  mk (neuron s) x (daq s) (time_ms s) (dt s) (timer_interval s)
     (time_scale_factor s) (running s) (plot_dt_ms s)
     (time_since_last_plot s) (t_data s) (v_data s) (t_full s) (v_full s)
     (meta_t s) (meta_atp s) (meta_ca s) (meta_mito s) (meta_integrity s)
     (meta_damage s) (last_step_time_ms s) (step_recovery_logged s)
     (log_widget s).
Definition set_time_ms (x : R) (s : state) : state :=
  mk (neuron s) (stim s) (daq s) x (dt s) (timer_interval s)
     (time_scale_factor s) (running s) (plot_dt_ms s)
     (time_since_last_plot s) (t_data s) (v_data s) (t_full s) (v_full s)
     (meta_t s) (meta_atp s) (meta_ca s) (meta_mito s) (meta_integrity s)
     (meta_damage s) (last_step_time_ms s) (step_recovery_logged s)
     (log_widget s).
Definition set_time_scale_factor (x : R) (s : state) : state :=
  mk (neuron s) (stim s) (daq s) (time_ms s) (dt s) (timer_interval s)
     x (running s) (plot_dt_ms s)
     (time_since_last_plot s) (t_data s) (v_data s) (t_full s) (v_full s)
     (meta_t s) (meta_atp s) (meta_ca s) (meta_mito s) (meta_integrity s)
     (meta_damage s) (last_step_time_ms s) (step_recovery_logged s)
     (log_widget s).
Definition set_running (x : bool) (s : state) : state :=
  mk (neuron s) (stim s) (daq s) (time_ms s) (dt s) (timer_interval s)
     (time_scale_factor s) x (plot_dt_ms s)
     (time_since_last_plot s) (t_data s) (v_data s) (t_full s) (v_full s)
     (meta_t s) (meta_atp s) (meta_ca s) (meta_mito s) (meta_integrity s)
     (meta_damage s) (last_step_time_ms s) (step_recovery_logged s)
     (log_widget s).
Definition set_time_since_last_plot (x : R) (s : state) : state :=
  mk (neuron s) (stim s) (daq s) (time_ms s) (dt s) (timer_interval s)
     (time_scale_factor s) (running s) (plot_dt_ms s)
     x (t_data s) (v_data s) (t_full s) (v_full s)
     (meta_t s) (meta_atp s) (meta_ca s) (meta_mito s) (meta_integrity s)
     (meta_damage s) (last_step_time_ms s) (step_recovery_logged s)
     (log_widget s).
Definition set_step_recovery_logged (x : bool) (s : state) : state :=
  mk (neuron s) (stim s) (daq s) (time_ms s) (dt s) (timer_interval s)
     (time_scale_factor s) (running s) (plot_dt_ms s)
     (time_since_last_plot s) (t_data s) (v_data s) (t_full s) (v_full s)
     (meta_t s) (meta_atp s) (meta_ca s) (meta_mito s) (meta_integrity s)
     (meta_damage s) (last_step_time_ms s) x
     (log_widget s).

(** [log(msg)]: the notification, stamped with the simulated time. *)
Definition log (s : state) (msg : notification) : state :=
  mk (neuron s) (stim s) (daq s) (time_ms s) (dt s) (timer_interval s)
     (time_scale_factor s) (running s) (plot_dt_ms s)
     (time_since_last_plot s) (t_data s) (v_data s) (t_full s) (v_full s)
     (meta_t s) (meta_atp s) (meta_ca s) (meta_mito s) (meta_integrity s)
     (meta_damage s) (last_step_time_ms s) (step_recovery_logged s)
     (log_widget s ++ [(time_ms s / 1000, msg)]).

Definition set_time_scale (s : state) (factor : R) : state :=
  set_time_scale_factor factor s.

(** The ten [append]s of one sample of [update_loop]. *)
Definition record_sample (s : state) (t_sec v_meas : R) : state :=
  mk (neuron s) (stim s) (daq s) (time_ms s) (dt s) (timer_interval s)
     (time_scale_factor s) (running s) (plot_dt_ms s)
     (time_since_last_plot s)
     (append (t_data s) t_sec) (append (v_data s) v_meas)
     (append (t_full s) t_sec) (append (v_full s) v_meas)
     (meta_t s ++ [t_sec])
     (meta_atp s ++ [Neuron.ATP (neuron s)])
     (meta_ca s ++ [Neuron.Ca (neuron s)])
     (meta_mito s ++ [Neuron.mito (neuron s)])
     (meta_integrity s ++ [Neuron.integrity (neuron s)])
     (meta_damage s ++ [Neuron.damage (neuron s)])
     (last_step_time_ms s) (step_recovery_logged s) (log_widget s).

(** [steps_to_run] of [update_loop]. *)
Definition steps_to_run (s : state) : result Z :=
  q <- py_div (IZR (timer_interval s)) (dt s) ;;
  let steps_to_run := py_int (q * time_scale_factor s) in
  if (steps_to_run =? 0)%Z && ltb 0 (time_scale_factor s)
  then Ok 1%Z
  else Ok steps_to_run.

(** One call of [Neuron.step] by the loop: the simulated time at which the
    stimulator was sampled, the step and the current passed to it. *)
Record update : Type := mk_update {
  at_time_ms : R;
  with_dt : R;
  with_i_stim : R
}.

(** The body of the [for] loop. [gauss] and [normal] are the draws of
    [Neuron.step] and of [DAQ.acquire_sample] in this iteration.  With the
    state it returns the call of [Neuron.step] it made. *)
Definition loop_body (s : state) (gauss normal : R)
  : result (state * update) :=
  si <- Stimulator.current_at (stim s) (time_ms s) ;;
  let s := set_stim (fst si) s in
  let i_stim := snd si in
  let call := mk_update (time_ms s) (dt s) i_stim in
  nv <- Neuron.step (neuron s) (dt s) i_stim false gauss ;;
  let s := set_neuron (fst nv) s in
  let v_true := snd nv in
  let s := set_time_ms (time_ms s + dt s) s in
  let s := set_time_since_last_plot (time_since_last_plot s + dt s) s in
  if leb (plot_dt_ms s) (time_since_last_plot s) then
    let s := set_time_since_last_plot
               (time_since_last_plot s - plot_dt_ms s) s in
    v_meas <- DAQ.acquire_sample (daq s) v_true normal ;;
    let t_sec := time_ms s / 1000 in
    Ok (record_sample s t_sec v_meas, call)
  else Ok (s, call).

(** [for _ in range(count)], from iteration [i] on; [draws i] gives the two
    random draws of iteration [i].  The calls of [Neuron.step] are collected
    in the order they are made. *)
Fixpoint for_range (count i : nat) (draws : nat -> R * R) (s : state)
  : result (state * list update) :=
  match count with
  | O => Ok (s, [])
  | S count' =>
      sc <- loop_body s (fst (draws i)) (snd (draws i)) ;;
      rest <- for_range count' (S i) draws (fst sc) ;;
      Ok (fst rest, snd sc :: snd rest)
  end.

(** [update_event_logs]. *)
Definition update_event_logs (s : state) : state :=
  let stim_on := negb (Stimulator.mode (stim s) =? "OFF")%string in
  if Neuron.dead (neuron s) && running s then
    let s := log s CellDied in
    set_running false s
  else
    let s :=
      if ltb (Neuron.ATP (neuron s)) 0.3
         && negb (Neuron.flag_atp_low (neuron s))
      then set_neuron (Neuron.set_flag_atp_low true (neuron s)) (log s AtpLow)
      else s in
    let s :=
      if ltb 1 (Neuron.Ca (neuron s))
         && negb (Neuron.flag_ca_high (neuron s))
      then set_neuron (Neuron.set_flag_ca_high true (neuron s)) (log s CaHigh)
      else s in
    let s :=
      if ltb (Neuron.mito (neuron s)) 80
         && negb (Neuron.flag_mito_stress (neuron s))
      then set_neuron (Neuron.set_flag_mito_stress true (neuron s))
                      (log s MitoStress)
      else s in
    let s :=
      if ltb (Neuron.integrity (neuron s)) 60
         && negb (Neuron.flag_integrity_low (neuron s))
      then set_neuron (Neuron.set_flag_integrity_low true (neuron s))
                      (log s IntegrityLow)
      else s in
    let s :=
      if ltb 20 (Neuron.damage (neuron s))
         && negb (Neuron.flag_damage_high (neuron s))
      then set_neuron (Neuron.set_flag_damage_high true (neuron s))
                      (log s DamageHigh)
      else s in
    let s :=
      if ltb (Neuron.ATP (neuron s)) 0.2 && ltb 0.5 (Neuron.Ca (neuron s))
         && stim_on && negb (Neuron.flag_cascade (neuron s))
      then set_neuron (Neuron.set_flag_cascade true (neuron s)) (log s Cascade)
      else s in
    match last_step_time_ms s with
    | Some last =>
        if (Stimulator.mode (stim s) =? "STEP")%string
           && negb (step_recovery_logged s)
           && ltb 2 (time_ms s - last)
           && ltb (Rabs (Neuron.v (neuron s) + 65)) 1
        then
          let recovery_ms := time_ms s - last in
          set_step_recovery_logged true (log s (Recovery recovery_ms))
        else s
    | None => s
    end.

(** [update_loop], one tick of the timer.  With the state it returns the
    calls of [Neuron.step] of this tick. *)
Definition update_loop (s : state) (draws : nat -> R * R)
  : result (state * list update) :=
  if negb (running s) then Ok (s, [])
  else
    steps <- steps_to_run s ;;
    sl <- for_range (Z.to_nat steps) 0 draws s ;;
    Ok (update_event_logs (fst sl), snd sl).

End MainWindow.

(** ** Python arithmetic on binary64, and nt/stim.py on it

    Where a claim is decided by the rounding of the float operations, the
    code is embedded on the binary64 format itself: the operations of the
    Standard Library's [SpecFloat] at precision 53 and exponent bound
    1024. *)

Module Binary64.

Import SpecFloat.

(** A Python [float]: an IEEE 754 binary64 value. *)
Definition float : Type := spec_float.

Definition prec : Z := 53.
Definition emax : Z := 1024.

(** [a + b] and [a - b]: correctly rounded, to nearest, ties to even. *)
Definition add : float -> float -> float := SFadd prec emax.
Definition sub : float -> float -> float := SFsub prec emax.

(** [a < b], [a <= b]: false when either side is a NaN. *)
Definition ltb : float -> float -> bool := SFltb.
Definition leb : float -> float -> bool := SFleb.

(** [x == 0.0], for either zero. *)
Definition is_zero (x : float) : bool :=
  match x with
  | S754_zero _ => true
  | _ => false
  end.

(** The sign bit. *)
Definition signbit (x : float) : bool :=
  match x with
  | S754_zero s | S754_infinity s | S754_finite s _ _ => s
  | S754_nan => false
  end.

(** Neither an infinity nor a NaN. *)
Definition is_finite (x : float) : bool :=
  match x with
  | S754_zero _ | S754_finite _ _ _ => true
  | _ => false
  end.

(** The float of an integer (exact below [2^53]). *)
Definition of_Z (k : Z) : float := binary_normalize prec emax k 0 false.

(** [a / b]: Python raises where IEEE 754 would return an infinity or a
    NaN for a zero divisor. *)
Definition py_div (a b : float) : result float :=
  if is_zero b then Raise ZeroDivisionError else Ok (SFdiv prec emax a b).

(** A decimal literal [num / den] (as [28.075] is [28075 / 1000]): the
    binary64 value nearest to it.  Both integers are below [2^53], so the
    correctly rounded quotient is that value. *)
Definition decimal (num : Z) (den : positive) : float :=
  SFdiv prec emax (of_Z num) (of_Z (Zpos den)).

(** [min(a, b)]: the second argument only when it is smaller. *)
Definition min (a b : float) : float := if ltb b a then b else a.

(** [fmod(x, y)] of C for [y != 0]: the exact remainder of [|x|] by [|y|],
    with the sign of [x]. *)
Definition fmod (x y : float) : float :=
  match x, y with
  | S754_nan, _ | _, S754_nan => S754_nan
  | S754_infinity _, _ => S754_nan
  | _, S754_zero _ => S754_nan
  | S754_zero _, _ => x
  | S754_finite _ _ _, S754_infinity _ => x
  | S754_finite sx mx ex, S754_finite _ my ey =>
      let e := Z.min ex ey in
      let r := ((Zpos mx * 2 ^ (ex - e)) mod (Zpos my * 2 ^ (ey - e)))%Z in
      binary_normalize prec emax (if sx then (- r)%Z else r) e sx
  end.

(** [x % y] on floats ([float_rem] of CPython): the remainder of [fmod],
    moved by [y] when it is non-zero and its sign is not the sign of [y]; a
    zero remainder takes the sign of [y]. *)
Definition py_mod (vx wx : float) : result float :=
  if is_zero wx then Raise ZeroDivisionError
  else
    let r := fmod vx wx in
    if negb (is_zero r) then
      if negb (Bool.eqb (ltb wx (S754_zero false)) (ltb r (S754_zero false)))
      then Ok (add r wx)
      else Ok r
    else Ok (S754_zero (signbit wx)).

(** *** nt/stim.py on binary64 *)

Module Stimulator.

Open Scope string_scope.

Record state : Type := mk {
  mode : string;
  amplitude : float;
  duration : float;
  frequency : float;
  pulse_width : float;
  protocol_start_time : float;
  step_active : bool;
  step_start_time : float;
  step_duration : float
}.

Definition set_step_active (x : bool) (s : state) : state :=
  mk (mode s) (amplitude s) (duration s) (frequency s) (pulse_width s)
     (protocol_start_time s) x (step_start_time s) (step_duration s).

(** [_step_current(t)]: the object after the call and the current. *)
Definition _step_current (s : state) (t : float) : state * float :=
  if negb (step_active s) then (s, S754_zero false)
  else
    let rel := sub t (step_start_time s) in
    if leb (S754_zero false) rel && ltb rel (step_duration s)
    then (s, amplitude s)
    else
      let s := set_step_active false s in
      (s, S754_zero false).

(** [current_at(t)]: the object after the call and the current. *)
Definition current_at (s : state) (t : float) : result (state * float) :=
  if mode s =? "OFF" then Ok (s, S754_zero false)
  else if mode s =? "STEP" then Ok (_step_current s t)
  else
    let rel_t := sub t (protocol_start_time s) in
    if mode s =? "CONSTANT" then Ok (s, amplitude s)
    else if mode s =? "PULSE" then
      if leb (frequency s) (S754_zero false) || ltb rel_t (S754_zero false)
      then Ok (s, S754_zero false)
      else
        period <- py_div (of_Z 1000) (frequency s) ;;
        if leb period (S754_zero false) then Ok (s, S754_zero false)
        else
          let width := min (pulse_width s) period in
          phase <- py_mod rel_t period ;;
          if ltb phase width then Ok (s, amplitude s)
          else Ok (s, S754_zero false)
    else Ok (s, S754_zero false).

End Stimulator.

End Binary64.

(** * Specification vocabulary *)

(** The ranges the metabolic and gating fields are kept in. *)
Definition bounded (s : Neuron.state) : Prop :=
  0 <= Neuron.m s <= 1 /\
  0 <= Neuron.h s <= 1 /\
  0 <= Neuron.n s <= 1 /\
  0 <= Neuron.ATP s <= 1 /\
  0 <= Neuron.mito s <= 100 /\
  0 <= Neuron.integrity s <= 100 /\
  0 <= Neuron.damage s <= 100 /\
  0 <= Neuron.Ca s.

(** The states a neuron object can be in: it is built by [__init__], and
    then only [reset], [kill] and [step] touch it. *)
Inductive reachable : Neuron.state -> Prop :=
| reachable_init : reachable Neuron.init
| reachable_reset (s : Neuron.state) :
    reachable s -> reachable (Neuron.reset s)
| reachable_kill (s : Neuron.state) :
    reachable s -> reachable (Neuron.kill s)
| reachable_step (s s' : Neuron.state) (dt_ms i_ext r : R)
    (kill_mode : bool) (gauss : R) :
    reachable s ->
    Neuron.step s dt_ms i_ext kill_mode gauss = Ok (s', r) ->
    reachable s'.

(** A method call on a neuron, with the draw of the generator for [step]. *)
Inductive call : Type :=
| Step (dt_ms i_ext : R) (kill_mode : bool) (gauss : R)
| Kill
| Reset.

Definition is_step (c : call) : Prop :=
  match c with Step _ _ _ _ => True | _ => False end.

(** [step] with a positive time step, or [kill]. *)
Definition advances (c : call) : Prop :=
  match c with
  | Step dt_ms _ _ _ => 0 < dt_ms
  | Kill => True
  | Reset => False
  end.

Definition do_call (s : Neuron.state) (c : call) : result Neuron.state :=
  match c with
  | Step dt_ms i_ext kill_mode gauss =>
      sr <- Neuron.step s dt_ms i_ext kill_mode gauss ;; Ok (fst sr)
  | Kill => Ok (Neuron.kill s)
  | Reset => Ok (Neuron.reset s)
  end.

(** A sequence of calls, with the state before each call. *)
Fixpoint run (s : Neuron.state) (calls : list call)
  : result (Neuron.state * list Neuron.state) :=
  match calls with
  | [] => Ok (s, [])
  | c :: calls' =>
      s1 <- do_call s c ;;
      rest <- run s1 calls' ;;
      Ok (fst rest, s :: snd rest)
  end.

(** The state [step] works on once the forced collapse is through. *)
Definition entered (s : Neuron.state) (dt_ms : R) (kill_mode : bool)
  : Neuron.state :=
  if kill_mode && negb (Neuron.dead s)
  then Neuron.forced_collapse s (dt_ms / 1000) else s.

(** The values the rate functions return (see [alpha_m_value],
    [beta_h_value] and [alpha_n_value]). *)
Definition alpha_m_of (u : R) : R :=
  if neqb u (-40) then 0.1 * (u + 40) / (1 - exp (- (u + 40) / 10)) else 1.
Definition beta_h_of (u : R) : R := 1 / (1 + exp (- (u + 35) / 10)).
Definition alpha_n_of (u : R) : R :=
  if neqb u (-55) then 0.01 * (u + 55) / (1 - exp (- (u + 55) / 10)) else 0.1.

(** The state of an alive neuron after the membrane and pump sections of
    [step]: its [v] is the voltage of the voltage-update stage. *)
Definition after_membrane (s : Neuron.state) (dt_ms i_ext : R)
  : Neuron.state :=
  let u := Neuron.v s in
  Neuron.membrane s u (alpha_m_of u) (Neuron._beta_m u) (Neuron._alpha_h u)
    (beta_h_of u) (alpha_n_of u) (Neuron._beta_n u) dt_ms i_ext.

(** ... and after the calcium and ATP sections. *)
Definition after_atp (s : Neuron.state) (dt_ms i_ext : R) : Neuron.state :=
  Neuron.atp
    (Neuron.calcium (after_membrane s dt_ms i_ext) (dt_ms / 1000))
    (dt_ms / 1000) i_ext.

(** ... and after all the sections, before the last test on [health]. *)
Definition after_damage (s : Neuron.state) (dt_ms i_ext : R) : Neuron.state :=
  Neuron.damage_health
    (Neuron.mitochondria (after_atp s dt_ms i_ext) (dt_ms / 1000) i_ext)
    (dt_ms / 1000).

(** The fields [kill] writes. *)
Definition killed (s : Neuron.state) : Prop :=
  Neuron.integrity s = 0 /\ Neuron.damage s = 100 /\ Neuron.health s = 0 /\
  Neuron.ATP s = 0 /\ Neuron.mito s = 0 /\ Neuron.Ca s = 10.

(** What [step] requires of a neuron it leaves alive. *)
Definition viable (s : Neuron.state) : Prop :=
  0.001 < Neuron.ATP s /\ 0 < Neuron.health s.

(** [health] as the last lines of [step] derive it. *)
Definition health_derived (s : Neuron.state) : Prop :=
  Neuron.health s
  = Rmax 0 (Rmin 100 (Neuron.integrity s - 0.7 * Neuron.damage s)).

(** The invariant of the neuron beyond the ranges of [bounded]. *)
Definition settled (s : Neuron.state) : Prop :=
  Neuron.q10 s = 1 /\
  health_derived s /\
  (Neuron.dead s = true -> killed s) /\
  (Neuron.dead s = false -> viable s).

(** [step] in forced-collapse mode with the time step [dt_ms]. *)
Definition forced (dt_ms : R) (c : call) : Prop :=
  match c with
  | Step dt _ kill_mode _ => dt = dt_ms /\ kill_mode = true
  | _ => False
  end.

(** The states a stimulator object can be in: it is built by [__init__];
    then [set_mode], [trigger_step] and [current_at] are called on it and
    the amplitude slider of the window assigns [amplitude]. *)
Inductive stim_reachable : Stimulator.state -> Prop :=
| stim_reachable_init : stim_reachable Stimulator.init
| stim_reachable_set_mode (s : Stimulator.state) (x : string) (t : R) :
    stim_reachable s -> stim_reachable (Stimulator.set_mode s x t)
| stim_reachable_trigger_step (s : Stimulator.state) (t : R) :
    stim_reachable s -> stim_reachable (Stimulator.trigger_step s t)
| stim_reachable_amplitude (s : Stimulator.state) (a : R) :
    stim_reachable s -> stim_reachable (Stimulator.set_amplitude a s)
| stim_reachable_current_at (s s' : Stimulator.state) (t i : R) :
    stim_reachable s ->
    Stimulator.current_at s t = Ok (s', i) ->
    stim_reachable s'.

(** One test of [update_event_logs]: when [c] holds the message is logged
    and the flag set. *)
Definition flag_stage (c : bool) (set_flag : Neuron.state -> Neuron.state)
  (msg : MainWindow.notification) (s : MainWindow.state) : MainWindow.state :=
  if c
  then MainWindow.set_neuron (set_flag (MainWindow.neuron s))
         (MainWindow.log s msg)
  else s.

(** The last test of [update_event_logs], on the recovery after a step. *)
Definition recovery_stage (s : MainWindow.state) : MainWindow.state :=
  match MainWindow.last_step_time_ms s with
  | Some last =>
      if (Stimulator.mode (MainWindow.stim s) =? "STEP")%string
         && negb (MainWindow.step_recovery_logged s)
         && ltb 2 (MainWindow.time_ms s - last)
         && ltb (Rabs (Neuron.v (MainWindow.neuron s) + 65)) 1
      then
        MainWindow.set_step_recovery_logged true
          (MainWindow.log s (MainWindow.Recovery (MainWindow.time_ms s - last)))
      else s
  | None => s
  end.

(** The six one-shot flags, each with the notification it guards. *)
Definition latches : list ((Neuron.state -> bool) * MainWindow.notification) :=
  [(Neuron.flag_atp_low, MainWindow.AtpLow);
   (Neuron.flag_ca_high, MainWindow.CaHigh);
   (Neuron.flag_mito_stress, MainWindow.MitoStress);
   (Neuron.flag_integrity_low, MainWindow.IntegrityLow);
   (Neuron.flag_damage_high, MainWindow.DamageHigh);
   (Neuron.flag_cascade, MainWindow.Cascade)].

(** The message is among the entries of a log. *)
Definition logged (msg : MainWindow.notification)
  (entries : list (R * MainWindow.notification)) : Prop :=
  In msg (map snd entries).

(** A deque holds no more than its [maxlen]. *)
Definition within_capacity (d : MainWindow.deque) : Prop :=
  match MainWindow.maxlen d with
  | Some k => (length (MainWindow.items d) <= k)%nat
  | None => True
  end.

(** The history buffers are parallel: one entry each per sample. *)
Definition histories_parallel (s : MainWindow.state) : Prop :=
  length (MainWindow.meta_atp s) = length (MainWindow.meta_t s) /\
  length (MainWindow.meta_ca s) = length (MainWindow.meta_t s) /\
  length (MainWindow.meta_mito s) = length (MainWindow.meta_t s) /\
  length (MainWindow.meta_integrity s) = length (MainWindow.meta_t s) /\
  length (MainWindow.meta_damage s) = length (MainWindow.meta_t s) /\
  length (MainWindow.items (MainWindow.v_data s))
    = length (MainWindow.items (MainWindow.t_data s)) /\
  MainWindow.maxlen (MainWindow.v_data s)
    = MainWindow.maxlen (MainWindow.t_data s) /\
  length (MainWindow.items (MainWindow.v_full s))
    = length (MainWindow.items (MainWindow.t_full s)) /\
  MainWindow.maxlen (MainWindow.v_full s)
    = MainWindow.maxlen (MainWindow.t_full s).

(** A neuron with its six flags cleared: what the simulation itself reads. *)
Definition without_flags (x : Neuron.state) : Neuron.state :=
  Neuron.mk (Neuron.q10 x) (Neuron.v x) (Neuron.prev_v x) (Neuron.m x)
    (Neuron.h x) (Neuron.n x) (Neuron.w x) (Neuron.ATP x) (Neuron.mito x)
    (Neuron.Ca x) (Neuron.integrity x) (Neuron.damage x) (Neuron.health x)
    (Neuron.dead x) false false false false false false.

(** An orchestrator without its bookkeeping of notifications: the flags,
    [running], [step_recovery_logged] and the log are blanked. *)
Definition simulation_of (s : MainWindow.state) : MainWindow.state :=
  MainWindow.mk (without_flags (MainWindow.neuron s)) (MainWindow.stim s)
    (MainWindow.daq s) (MainWindow.time_ms s) (MainWindow.dt s)
    (MainWindow.timer_interval s) (MainWindow.time_scale_factor s) false
    (MainWindow.plot_dt_ms s) (MainWindow.time_since_last_plot s)
    (MainWindow.t_data s) (MainWindow.v_data s) (MainWindow.t_full s)
    (MainWindow.v_full s) (MainWindow.meta_t s) (MainWindow.meta_atp s)
    (MainWindow.meta_ca s) (MainWindow.meta_mito s)
    (MainWindow.meta_integrity s) (MainWindow.meta_damage s)
    (MainWindow.last_step_time_ms s) false [].

(** Between [s] and a later state the message of a latch was not logged
    and its flag is as it was. *)
Definition latch_pending (flag : Neuron.state -> bool)
  (msg : MainWindow.notification) (s s' : MainWindow.state) : Prop :=
  exists entries,
    MainWindow.log_widget s' = MainWindow.log_widget s ++ entries /\
    ~ logged msg entries /\
    flag (MainWindow.neuron s') = flag (MainWindow.neuron s).

(** Between [s] and a later state the latch held: a flag that was set is
    still set and its message was not logged again; a message that was
    logged had its flag clear before and has it set now. *)
Definition latch_kept (flag : Neuron.state -> bool)
  (msg : MainWindow.notification) (s s' : MainWindow.state) : Prop :=
  exists entries,
    MainWindow.log_widget s' = MainWindow.log_widget s ++ entries /\
    (flag (MainWindow.neuron s) = true ->
     flag (MainWindow.neuron s') = true /\ ~ logged msg entries) /\
    (logged msg entries ->
     flag (MainWindow.neuron s) = false /\
     flag (MainWindow.neuron s') = true).

(** The state the body of the loop of [update_loop] builds before it looks
    at the sampling clock: the new stimulator and neuron, and the two clocks
    moved by [dt]. *)
Definition advanced (s : MainWindow.state) (st' : Stimulator.state)
  (x : Neuron.state) : MainWindow.state :=
  MainWindow.set_time_since_last_plot
    (MainWindow.time_since_last_plot s + MainWindow.dt s)
    (MainWindow.set_time_ms (MainWindow.time_ms s + MainWindow.dt s)
       (MainWindow.set_neuron x (MainWindow.set_stim st' s))).

(** ... and the state after it has recorded the measured voltage [q]. *)
Definition sampled (s : MainWindow.state) (q : R) : MainWindow.state :=
  MainWindow.record_sample
    (MainWindow.set_time_since_last_plot
       (MainWindow.time_since_last_plot s - MainWindow.plot_dt_ms s) s)
    (MainWindow.time_ms s / 1000) q.

(** The samples on record are within the ranges of what they measure. *)
Definition samples_in_range (s : MainWindow.state) : Prop :=
  let lo := fst (DAQ.voltage_range (MainWindow.daq s)) in
  let hi := snd (DAQ.voltage_range (MainWindow.daq s)) in
  Forall (fun x => 0 <= x <= 1) (MainWindow.meta_atp s) /\
  Forall (fun x => 0 <= x) (MainWindow.meta_ca s) /\
  Forall (fun x => 0 <= x <= 100) (MainWindow.meta_mito s) /\
  Forall (fun x => 0 <= x <= 100) (MainWindow.meta_integrity s) /\
  Forall (fun x => 0 <= x <= 100) (MainWindow.meta_damage s) /\
  Forall (fun x => lo <= x <= hi) (MainWindow.items (MainWindow.v_data s)) /\
  Forall (fun x => lo <= x <= hi) (MainWindow.items (MainWindow.v_full s)).

(** What a tick needs of the orchestrator and keeps: a channel with a
    non-empty range and a non-negative bit depth, a neuron within its
    ranges, parallel histories within their capacities. *)
Definition tick_invariant (s : MainWindow.state) : Prop :=
  fst (DAQ.voltage_range (MainWindow.daq s))
    < snd (DAQ.voltage_range (MainWindow.daq s)) /\
  (0 <= DAQ.adc_bits (MainWindow.daq s))%Z /\
  bounded (MainWindow.neuron s) /\
  histories_parallel s /\
  within_capacity (MainWindow.t_data s) /\
  within_capacity (MainWindow.t_full s) /\
  samples_in_range s.

(** The sampling clock is within one sampling period. *)
Definition sampling_clock_ok (s : MainWindow.state) : Prop :=
  0 < MainWindow.dt s <= MainWindow.plot_dt_ms s /\
  0 <= MainWindow.time_since_last_plot s < MainWindow.plot_dt_ms s.

(** The condition on which [update_event_logs] raises a warning. *)
Definition alarm (msg : MainWindow.notification) (s : MainWindow.state)
  : Prop :=
  match msg with
  | MainWindow.AtpLow => Neuron.ATP (MainWindow.neuron s) < 0.3
  | MainWindow.CaHigh => 1 < Neuron.Ca (MainWindow.neuron s)
  | MainWindow.MitoStress => Neuron.mito (MainWindow.neuron s) < 80
  | MainWindow.IntegrityLow => Neuron.integrity (MainWindow.neuron s) < 60
  | MainWindow.DamageHigh => 20 < Neuron.damage (MainWindow.neuron s)
  | MainWindow.Cascade =>
      Neuron.ATP (MainWindow.neuron s) < 0.2 /\
      0.5 < Neuron.Ca (MainWindow.neuron s) /\
      Stimulator.mode (MainWindow.stim s) <> "OFF"%string
  | _ => False
  end.

(** Between [s] and a later state the latch fired on the condition [A]:
    its message was logged exactly if [A] held with the flag clear, and the
    flag is set afterwards exactly if it was set or [A] held. *)
Definition latch_fires (flag : Neuron.state -> bool)
  (msg : MainWindow.notification) (A : Prop) (s s' : MainWindow.state)
  : Prop :=
  exists entries,
    MainWindow.log_widget s' = MainWindow.log_widget s ++ entries /\
    (logged msg entries <-> A /\ flag (MainWindow.neuron s) = false) /\
    (flag (MainWindow.neuron s') = true
     <-> flag (MainWindow.neuron s) = true \/ A).

(** The PULSE protocol of the claim: frequency 10, pulse width 5,
    amplitude 20, started at [start]. *)
Definition pulse_train (start : Binary64.float) : Binary64.Stimulator.state :=
  Binary64.Stimulator.mk "PULSE" (Binary64.of_Z 20) (Binary64.of_Z 500)
    (Binary64.of_Z 10) (Binary64.of_Z 5) start false (Binary64.of_Z 0)
    (Binary64.of_Z 5).

(** What [__init__] fixes and no line of the program assigns again: the
    step, the tick interval and the acquisition channel. *)
Definition as_constructed (s : MainWindow.state) : Prop :=
  MainWindow.dt s = 0.025 /\
  MainWindow.timer_interval s = 20%Z /\
  MainWindow.daq s = DAQ.init.

(** The calls of [Neuron.step] of a tick, made again in their order on the
    neuron [x]; call number [i] draws [fst (draws i)]. *)
Fixpoint replay (calls : list MainWindow.update) (i : nat)
  (draws : nat -> R * R) (x : Neuron.state) : result Neuron.state :=
  match calls with
  | [] => Ok x
  | c :: rest =>
      nv <- Neuron.step x (MainWindow.with_dt c) (MainWindow.with_i_stim c)
              false (fst (draws i)) ;;
      replay rest (S i) draws (fst nv)
  end.

(** The simulated time after [n] times [time_ms += dt]. *)
Definition after_updates (n : nat) (dt t : R) : R :=
  Nat.iter n (fun u => u + dt) t.

(** * Properties *)

(** ** Arithmetic helpers *)

Lemma clamp_bounds (lo hi x : R) :
  lo <= hi -> lo <= Rmax lo (Rmin hi x) <= hi.
Proof.
  intros Hle. unfold Rmax, Rmin.
  destruct (Rle_dec hi x); destruct (Rle_dec lo _); lra.
Qed.

Lemma clamp_id (lo hi x : R) :
  lo <= x <= hi -> Rmax lo (Rmin hi x) = x.
Proof.
  intros Hx. unfold Rmax, Rmin.
  destruct (Rle_dec hi x); destruct (Rle_dec lo _); lra.
Qed.

Lemma clamp_mono (lo hi x y : R) :
  x <= y -> Rmax lo (Rmin hi x) <= Rmax lo (Rmin hi y).
Proof.
  intros Hxy. unfold Rmax, Rmin.
  repeat destruct (Rle_dec _ _); lra.
Qed.

Lemma ltb_true (a b : R) : ltb a b = true <-> a < b.
Proof. unfold ltb. destruct (Rlt_dec a b); split; intros; try easy. Qed.

Lemma ltb_false (a b : R) : ltb a b = false <-> b <= a.
Proof.
  unfold ltb. destruct (Rlt_dec a b); split; intros; try easy; lra.
Qed.

Lemma leb_true (a b : R) : leb a b = true <-> a <= b.
Proof. unfold leb. destruct (Rle_dec a b); split; intros; try easy. Qed.

Lemma leb_false (a b : R) : leb a b = false <-> b < a.
Proof.
  unfold leb. destruct (Rle_dec a b); split; intros; try easy; lra.
Qed.

Lemma neqb_true (a b : R) : neqb a b = true <-> a <> b.
Proof. unfold neqb. destruct (Req_dec_T a b); split; intros; easy. Qed.

Lemma neqb_false (a b : R) : neqb a b = false <-> a = b.
Proof.
  unfold neqb. destruct (Req_dec_T a b); split; intros; try easy.
Qed.

Lemma py_div_ok (a b : R) : b <> 0 -> py_div a b = Ok (a / b).
Proof. intros Hb. unfold py_div. destruct (Req_dec_T b 0); easy. Qed.

Lemma exp_eq_1 (x : R) : exp x = 1 -> x = 0.
Proof.
  intros Hx. destruct (Req_dec_T x 0) as [|Hne]; [assumption|].
  destruct (Rdichotomy _ _ Hne) as [Hneg|Hpos].
  - assert (exp x < exp 0) by (apply exp_increasing; assumption).
    rewrite exp_0 in *. lra.
  - assert (exp 0 < exp x) by (apply exp_increasing; assumption).
    rewrite exp_0 in *. lra.
Qed.

(** ** The rate functions never divide by zero *)

Lemma rate_denominator (x : R) : x <> 0 -> 1 - exp (- x / 10) <> 0.
Proof.
  intros Hx Hd.
  assert (He : exp (- x / 10) = 1) by lra.
  apply exp_eq_1 in He. lra.
Qed.

Lemma alpha_m_value (u : R) : Neuron._alpha_m u = Ok (alpha_m_of u).
Proof.
  unfold Neuron._alpha_m, alpha_m_of.
  destruct (neqb u (-40)) eqn:E; [|reflexivity].
  apply py_div_ok, rate_denominator. apply neqb_true in E. lra.
Qed.

Lemma alpha_n_value (u : R) : Neuron._alpha_n u = Ok (alpha_n_of u).
Proof.
  unfold Neuron._alpha_n, alpha_n_of.
  destruct (neqb u (-55)) eqn:E; [|reflexivity].
  apply py_div_ok, rate_denominator. apply neqb_true in E. lra.
Qed.

Lemma beta_h_value (u : R) : Neuron._beta_h u = Ok (beta_h_of u).
Proof.
  unfold Neuron._beta_h, beta_h_of. apply py_div_ok.
  pose proof (exp_pos (- (u + 35) / 10)). lra.
Qed.
(** ** The shape of [step] *)

Lemma step_dead (s : Neuron.state) (dt_ms i_ext : R) (k : bool) (g : R) :
  Neuron.dead (entered s dt_ms k) = true ->
  Neuron.step s dt_ms i_ext k g =
  let s1 := entered s dt_ms k in
  let u := Neuron.v s1 + (0 - Neuron.v s1) * (dt_ms / 1000) * 0.2 + g in
  Ok (Neuron.set_v u s1, u).
Proof.
  intros Hd. unfold Neuron.step. fold (entered s dt_ms k).
  rewrite Hd. reflexivity.
Qed.

Lemma step_alive (s : Neuron.state) (dt_ms i_ext : R) (k : bool) (g : R) :
  Neuron.dead (entered s dt_ms k) = false ->
  Neuron.step s dt_ms i_ext k g =
  let s1 := entered s dt_ms k in
  let s3 := after_atp s1 dt_ms i_ext in
  if leb (Neuron.ATP s3) 0.001 then
    let s4 := Neuron.set_prev_v (Neuron.v s1) (Neuron.kill s3) in
    Ok (s4, Neuron.v s4)
  else
    let s5 := after_damage s1 dt_ms i_ext in
    if leb (Neuron.health s5) 0 then
      let s6 := Neuron.set_prev_v (Neuron.v s1) (Neuron.kill s5) in
      Ok (s6, Neuron.v s6)
    else
      let s6 := Neuron.set_prev_v (Neuron.v s1) s5 in
      Ok (s6, Neuron.v s6).
Proof.
  intros Hd. unfold Neuron.step. fold (entered s dt_ms k).
  rewrite Hd. rewrite alpha_m_value, beta_h_value, alpha_n_value.
  cbv beta iota zeta delta [bind after_damage after_atp after_membrane].
  reflexivity.
Qed.

Lemma step_total (s : Neuron.state) (dt_ms i_ext : R) (k : bool) (g : R) :
  exists s' r, Neuron.step s dt_ms i_ext k g = Ok (s', r).
Proof.
  destruct (Neuron.dead (entered s dt_ms k)) eqn:Hd.
  - rewrite step_dead by assumption. cbv zeta. eauto.
  - rewrite step_alive by assumption. cbv zeta.
    destruct (leb _ _); [eauto|]. destruct (leb _ _); eauto.
Qed.

(** ** What each section of [step] changes *)

Lemma kill_dead (s : Neuron.state) :
  Neuron.dead s = true -> Neuron.kill s = s.
Proof. intros Hd. unfold Neuron.kill. rewrite Hd. reflexivity. Qed.

Lemma kill_alive (s : Neuron.state) :
  Neuron.dead s = false ->
  Neuron.kill s =
  Neuron.mk (Neuron.q10 s) 0 (Neuron.prev_v s) (Neuron.m s) (Neuron.h s)
    (Neuron.n s) (Neuron.w s) 0 0 10 0 100 0 true (Neuron.flag_atp_low s)
    (Neuron.flag_ca_high s) (Neuron.flag_mito_stress s)
    (Neuron.flag_integrity_low s) (Neuron.flag_damage_high s)
    (Neuron.flag_cascade s).
Proof. intros Hd. unfold Neuron.kill. rewrite Hd. reflexivity. Qed.

Lemma kill_is_dead (s : Neuron.state) : Neuron.dead (Neuron.kill s) = true.
Proof.
  destruct (Neuron.dead s) eqn:Hd.
  - rewrite kill_dead; assumption.
  - rewrite kill_alive by assumption. reflexivity.
Qed.

Lemma kill_gates (s : Neuron.state) :
  Neuron.m (Neuron.kill s) = Neuron.m s /\
  Neuron.h (Neuron.kill s) = Neuron.h s /\
  Neuron.n (Neuron.kill s) = Neuron.n s.
Proof.
  destruct (Neuron.dead s) eqn:Hd.
  - rewrite kill_dead by assumption. auto.
  - rewrite kill_alive by assumption. auto.
Qed.

Lemma kill_bounded (s : Neuron.state) :
  0 <= Neuron.m s <= 1 -> 0 <= Neuron.h s <= 1 -> 0 <= Neuron.n s <= 1 ->
  Neuron.dead s = false -> bounded (Neuron.kill s).
Proof.
  intros Hm Hh Hn Hd. rewrite kill_alive by assumption.
  unfold bounded; simpl. repeat split; try tauto; lra.
Qed.

Lemma kill_preserves_bounded (s : Neuron.state) :
  bounded s -> bounded (Neuron.kill s).
Proof.
  intros Hb. destruct (Neuron.dead s) eqn:Hd.
  - rewrite kill_dead; assumption.
  - apply kill_bounded; try assumption; apply Hb.
Qed.

Lemma reset_bounded (s : Neuron.state) : bounded (Neuron.reset s).
Proof. unfold bounded; simpl. lra. Qed.

Lemma membrane_fields (s : Neuron.state) (u am bm ah bh an bn dt i : R) :
  let s' := Neuron.membrane s u am bm ah bh an bn dt i in
  (0 <= Neuron.m s' <= 1 /\ 0 <= Neuron.h s' <= 1 /\ 0 <= Neuron.n s' <= 1) /\
  Neuron.ATP s' = Neuron.ATP s /\ Neuron.mito s' = Neuron.mito s /\
  Neuron.Ca s' = Neuron.Ca s /\ Neuron.integrity s' = Neuron.integrity s /\
  Neuron.damage s' = Neuron.damage s /\ Neuron.dead s' = Neuron.dead s /\
  Neuron.prev_v s' = Neuron.prev_v s.
Proof.
  unfold Neuron.membrane; simpl.
  repeat split; try apply clamp_bounds; lra.
Qed.

Lemma calcium_fields (s : Neuron.state) (dt_sec : R) :
  let s' := Neuron.calcium s dt_sec in
  0 <= Neuron.Ca s' /\
  Neuron.m s' = Neuron.m s /\ Neuron.h s' = Neuron.h s /\
  Neuron.n s' = Neuron.n s /\ Neuron.v s' = Neuron.v s /\
  Neuron.ATP s' = Neuron.ATP s /\ Neuron.mito s' = Neuron.mito s /\
  Neuron.integrity s' = Neuron.integrity s /\
  Neuron.damage s' = Neuron.damage s /\ Neuron.dead s' = Neuron.dead s.
Proof.
  unfold Neuron.calcium.
  destruct (ltb (Neuron.prev_v s) 0 && leb 0 (Neuron.v s)); simpl;
    match goal with |- context [ltb ?a 0] => destruct (ltb a 0) eqn:E end;
    simpl; repeat split; try reflexivity;
    try lra; apply ltb_false in E; exact E.
Qed.

Lemma atp_fields (s : Neuron.state) (dt_sec i : R) :
  let s' := Neuron.atp s dt_sec i in
  0 <= Neuron.ATP s' <= 1 /\
  Neuron.m s' = Neuron.m s /\ Neuron.h s' = Neuron.h s /\
  Neuron.n s' = Neuron.n s /\ Neuron.v s' = Neuron.v s /\
  Neuron.Ca s' = Neuron.Ca s /\ Neuron.mito s' = Neuron.mito s /\
  Neuron.integrity s' = Neuron.integrity s /\
  Neuron.damage s' = Neuron.damage s /\ Neuron.dead s' = Neuron.dead s.
Proof.
  unfold Neuron.atp; simpl.
  repeat split; try apply clamp_bounds; lra.
Qed.

Lemma mitochondria_fields (s : Neuron.state) (dt_sec i : R) :
  let s' := Neuron.mitochondria s dt_sec i in
  0 <= Neuron.mito s' <= 100 /\
  Neuron.m s' = Neuron.m s /\ Neuron.h s' = Neuron.h s /\
  Neuron.n s' = Neuron.n s /\ Neuron.v s' = Neuron.v s /\
  Neuron.Ca s' = Neuron.Ca s /\ Neuron.ATP s' = Neuron.ATP s /\
  Neuron.integrity s' = Neuron.integrity s /\
  Neuron.damage s' = Neuron.damage s /\ Neuron.dead s' = Neuron.dead s.
Proof.
  unfold Neuron.mitochondria; simpl.
  repeat split; try apply clamp_bounds; lra.
Qed.

Lemma damage_health_fields (s : Neuron.state) (dt_sec : R) :
  let s' := Neuron.damage_health s dt_sec in
  0 <= Neuron.integrity s' <= 100 /\ 0 <= Neuron.damage s' <= 100 /\
  Neuron.m s' = Neuron.m s /\ Neuron.h s' = Neuron.h s /\
  Neuron.n s' = Neuron.n s /\ Neuron.v s' = Neuron.v s /\
  Neuron.Ca s' = Neuron.Ca s /\ Neuron.ATP s' = Neuron.ATP s /\
  Neuron.mito s' = Neuron.mito s /\ Neuron.dead s' = Neuron.dead s.
Proof.
  unfold Neuron.damage_health.
  destruct (ltb (Neuron.stress s) 0.6); destruct (ltb 1 (Neuron.stress s));
    simpl; repeat split; try apply clamp_bounds; lra.
Qed.

Lemma Ok_pair_inj {A B : Type} (a a' : A) (b b' : B) :
  Ok (a, b) = Ok (a', b') -> a = a' /\ b = b'.
Proof. intros H. injection H as -> ->. split; reflexivity. Qed.

(** Splits every conjunction among the hypotheses. *)
Ltac break_and :=
  repeat match goal with
         | H : _ /\ _ |- _ => destruct H
         end.

Lemma after_atp_fields (s : Neuron.state) (dt_ms i : R) :
  let s' := after_atp s dt_ms i in
  (0 <= Neuron.m s' <= 1 /\ 0 <= Neuron.h s' <= 1 /\ 0 <= Neuron.n s' <= 1) /\
  0 <= Neuron.ATP s' <= 1 /\ 0 <= Neuron.Ca s' /\
  Neuron.v s' = Neuron.v (after_membrane s dt_ms i) /\
  Neuron.mito s' = Neuron.mito s /\
  Neuron.integrity s' = Neuron.integrity s /\
  Neuron.damage s' = Neuron.damage s /\ Neuron.dead s' = Neuron.dead s.
Proof.
  unfold after_atp, after_membrane.
  set (u := Neuron.v s).
  pose proof (membrane_fields s u (alpha_m_of u) (Neuron._beta_m u)
    (Neuron._alpha_h u) (beta_h_of u) (alpha_n_of u) (Neuron._beta_n u)
    dt_ms i) as Hm.
  set (s1 := Neuron.membrane _ _ _ _ _ _ _ _ _ _) in *.
  pose proof (calcium_fields s1 (dt_ms / 1000)) as Hc.
  set (s2 := Neuron.calcium _ _) in *.
  pose proof (atp_fields s2 (dt_ms / 1000) i) as Ha.
  set (s3 := Neuron.atp _ _ _) in *.
  cbv zeta in *.
  destruct Hm as (Hg & Hm1 & Hm2 & Hm3 & Hm4 & Hm5 & Hm6 & Hm7).
  destruct Hc as (Hc0 & Hc1 & Hc2 & Hc3 & Hc4 & Hc5 & Hc6 & Hc7 & Hc8 & Hc9).
  destruct Ha as (Ha0 & Ha1 & Ha2 & Ha3 & Ha4 & Ha5 & Ha6 & Ha7 & Ha8 & Ha9).
  rewrite Ha1, Ha2, Ha3, Ha4, Ha5, Ha6, Ha7, Ha8, Ha9.
  rewrite Hc1, Hc2, Hc3, Hc4, Hc6, Hc7, Hc8, Hc9.
  rewrite Hm2, Hm4, Hm5, Hm6.
  break_and. repeat split; try reflexivity; assumption.
Qed.

Lemma after_damage_fields (s : Neuron.state) (dt_ms i : R) :
  let s' := after_damage s dt_ms i in
  (0 <= Neuron.m s' <= 1 /\ 0 <= Neuron.h s' <= 1 /\ 0 <= Neuron.n s' <= 1) /\
  0 <= Neuron.ATP s' <= 1 /\ 0 <= Neuron.Ca s' /\
  0 <= Neuron.mito s' <= 100 /\ 0 <= Neuron.integrity s' <= 100 /\
  0 <= Neuron.damage s' <= 100 /\ Neuron.dead s' = Neuron.dead s.
Proof.
  unfold after_damage.
  pose proof (after_atp_fields s dt_ms i) as Ha.
  set (s3 := after_atp s dt_ms i) in *.
  pose proof (mitochondria_fields s3 (dt_ms / 1000) i) as Hm.
  set (s4 := Neuron.mitochondria _ _ _) in *.
  pose proof (damage_health_fields s4 (dt_ms / 1000)) as Hd.
  set (s5 := Neuron.damage_health _ _) in *.
  cbv zeta in *.
  destruct Ha as (Hg & Ha1 & Ha2 & Ha3 & Ha4 & Ha5 & Ha6 & Ha7).
  destruct Hm as (Hm0 & Hm1 & Hm2 & Hm3 & Hm4 & Hm5 & Hm6 & Hm7 & Hm8 & Hm9).
  destruct Hd as (Hd0 & Hd1 & Hd2 & Hd3 & Hd4 & Hd5 & Hd6 & Hd7 & Hd8 & Hd9).
  rewrite Hd2, Hd3, Hd4, Hd6, Hd7, Hd8, Hd9.
  rewrite Hm1, Hm2, Hm3, Hm5, Hm6, Hm9.
  break_and. repeat split; assumption.
Qed.

Lemma after_damage_bounded (s : Neuron.state) (dt_ms i : R) :
  bounded (after_damage s dt_ms i).
Proof.
  pose proof (after_damage_fields s dt_ms i) as H. cbv zeta in H.
  unfold bounded. break_and. repeat split; assumption.
Qed.

Lemma bounded_set_v (s : Neuron.state) (x : R) :
  bounded s -> bounded (Neuron.set_v x s).
Proof. intros H. exact H. Qed.

Lemma bounded_set_prev_v (s : Neuron.state) (x : R) :
  bounded s -> bounded (Neuron.set_prev_v x s).
Proof. intros H. exact H. Qed.

Lemma forced_collapse_dead_bounded (s : Neuron.state) (dt_sec : R) :
  0 <= Neuron.m s <= 1 -> 0 <= Neuron.h s <= 1 -> 0 <= Neuron.n s <= 1 ->
  Neuron.dead s = false ->
  Neuron.dead (Neuron.forced_collapse s dt_sec) = true ->
  bounded (Neuron.forced_collapse s dt_sec).
Proof.
  intros Hm Hh Hn Hd. unfold Neuron.forced_collapse.
  match goal with |- context [if ?c then _ else _] => destruct c end.
  - intros _. apply kill_bounded; simpl; assumption.
  - simpl. congruence.
Qed.

Lemma entered_dead_bounded (s : Neuron.state) (dt_ms : R) (k : bool) :
  bounded s -> Neuron.dead (entered s dt_ms k) = true ->
  bounded (entered s dt_ms k).
Proof.
  intros Hb. unfold entered.
  destruct (k && negb (Neuron.dead s)) eqn:E; [|intros _; assumption].
  apply andb_true_iff in E. destruct E as [_ E].
  apply negb_true_iff in E.
  apply forced_collapse_dead_bounded; try assumption; apply Hb.
Qed.


Lemma after_atp_dead (s : Neuron.state) (dt_ms i : R) :
  Neuron.dead (after_atp s dt_ms i) = Neuron.dead s.
Proof. apply (after_atp_fields s dt_ms i). Qed.

Lemma after_damage_dead (s : Neuron.state) (dt_ms i : R) :
  Neuron.dead (after_damage s dt_ms i) = Neuron.dead s.
Proof. apply (after_damage_fields s dt_ms i). Qed.

(** [step] keeps every field in its range. *)
Lemma step_bounded (s s' : Neuron.state) (dt_ms i_ext r : R) (k : bool)
  (g : R) :
  bounded s -> Neuron.step s dt_ms i_ext k g = Ok (s', r) -> bounded s'.
Proof.
  intros Hb. destruct (Neuron.dead (entered s dt_ms k)) eqn:Hd.
  - rewrite step_dead by assumption. cbv zeta. intros H.
    apply Ok_pair_inj in H. destruct H as [<- _]. apply bounded_set_v, entered_dead_bounded; assumption.
  - rewrite step_alive by assumption. cbv zeta.
    set (s1 := entered s dt_ms k) in *. clear Hb.
    destruct (leb (Neuron.ATP (after_atp s1 dt_ms i_ext)) 0.001).
    + intros H. apply Ok_pair_inj in H. destruct H as [<- _]. apply bounded_set_prev_v.
      apply kill_bounded; try apply (after_atp_fields s1 dt_ms i_ext).
      rewrite after_atp_dead. exact Hd.
    + destruct (leb (Neuron.health (after_damage s1 dt_ms i_ext)) 0);
        intros H; apply Ok_pair_inj in H; destruct H as [<- _]; apply bounded_set_prev_v.
      * apply kill_bounded; try apply (after_damage_fields s1 dt_ms i_ext).
        rewrite after_damage_dead. exact Hd.
      * apply after_damage_bounded.
Qed.

Lemma init_bounded : bounded Neuron.init.
Proof. apply reset_bounded. Qed.

Lemma reachable_bounded (s : Neuron.state) : reachable s -> bounded s.
Proof.
  induction 1.
  - apply init_bounded.
  - apply reset_bounded.
  - apply kill_preserves_bounded; assumption.
  - eapply step_bounded; eassumption.
Qed.

(** ** Invariants of the neuron (C1) *)

(** C1.  For every neuron state reachable by any sequence of
    [reset]/[step]/[kill] calls and every [step(dtMs, iExt)] call with
    [dtMs > 0], the call returns and, after it, each gating variable [m],
    [h], [n] lies in [0,1], [ATP] lies in [0,1], [mito], [integrity] and
    [damage] each lie in [0,100], and [Ca >= 0]. *)
Theorem C1_step_keeps_ranges (s : Neuron.state) (dt_ms i_ext : R)
  (kill_mode : bool) (gauss : R) :
  reachable s ->
  0 < dt_ms ->
  exists s' r,
    Neuron.step s dt_ms i_ext kill_mode gauss = Ok (s', r) /\
    (0 <= Neuron.m s' <= 1 /\ 0 <= Neuron.h s' <= 1 /\
     0 <= Neuron.n s' <= 1 /\ 0 <= Neuron.ATP s' <= 1 /\
     0 <= Neuron.mito s' <= 100 /\ 0 <= Neuron.integrity s' <= 100 /\
     0 <= Neuron.damage s' <= 100 /\ 0 <= Neuron.Ca s').
Proof.
  intros Hr _.
  destruct (step_total s dt_ms i_ext kill_mode gauss) as (s' & r & Hs).
  exists s', r. split; [exact Hs|].
  change (bounded s').
  eapply step_bounded; [apply reachable_bounded; exact Hr | exact Hs].
Qed.

Lemma C1_step_keeps_ranges_witness :
  reachable Neuron.init /\ 0 < 0.025 /\
  exists s' r,
    Neuron.step Neuron.init 0.025 10 false 0 = Ok (s', r) /\
    (0 <= Neuron.m s' <= 1 /\ 0 <= Neuron.h s' <= 1 /\
     0 <= Neuron.n s' <= 1 /\ 0 <= Neuron.ATP s' <= 1 /\
     0 <= Neuron.mito s' <= 100 /\ 0 <= Neuron.integrity s' <= 100 /\
     0 <= Neuron.damage s' <= 100 /\ 0 <= Neuron.Ca s').
Proof.
  split; [apply reachable_init|].
  split; [lra|].
  apply C1_step_keeps_ranges; [apply reachable_init | lra].
Defined.

(** ** [kill] (C3) *)

(** C3.  [kill()] is idempotent: calling it twice yields the same state as
    calling it once; on a state with [dead = false] it sets [v = 0],
    [integrity = 0], [damage = 100], [health = 0], [ATP = 0], [mito = 0],
    [Ca = 10] and [dead = true]; on a state with [dead = true] it changes
    nothing. *)
Theorem C3_kill_idempotent (s : Neuron.state) :
  Neuron.kill (Neuron.kill s) = Neuron.kill s /\
  (Neuron.dead s = false ->
   Neuron.v (Neuron.kill s) = 0 /\
   Neuron.integrity (Neuron.kill s) = 0 /\
   Neuron.damage (Neuron.kill s) = 100 /\
   Neuron.health (Neuron.kill s) = 0 /\
   Neuron.ATP (Neuron.kill s) = 0 /\
   Neuron.mito (Neuron.kill s) = 0 /\
   Neuron.Ca (Neuron.kill s) = 10 /\
   Neuron.dead (Neuron.kill s) = true) /\
  (Neuron.dead s = true -> Neuron.kill s = s).
Proof.
  split; [|split].
  - apply kill_dead, kill_is_dead.
  - intros Hd. rewrite kill_alive by exact Hd. simpl.
    repeat split; reflexivity.
  - apply kill_dead.
Qed.

Lemma C3_kill_idempotent_witness :
  (Neuron.dead Neuron.init = false /\
   Neuron.damage (Neuron.kill Neuron.init) = 100 /\
   Neuron.Ca (Neuron.kill Neuron.init) = 10) /\
  (Neuron.dead (Neuron.kill Neuron.init) = true /\
   Neuron.kill (Neuron.kill Neuron.init) = Neuron.kill Neuron.init).
Proof.
  split.
  - split; [reflexivity|].
    destruct (C3_kill_idempotent Neuron.init) as (_ & Halive & _).
    destruct (Halive eq_refl) as (_ & _ & Hdmg & _ & _ & _ & Hca & _).
    split; [exact Hdmg | exact Hca].
  - split; [reflexivity|].
    destruct (C3_kill_idempotent (Neuron.kill Neuron.init)) as (_ & _ & Hdead).
    apply Hdead. reflexivity.
Defined.

(** ** The dead state (C4) *)

Lemma set_v_set_v (a b : R) (s : Neuron.state) :
  Neuron.set_v a (Neuron.set_v b s) = Neuron.set_v a s.
Proof. unfold Neuron.set_v. simpl. reflexivity. Qed.

Lemma set_v_self (s : Neuron.state) : Neuron.set_v (Neuron.v s) s = s.
Proof. destruct s. unfold Neuron.set_v. simpl. reflexivity. Qed.

Lemma entered_dead (s : Neuron.state) (dt_ms : R) (k : bool) :
  Neuron.dead s = true -> entered s dt_ms k = s.
Proof.
  intros Hd. unfold entered. rewrite Hd.
  rewrite andb_false_r. reflexivity.
Qed.

Lemma entered_off (s : Neuron.state) (dt_ms : R) : entered s dt_ms false = s.
Proof. reflexivity. Qed.

Lemma step_of_dead (s : Neuron.state) (dt_ms i_ext : R) (k : bool) (g : R) :
  Neuron.dead s = true ->
  Neuron.step s dt_ms i_ext k g =
  Ok (Neuron.set_v (Neuron.v s + (0 - Neuron.v s) * (dt_ms / 1000) * 0.2 + g) s,
      Neuron.v s + (0 - Neuron.v s) * (dt_ms / 1000) * 0.2 + g).
Proof.
  intros Hd. rewrite step_dead; rewrite entered_dead by exact Hd.
  - reflexivity.
  - exact Hd.
Qed.

Lemma run_steps_of_dead (calls : list call) :
  Forall is_step calls ->
  forall s, Neuron.dead s = true ->
  exists s' before,
    run s calls = Ok (s', before) /\
    Neuron.dead s' = true /\
    Neuron.set_v (Neuron.v s) s' = s.
Proof.
  induction 1 as [|c calls Hc _ IH]; intros s Hd.
  - exists s, []. repeat split; [exact Hd | apply set_v_self].
  - destruct c as [dt_ms i_ext k g| |]; try contradiction.
    set (u := Neuron.v s + (0 - Neuron.v s) * (dt_ms / 1000) * 0.2 + g).
    destruct (IH (Neuron.set_v u s)) as (s' & before & Hrun & Hd' & Hsame).
    { exact Hd. }
    exists s', (s :: before). split; [|split].
    + cbn [run do_call]. rewrite step_of_dead by exact Hd. fold u.
      cbn [bind fst]. rewrite Hrun. reflexivity.
    + exact Hd'.
    + change (Neuron.v (Neuron.set_v u s)) with u in Hsame.
      rewrite <- (set_v_set_v (Neuron.v s) u s'), Hsame.
      rewrite set_v_set_v. apply set_v_self.
Qed.

(** C4.  The dead state is absorbing under [step]: on a state with
    [dead = true] a [step] call changes only the field [v], which relaxes
    toward 0 at rate 0.2 per second and receives the drawn jitter; no
    sequence of further [step] calls sets [dead = false]; [reset] does. *)
Theorem C4_dead_is_absorbing (s : Neuron.state) :
  Neuron.dead s = true ->
  (forall dt_ms i_ext kill_mode gauss,
     let u := Neuron.v s + (0 - Neuron.v s) * (dt_ms / 1000) * 0.2 + gauss in
     Neuron.step s dt_ms i_ext kill_mode gauss = Ok (Neuron.set_v u s, u)) /\
  (forall calls, Forall is_step calls ->
     exists s' before,
       run s calls = Ok (s', before) /\
       Neuron.dead s' = true /\
       Neuron.set_v (Neuron.v s) s' = s) /\
  Neuron.dead (Neuron.reset s) = false.
Proof.
  intros Hd. split; [|split].
  - intros dt_ms i_ext k g. cbv zeta. apply step_of_dead. exact Hd.
  - intros calls Hc. apply run_steps_of_dead; assumption.
  - reflexivity.
Qed.

Lemma C4_dead_is_absorbing_witness :
  Neuron.dead (Neuron.kill Neuron.init) = true /\
  (exists s' before,
     run (Neuron.kill Neuron.init) [Step 0.025 10 false 0.1; Step 0.025 0 true 0]
       = Ok (s', before) /\
     Neuron.dead s' = true /\
     Neuron.set_v (Neuron.v (Neuron.kill Neuron.init)) s'
       = Neuron.kill Neuron.init).
Proof.
  split; [reflexivity|].
  destruct (C4_dead_is_absorbing (Neuron.kill Neuron.init) eq_refl)
    as (_ & Hrun & _).
  apply Hrun. repeat constructor.
Defined.

(** ** Damage only grows (C5) *)

Lemma kill_damage_ge (s : Neuron.state) (d : R) :
  d <= Neuron.damage s -> Neuron.damage s <= 100 ->
  d <= Neuron.damage (Neuron.kill s).
Proof.
  intros Hd Hle. destruct (Neuron.dead s) eqn:E.
  - rewrite kill_dead by exact E. exact Hd.
  - rewrite kill_alive by exact E. simpl. lra.
Qed.

Lemma forced_collapse_damage (s : Neuron.state) (dt_sec : R) :
  0 <= dt_sec -> Neuron.dead s = false -> Neuron.damage s <= 100 ->
  Neuron.damage s <= Neuron.damage (Neuron.forced_collapse s dt_sec) <= 100.
Proof.
  intros Hdt Hd Hle. unfold Neuron.forced_collapse. cbv zeta.
  match goal with |- context [if ?c then _ else _] => destruct c eqn:E end.
  - rewrite kill_alive by exact Hd. simpl. lra.
  - apply orb_false_iff in E. destruct E as [E _].
    apply orb_false_iff in E. destruct E as [_ E].
    apply leb_false in E. simpl in *. lra.
Qed.

Lemma entered_damage (s : Neuron.state) (dt_ms : R) (k : bool) :
  0 < dt_ms -> Neuron.damage s <= 100 ->
  Neuron.damage s <= Neuron.damage (entered s dt_ms k) <= 100.
Proof.
  intros Hdt Hle. unfold entered.
  destruct (k && negb (Neuron.dead s)) eqn:E; [|lra].
  apply andb_true_iff in E. destruct E as [_ E]. apply negb_true_iff in E.
  apply forced_collapse_damage; try assumption. lra.
Qed.

Lemma damage_health_damage (s : Neuron.state) (dt_sec : R) :
  0 <= dt_sec -> 0 <= Neuron.damage s <= 100 ->
  Neuron.damage s <= Neuron.damage (Neuron.damage_health s dt_sec).
Proof.
  intros Hdt Hd. unfold Neuron.damage_health.
  destruct (ltb (Neuron.stress s) 0.6);
    destruct (ltb 1 (Neuron.stress s)) eqn:E; simpl.
  1, 3: apply ltb_true in E;
    rewrite <- (clamp_id 0 100 (Neuron.damage s)) at 1 by exact Hd;
    apply clamp_mono; nra.
  all: rewrite clamp_id by exact Hd; lra.
Qed.

Lemma after_damage_damage (s : Neuron.state) (dt_ms i : R) :
  0 < dt_ms -> 0 <= Neuron.damage s <= 100 ->
  Neuron.damage s <= Neuron.damage (after_damage s dt_ms i).
Proof.
  intros Hdt Hd. unfold after_damage.
  pose proof (after_atp_fields s dt_ms i) as Ha. cbv zeta in Ha.
  destruct Ha as (_ & _ & _ & _ & _ & _ & Ha & _).
  pose proof (mitochondria_fields (after_atp s dt_ms i) (dt_ms / 1000) i)
    as Hm. cbv zeta in Hm.
  destruct Hm as (_ & _ & _ & _ & _ & _ & _ & _ & Hm & _).
  rewrite <- Ha, <- Hm at 1.
  apply damage_health_damage; [lra|].
  rewrite Hm, Ha. exact Hd.
Qed.

(** [step] with a positive time step never lowers [damage]. *)
Lemma step_damage (s s' : Neuron.state) (dt_ms i_ext r : R) (k : bool)
  (g : R) :
  0 < dt_ms -> 0 <= Neuron.damage s <= 100 ->
  Neuron.step s dt_ms i_ext k g = Ok (s', r) ->
  Neuron.damage s <= Neuron.damage s'.
Proof.
  intros Hdt Hd.
  pose proof (entered_damage s dt_ms k Hdt (proj2 Hd)) as He.
  destruct (Neuron.dead (entered s dt_ms k)) eqn:Hdead.
  - rewrite step_dead by assumption. cbv zeta. intros H.
    apply Ok_pair_inj in H. destruct H as [<- _]. simpl. lra.
  - rewrite step_alive by assumption. cbv zeta.
    set (s1 := entered s dt_ms k) in *.
    destruct (leb (Neuron.ATP (after_atp s1 dt_ms i_ext)) 0.001).
    + intros H. apply Ok_pair_inj in H. destruct H as [<- _].
      rewrite kill_alive by (rewrite after_atp_dead; exact Hdead).
      simpl. lra.
    + assert (Hs5 : Neuron.damage s1
                    <= Neuron.damage (after_damage s1 dt_ms i_ext))
        by (apply after_damage_damage; [exact Hdt | lra]).
      destruct (leb (Neuron.health (after_damage s1 dt_ms i_ext)) 0);
        intros H; apply Ok_pair_inj in H; destruct H as [<- _].
      * rewrite kill_alive by (rewrite after_damage_dead; exact Hdead).
        simpl. lra.
      * change (Neuron.damage s
                <= Neuron.damage (after_damage s1 dt_ms i_ext)). lra.
Qed.

Lemma do_call_total (s : Neuron.state) (c : call) :
  exists s', do_call s c = Ok s'.
Proof.
  destruct c as [dt_ms i_ext k g| |]; cbn [do_call]; eauto.
  destruct (step_total s dt_ms i_ext k g) as (s' & r & ->).
  cbn [bind fst]. eauto.
Qed.

Lemma do_call_bounded (s s' : Neuron.state) (c : call) :
  bounded s -> do_call s c = Ok s' -> bounded s'.
Proof.
  intros Hb. destruct c as [dt_ms i_ext k g| |]; cbn [do_call].
  - destruct (step_total s dt_ms i_ext k g) as (s1 & r & Hs).
    rewrite Hs. cbn [bind fst]. intros H. injection H as <-.
    eapply step_bounded; eassumption.
  - intros H. injection H as <-. apply kill_preserves_bounded. exact Hb.
  - intros H. injection H as <-. apply reset_bounded.
Qed.

Lemma do_call_damage (s s' : Neuron.state) (c : call) :
  bounded s -> advances c -> do_call s c = Ok s' ->
  Neuron.damage s <= Neuron.damage s'.
Proof.
  intros Hb Hc.
  assert (Hd : 0 <= Neuron.damage s <= 100) by apply Hb.
  destruct c as [dt_ms i_ext k g| |]; cbn [do_call advances] in *.
  - destruct (step_total s dt_ms i_ext k g) as (s1 & r & Hs).
    rewrite Hs. cbn [bind fst]. intros H. injection H as <-.
    eapply step_damage; eassumption.
  - intros H. injection H as <-. apply kill_damage_ge; lra.
  - contradiction.
Qed.

Lemma run_damage_sorted (calls : list call) :
  Forall advances calls ->
  forall s, bounded s ->
  exists s' before,
    run s calls = Ok (s', before) /\
    bounded s' /\
    exists rest, before ++ [s'] = s :: rest /\
                 Sorted Rle (map Neuron.damage (s :: rest)).
Proof.
  induction 1 as [|c calls Hc _ IH]; intros s Hb.
  - exists s, []. split; [reflexivity|]. split; [exact Hb|].
    exists []. split; [reflexivity|]. repeat constructor.
  - destruct (do_call_total s c) as (s1 & Hs1).
    pose proof (do_call_bounded s s1 c Hb Hs1) as Hb1.
    pose proof (do_call_damage s s1 c Hb Hc Hs1) as Hd1.
    destruct (IH s1 Hb1) as (s' & before & Hrun & Hb' & rest & Heq & Hsorted).
    exists s', (s :: before). split; [|split; [exact Hb'|]].
    + cbn [run]. rewrite Hs1. cbn [bind]. rewrite Hrun. reflexivity.
    + exists (s1 :: rest). split.
      * cbn [app]. rewrite Heq. reflexivity.
      * cbn [map] in *. constructor; [exact Hsorted|].
        constructor. exact Hd1.
Qed.

(** C5.  For every sequence of [step(dtMs, iExt)] and [kill()] calls with
    [dtMs > 0] and no [reset()] in between, every call returns and [damage]
    never decreases: listing the states before each call and the final one,
    each [damage] is at most the next. *)
Theorem C5_damage_never_decreases (s : Neuron.state) (calls : list call) :
  reachable s ->
  Forall advances calls ->
  exists s' before,
    run s calls = Ok (s', before) /\
    Sorted Rle (map Neuron.damage (before ++ [s'])).
Proof.
  intros Hr Hc.
  destruct (run_damage_sorted calls Hc s (reachable_bounded s Hr))
    as (s' & before & Hrun & _ & rest & Heq & Hsorted).
  exists s', before. split; [exact Hrun|].
  rewrite Heq. exact Hsorted.
Qed.

Lemma C5_damage_never_decreases_witness :
  reachable Neuron.init /\
  Forall advances [Step 0.025 40 false 0; Kill; Step 0.025 0 false 0.3] /\
  exists s' before,
    run Neuron.init [Step 0.025 40 false 0; Kill; Step 0.025 0 false 0.3]
      = Ok (s', before) /\
    Sorted Rle (map Neuron.damage (before ++ [s'])).
Proof.
  assert (Hc : Forall advances
                 [Step 0.025 40 false 0; Kill; Step 0.025 0 false 0.3]).
  { repeat constructor; cbn [advances]; lra. }
  split; [apply reachable_init|]. split; [exact Hc|].
  apply C5_damage_never_decreases; [apply reachable_init | exact Hc].
Defined.

(** ** The early return on ATP failure (C2) *)

Ltac neuron_fields :=
  cbv beta iota zeta delta
    [Neuron.membrane Neuron.calcium Neuron.atp
     Neuron.set_v Neuron.set_prev_v Neuron.set_m Neuron.set_h Neuron.set_n
     Neuron.set_ATP Neuron.set_mito Neuron.set_Ca Neuron.set_integrity
     Neuron.set_damage Neuron.set_health Neuron.set_dead
     Neuron.init Neuron.reset
     Neuron.q10 Neuron.v Neuron.prev_v Neuron.m Neuron.h Neuron.n Neuron.w
     Neuron.ATP Neuron.mito Neuron.Ca Neuron.integrity Neuron.damage
     Neuron.health Neuron.dead Neuron.flag_atp_low Neuron.flag_ca_high
     Neuron.flag_mito_stress Neuron.flag_integrity_low
     Neuron.flag_damage_high Neuron.flag_cascade].

Lemma clamp_le (hi x c : R) :
  0 <= c -> x <= c -> 0 <= Rmax 0 (Rmin hi x) <= c.
Proof.
  intros Hc Hx. unfold Rmax, Rmin.
  destruct (Rle_dec hi x); destruct (Rle_dec 0 _); lra.
Qed.

(** At rest [alpha_m] is below 1: [exp 2.5 > 3.5]. *)
Lemma alpha_m_rest : 0 < alpha_m_of (-65) < 1.
Proof.
  unfold alpha_m_of.
  replace (neqb (-65) (-40)) with true
    by (symmetry; apply neqb_true; lra).
  replace (- (-65 + 40) / 10) with 2.5 by lra.
  assert (He : 1 + 2.5 < exp 2.5) by (apply exp_ineq1; lra).
  set (D := 1 - exp 2.5). assert (HD : D < -2.5) by (unfold D; lra).
  clearbody D. unfold Rdiv.
  assert (Hinv : D * / D = 1) by (apply Rinv_r; lra).
  assert (Hneg : / D < 0) by (apply Rinv_lt_0_compat; lra).
  assert (Hlow : -0.4 < / D) by nra.
  lra.
Qed.

Lemma beta_m_pos (u : R) : 0 < Neuron._beta_m u.
Proof.
  unfold Neuron._beta_m. pose proof (exp_pos (- (u + 65) / 18)). lra.
Qed.

(** The voltage of the voltage-update stage, for a resting neuron whose
    [ATP] is at the failure threshold and a current of 20: it is negative
    (about -64.3 mV). *)
Lemma threshold_membrane_voltage :
  Neuron.v (after_membrane (Neuron.set_ATP 0.001 Neuron.init) 0.025 20) < 0.
Proof.
  unfold after_membrane. neuron_fields.
  pose proof alpha_m_rest as Ham. pose proof (beta_m_pos (-65)) as Hbm.
  set (M := Rmax 0 (Rmin 1 (0.05 + _))).
  set (H := Rmax 0 (Rmin 1 (0.6 + _))).
  set (N := Rmax 0 (Rmin 1 (0.32 + _))).
  assert (HM : 0 <= M <= 0.062) by (apply clamp_le; nra).
  assert (HH : 0 <= H <= 1) by (apply clamp_bounds; lra).
  assert (HN : 0 <= N) by (apply clamp_bounds; lra).
  assert (HM3 : 0 <= M ^ 3 <= 0.00024).
  { split; [apply pow_le; lra|].
    apply Rle_trans with (0.062 ^ 3); [apply pow_incr; lra|].
    simpl. lra. }
  assert (HN4 : 0 <= N ^ 4) by (apply pow_le; lra).
  clearbody M H N.
  set (M3 := M ^ 3) in *. set (N4 := N ^ 4) in *. clearbody M3 N4.
  assert (HP : 0 <= M3 * H <= 0.00024) by nra.
  replace (120 * M3 * H * (-65 - 50)) with (120 * (M3 * H) * (-65 - 50))
    by ring.
  set (P := M3 * H) in *. clearbody P.
  lra.
Qed.

Lemma after_atp_ATP (s : Neuron.state) (dt_ms i : R) :
  Neuron.ATP (after_atp s dt_ms i) =
  Rmax 0 (Rmin 1
    (Neuron.ATP s +
     (0.008 * (Neuron.mito s / 100) - 0.0007 * Rabs i
      - 0.006 * Neuron.Ca (Neuron.calcium (after_membrane s dt_ms i)
                                          (dt_ms / 1000)))
     * (dt_ms / 1000))).
Proof.
  unfold after_atp.
  set (s2 := Neuron.calcium (after_membrane s dt_ms i) (dt_ms / 1000)).
  assert (Ha : Neuron.ATP s2 = Neuron.ATP s /\ Neuron.mito s2 = Neuron.mito s).
  { pose proof (calcium_fields (after_membrane s dt_ms i) (dt_ms / 1000))
      as Hc. cbv zeta in Hc. fold s2 in Hc.
    destruct Hc as (_ & _ & _ & _ & _ & Hc1 & Hc2 & _).
    unfold after_membrane in Hc1, Hc2.
    match type of Hc1 with
    | _ = Neuron.ATP (Neuron.membrane ?a ?b ?c ?d ?e ?f ?g ?h ?i ?j) =>
        pose proof (membrane_fields a b c d e f g h i j) as Hm
    end.
    cbv zeta in Hm. destruct Hm as (_ & Hm1 & Hm2 & _).
    rewrite Hc1, Hc2, Hm1, Hm2. split; reflexivity. }
  destruct Ha as [Ha1 Ha2]. rewrite <- Ha1, <- Ha2.
  clearbody s2. destruct s2. unfold Neuron.atp.
  cbv beta iota zeta delta [Neuron.set_ATP Neuron.ATP Neuron.mito Neuron.Ca].
  reflexivity.
Qed.

(** When the ATP update of an alive neuron ends at or below 0.001, [step]
    kills the neuron and returns at once; its value is the [v] of [kill]. *)
Lemma step_atp_failure (s : Neuron.state) (dt_ms i_ext gauss : R) :
  Neuron.dead s = false ->
  Neuron.ATP (after_atp s dt_ms i_ext) <= 0.001 ->
  Neuron.step s dt_ms i_ext false gauss =
  Ok (Neuron.set_prev_v (Neuron.v s) (Neuron.kill (after_atp s dt_ms i_ext)),
      0).
Proof.
  intros Hd Hatp.
  assert (Hd3 : Neuron.dead (after_atp s dt_ms i_ext) = false)
    by (rewrite after_atp_dead; exact Hd).
  rewrite step_alive by (rewrite entered_off; exact Hd).
  cbv zeta. rewrite entered_off.
  rewrite (proj2 (leb_true _ _) Hatp).
  rewrite kill_alive by exact Hd3.
  cbv beta iota delta [Neuron.set_prev_v Neuron.v]. reflexivity.
Qed.

(** C2, as the code has it.  For every alive neuron state, if during
    [step(dtMs, iExt)] the ATP update leaves [ATP <= 0.001], then the neuron
    is killed and [step] returns early (the mitochondria and damage sections
    do not run); the returned voltage is 0, the value [kill()] gives [v]: the
    voltage of the voltage-update stage is overwritten, not retained.
    [prev_v] becomes the voltage the call started with. *)
Theorem C2_atp_failure_returns_zero (s : Neuron.state)
  (dt_ms i_ext gauss : R) :
  Neuron.dead s = false ->
  Neuron.ATP (after_atp s dt_ms i_ext) <= 0.001 ->
  exists s',
    Neuron.step s dt_ms i_ext false gauss = Ok (s', 0) /\
    s' = Neuron.set_prev_v (Neuron.v s)
           (Neuron.kill (after_atp s dt_ms i_ext)) /\
    Neuron.dead s' = true /\
    Neuron.v s' = 0 /\
    Neuron.prev_v s' = Neuron.v s.
Proof.
  intros Hd Hatp.
  assert (Hd3 : Neuron.dead (after_atp s dt_ms i_ext) = false)
    by (rewrite after_atp_dead; exact Hd).
  eexists. split; [|split; [reflexivity|]].
  - apply step_atp_failure; assumption.
  - rewrite kill_alive by exact Hd3.
    cbv beta iota delta [Neuron.set_prev_v Neuron.v Neuron.dead
                         Neuron.prev_v].
    repeat split; reflexivity.
Qed.

Lemma threshold_atp_fails :
  Neuron.ATP (after_atp (Neuron.set_ATP 0.001 Neuron.init) 0.025 20) <= 0.001.
Proof.
  rewrite after_atp_ATP.
  match goal with |- context [Neuron.Ca ?x] =>
    assert (Hca : 0 <= Neuron.Ca x)
  end.
  { match goal with |- context [Neuron.calcium ?a ?b] =>
      apply (calcium_fields a b) end. }
  set (ca := Neuron.Ca _) in *. clearbody ca.
  rewrite Rabs_pos_eq by lra.
  neuron_fields.
  apply clamp_le; lra.
Qed.

Lemma C2_atp_failure_returns_zero_witness :
  Neuron.dead (Neuron.set_ATP 0.001 Neuron.init) = false /\
  Neuron.ATP (after_atp (Neuron.set_ATP 0.001 Neuron.init) 0.025 20)
    <= 0.001 /\
  exists s',
    Neuron.step (Neuron.set_ATP 0.001 Neuron.init) 0.025 20 false 0
      = Ok (s', 0) /\
    s' = Neuron.set_prev_v (Neuron.v (Neuron.set_ATP 0.001 Neuron.init))
           (Neuron.kill
              (after_atp (Neuron.set_ATP 0.001 Neuron.init) 0.025 20)) /\
    Neuron.dead s' = true /\
    Neuron.v s' = 0 /\
    Neuron.prev_v s' = Neuron.v (Neuron.set_ATP 0.001 Neuron.init).
Proof.
  split; [reflexivity|]. split; [exact threshold_atp_fails|].
  apply C2_atp_failure_returns_zero;
    [reflexivity | exact threshold_atp_fails].
Defined.

(** C2 as stated fails.  A resting neuron whose [ATP] is 0.001 receives
    [step(0.025, 20)]: the ATP update leaves [ATP <= 0.001], the voltage of
    the voltage-update stage is negative, and the call returns 0. *)
Lemma C2_returned_voltage_not_retained :
  let s := Neuron.set_ATP 0.001 Neuron.init in
  Neuron.dead s = false /\
  Neuron.ATP (after_atp s 0.025 20) <= 0.001 /\
  exists s' r,
    Neuron.step s 0.025 20 false 0 = Ok (s', r) /\
    r <> Neuron.v (after_membrane s 0.025 20).
Proof.
  cbv zeta. split; [reflexivity|]. split; [exact threshold_atp_fails|].
  eexists _, 0. split.
  - apply step_atp_failure; [reflexivity | exact threshold_atp_fails].
  -
   pose proof threshold_membrane_voltage. lra.
Qed.

(** ** The stimulation generator (C10) *)

Lemma py_int_nonneg (x : R) : 0 <= x -> py_int x = Zfloor x.
Proof. intros Hx. unfold py_int. destruct (Rle_dec 0 x); [reflexivity|lra]. Qed.

(** On a non-negative dividend and a positive divisor [%] is the remainder
    of the floored division. *)
Lemma py_mod_pos (x y : R) :
  0 <= x -> 0 < y ->
  py_mod x y = Ok (x - y * IZR (Zfloor (x / y))) /\
  0 <= x - y * IZR (Zfloor (x / y)) < y.
Proof.
  intros Hx Hy.
  assert (Hq : 0 <= x / y)
    by (apply Rmult_le_pos; [|left; apply Rinv_0_lt_compat]; assumption).
  pose proof (Zfloor_bound (x / y)) as [Hlo Hhi].
  set (q := IZR (Zfloor (x / y))) in *.
  assert (Hxy : x = x / y * y) by (unfold Rdiv; rewrite Rmult_assoc, Rinv_l; lra).
  assert (Hr : 0 <= x - y * q < y) by (split; nra).
  split; [|exact Hr].
  unfold py_mod, fmod. destruct (Req_dec_T y 0); [lra|].
  rewrite py_int_nonneg by exact Hq. fold q.
  replace (ltb y 0) with false by (symmetry; apply ltb_false; lra).
  replace (ltb (x - y * q) 0) with false by (symmetry; apply ltb_false; lra).
  cbn [Bool.eqb negb]. rewrite andb_false_r. reflexivity.
Qed.

(** The phase of time [t] in the pulse train of [s]. *)
Lemma pulse_current (s : Stimulator.state) (t : R) :
  Stimulator.mode s = "PULSE"%string ->
  0 < Stimulator.frequency s ->
  Stimulator.protocol_start_time s <= t ->
  let period := 1000 / Stimulator.frequency s in
  let rel_t := t - Stimulator.protocol_start_time s in
  let phase := rel_t - period * IZR (Zfloor (rel_t / period)) in
  0 <= phase < period /\
  Stimulator.current_at s t =
  Ok (s, if ltb phase (Rmin (Stimulator.pulse_width s) period)
         then Stimulator.amplitude s else 0).
Proof.
  intros Hmode Hf Ht period rel_t phase.
  assert (Hp : 0 < period)
    by (apply Rmult_lt_0_compat; [lra | apply Rinv_0_lt_compat; exact Hf]).
  assert (Hrel : 0 <= rel_t) by (unfold rel_t; lra).
  destruct (py_mod_pos rel_t period Hrel Hp) as [Hmod Hphase].
  fold phase in Hmod, Hphase. split; [exact Hphase|].
  unfold Stimulator.current_at. rewrite Hmode.
  change ("PULSE" =? "OFF")%string with false.
  change ("PULSE" =? "STEP")%string with false.
  change ("PULSE" =? "CONSTANT")%string with false.
  change ("PULSE" =? "PULSE")%string with true.
  cbv iota.
  replace (leb (Stimulator.frequency s) 0) with false
    by (symmetry; apply leb_false; exact Hf).
  fold rel_t.
  replace (ltb rel_t 0) with false by (symmetry; apply ltb_false; exact Hrel).
  cbn [orb]. rewrite py_div_ok by lra. fold period. cbn [bind].
  replace (leb period 0) with false by (symmetry; apply leb_false; exact Hp).
  rewrite Hmod. cbn [bind].
  destruct (ltb phase _); reflexivity.
Qed.

Lemma pulse_current_in_period (s : Stimulator.state) (t : R) (k : Z) :
  Stimulator.mode s = "PULSE"%string ->
  0 < Stimulator.frequency s ->
  Stimulator.protocol_start_time s <= t ->
  let period := 1000 / Stimulator.frequency s in
  let rel_t := t - Stimulator.protocol_start_time s in
  IZR k * period <= rel_t < (IZR k + 1) * period ->
  Stimulator.current_at s t =
  Ok (s, if ltb (rel_t - period * IZR k)
                (Rmin (Stimulator.pulse_width s) period)
         then Stimulator.amplitude s else 0).
Proof.
  intros Hmode Hf Ht period rel_t Hk.
  destruct (pulse_current s t Hmode Hf Ht) as [_ Hc].
  cbv zeta in Hc. fold period rel_t in Hc.
  assert (Hp : 0 < period)
    by (apply Rmult_lt_0_compat; [lra | apply Rinv_0_lt_compat; exact Hf]).
  assert (Hfl : Zfloor (rel_t / period) = k).
  { apply Zfloor_eq.
    assert (Hxy : rel_t = rel_t / period * period)
      by (unfold Rdiv; rewrite Rmult_assoc, Rinv_l; lra).
    split; nra. }
  rewrite Hfl in Hc. exact Hc.
Qed.

(** C10.  In STEP mode with an armed manual step, [current_at(t)] with [t]
    strictly before [step_start_time] returns 0 and clears [step_active]:
    the step is disarmed although its window has not elapsed, and every
    later query, also one inside the window, returns 0. *)
Theorem C10_early_query_disarms_step (s : Stimulator.state) (t : R) :
  Stimulator.mode s = "STEP"%string ->
  Stimulator.step_active s = true ->
  t < Stimulator.step_start_time s ->
  Stimulator.current_at s t = Ok (Stimulator.set_step_active false s, 0) /\
  forall t',
    Stimulator.current_at (Stimulator.set_step_active false s) t' =
    Ok (Stimulator.set_step_active false s, 0).
Proof.
  intros Hmode Hact Ht. split.
  - unfold Stimulator.current_at. rewrite Hmode.
    change ("STEP" =? "OFF")%string with false.
    change ("STEP" =? "STEP")%string with true.
    cbv iota. unfold Stimulator._step_current. rewrite Hact.
    cbn [negb].
    replace (leb 0 (t - Stimulator.step_start_time s)) with false
      by (symmetry; apply leb_false; lra).
    reflexivity.
  - intros t'. unfold Stimulator.current_at.
    change (Stimulator.mode (Stimulator.set_step_active false s))
      with (Stimulator.mode s).
    rewrite Hmode.
    change ("STEP" =? "OFF")%string with false.
    change ("STEP" =? "STEP")%string with true.
    cbv iota. reflexivity.
Qed.

Lemma C10_early_query_disarms_step_witness :
  let s := Stimulator.trigger_step
             (Stimulator.set_mode Stimulator.init "STEP" 0) 10 in
  Stimulator.mode s = "STEP"%string /\
  Stimulator.step_active s = true /\
  9 < Stimulator.step_start_time s /\
  Stimulator.current_at s 9 = Ok (Stimulator.set_step_active false s, 0) /\
  Stimulator.current_at (Stimulator.set_step_active false s) 12 =
    Ok (Stimulator.set_step_active false s, 0).
Proof.
  cbv zeta.
  assert (Hlt : 9 < Stimulator.step_start_time
                      (Stimulator.trigger_step
                         (Stimulator.set_mode Stimulator.init "STEP" 0) 10))
    by (cbn; lra).
  split; [reflexivity|]. split; [reflexivity|]. split; [exact Hlt|].
  destruct (C10_early_query_disarms_step
              (Stimulator.trigger_step
                 (Stimulator.set_mode Stimulator.init "STEP" 0) 10)
              9 eq_refl eq_refl Hlt) as [Hnow Hlater].
  split; [exact Hnow | apply Hlater].
Defined.

(** ** The quantizer (C9) *)

Lemma py_round_bounds (x : R) (a b : Z) :
  IZR a <= x <= IZR b -> (a <= py_round x <= b)%Z.
Proof.
  intros [Ha Hb].
  pose proof (Zfloor_bound x) as [Hlo Hhi].
  pose proof (Zfloor_lub a x Ha) as Haf.
  assert (Hfb : (Zfloor x <= b)%Z) by (apply le_IZR; lra).
  unfold py_round.
  destruct (Rlt_dec (x - IZR (Zfloor x)) (1 / 2)) as [|Hd]; [lia|].
  assert (Hlt : (Zfloor x < b)%Z) by (apply lt_IZR; lra).
  destruct (Rlt_dec (1 / 2) (x - IZR (Zfloor x))); [lia|].
  destruct (Z.even (Zfloor x)); lia.
Qed.

Lemma py_pow2_12 : py_pow2 12 = 4096.
Proof. unfold py_pow2, powerRZ. simpl. lra. Qed.

(** C9.  For every real input voltage and every draw of the noise, the
    quantizer's [acquire_sample] returns a value within [-100, 100]: the
    noisy value is clamped to the voltage range and rounded to a point
    [k * 200/4096 - 100] of the 12-bit grid with [0 <= k <= 4096]. *)
Theorem C9_acquire_within_range (true_voltage normal : R) :
  exists (q : R) (k : Z),
    DAQ.acquire_sample DAQ.init true_voltage normal = Ok q /\
    k = py_round ((Rmax (-100) (Rmin (true_voltage + normal) 100) - -100)
                  / (200 / 4096)) /\
    (0 <= k <= 4096)%Z /\
    q = IZR k * (200 / 4096) + -100 /\
    -100 <= q <= 100.
Proof.
  set (val := Rmax (-100) (Rmin (true_voltage + normal) 100)).
  assert (Hval : -100 <= val <= 100).
  { unfold val, Rmax, Rmin.
    destruct (Rle_dec (true_voltage + normal) 100);
      destruct (Rle_dec (-100) _); lra. }
  set (k := py_round ((val - -100) / (200 / 4096))).
  assert (Hk : (0 <= k <= 4096)%Z).
  { apply py_round_bounds. split; lra. }
  exists (IZR k * (200 / 4096) + -100), k.
  split; [|split; [reflexivity|split; [exact Hk|split; [reflexivity|]]]].
  - unfold DAQ.acquire_sample, DAQ.quantize.
    cbv beta iota zeta delta [DAQ.init DAQ.voltage_range DAQ.adc_bits].
    rewrite py_pow2_12.
    replace (100 - -100) with 200 by lra.
    rewrite py_div_ok by lra. cbn [bind].
    fold val. rewrite py_div_ok by lra. cbn [bind]. fold k.
    reflexivity.
  - destruct Hk as [Hk0 Hk1].
    apply IZR_le in Hk0. apply IZR_le in Hk1. lra.
Qed.

(** ** The orchestration loop *)

Lemma py_mod_total (x y : R) : y <> 0 -> exists r, py_mod x y = Ok r.
Proof.
  intros Hy. unfold py_mod. destruct (Req_dec_T y 0); [contradiction|].
  cbv zeta. destruct (_ && _); eauto.
Qed.

Lemma current_at_total (s : Stimulator.state) (t : R) :
  exists s' i, Stimulator.current_at s t = Ok (s', i).
Proof.
  unfold Stimulator.current_at.
  destruct (Stimulator.mode s =? "OFF")%string; [eauto|].
  destruct (Stimulator.mode s =? "STEP")%string.
  { destruct (Stimulator._step_current s t) as [s' i]. eauto. }
  cbv zeta.
  destruct (Stimulator.mode s =? "CONSTANT")%string; [eauto|].
  destruct (Stimulator.mode s =? "PULSE")%string; [|eauto].
  destruct (leb (Stimulator.frequency s) 0) eqn:Ef; [cbn [orb]; eauto|].
  cbn [orb].
  destruct (ltb (t - Stimulator.protocol_start_time s) 0); [eauto|].
  apply leb_false in Ef. rewrite py_div_ok by lra. cbn [bind].
  destruct (leb (1000 / Stimulator.frequency s) 0) eqn:Ep; [eauto|].
  apply leb_false in Ep.
  destruct (py_mod_total (t - Stimulator.protocol_start_time s)
              (1000 / Stimulator.frequency s)) as (r & ->); [lra|].
  cbn [bind]. destruct (ltb r _); eauto.
Qed.

Lemma acquire_sample_total (d : DAQ.state) (true_voltage normal : R) :
  fst (DAQ.voltage_range d) <> snd (DAQ.voltage_range d) ->
  exists q, DAQ.acquire_sample d true_voltage normal = Ok q.
Proof.
  intros Hrange. unfold DAQ.acquire_sample, DAQ.quantize.
  destruct (DAQ.voltage_range d) as [min_v max_v]. cbn [fst snd] in Hrange.
  assert (Hsteps : py_pow2 (DAQ.adc_bits d) <> 0)
    by (apply powerRZ_NOR; lra).
  cbv zeta. rewrite py_div_ok by exact Hsteps. cbn [bind].
  rewrite py_div_ok.
  - cbn [bind]. eauto.
  - unfold Rdiv. apply Rmult_integral_contrapositive_currified.
    + lra.
    + apply Rinv_neq_0_compat. exact Hsteps.
Qed.

Ltac window_fields :=
  cbv beta iota zeta delta
    [MainWindow.set_neuron MainWindow.set_stim MainWindow.set_time_ms
     MainWindow.set_time_since_last_plot MainWindow.set_running
     MainWindow.set_time_scale_factor MainWindow.set_time_scale
     MainWindow.set_step_recovery_logged MainWindow.log
     MainWindow.record_sample
     MainWindow.neuron MainWindow.stim MainWindow.daq MainWindow.time_ms
     MainWindow.dt MainWindow.timer_interval MainWindow.time_scale_factor
     MainWindow.running MainWindow.plot_dt_ms
     MainWindow.time_since_last_plot MainWindow.t_data MainWindow.v_data
     MainWindow.t_full MainWindow.v_full MainWindow.meta_t
     MainWindow.meta_atp MainWindow.meta_ca MainWindow.meta_mito
     MainWindow.meta_integrity MainWindow.meta_damage
     MainWindow.last_step_time_ms MainWindow.step_recovery_logged
     MainWindow.log_widget
     MainWindow.at_time_ms MainWindow.with_dt MainWindow.with_i_stim
     fst snd].

(** One iteration of the loop makes one call of [Neuron.step], with the
    step [dt], and moves the simulated time by [dt]. *)
Lemma loop_body_ok (s : MainWindow.state) (gauss normal : R) :
  fst (DAQ.voltage_range (MainWindow.daq s))
    <> snd (DAQ.voltage_range (MainWindow.daq s)) ->
  exists s' c,
    MainWindow.loop_body s gauss normal = Ok (s', c) /\
    MainWindow.at_time_ms c = MainWindow.time_ms s /\
    MainWindow.with_dt c = MainWindow.dt s /\
    MainWindow.time_ms s' = MainWindow.time_ms s + MainWindow.dt s /\
    MainWindow.dt s' = MainWindow.dt s /\
    MainWindow.daq s' = MainWindow.daq s.
Proof.
  intros Hrange. destruct s. unfold MainWindow.loop_body.
  window_fields. cbn [MainWindow.daq] in Hrange.
  destruct (current_at_total stim time_ms) as (st' & i & ->).
  cbn [bind]. window_fields.
  destruct (step_total neuron dt i false gauss) as (n' & u & ->).
  cbn [bind]. window_fields.
  destruct (leb plot_dt_ms (time_since_last_plot + dt)).
  - destruct (acquire_sample_total daq u normal Hrange) as (q & ->).
    cbn [bind]. eexists _, _. split; [reflexivity|]. window_fields.
    repeat split; reflexivity.
  - eexists _, _. split; [reflexivity|]. window_fields.
    repeat split; reflexivity.
Qed.

(** One test of [update_event_logs] leaves the simulated time alone. *)
Lemma flag_stage_time_ms (c : bool) (x : Neuron.state)
  (msg : MainWindow.notification) (s : MainWindow.state) :
  MainWindow.time_ms
    (if c then MainWindow.set_neuron x (MainWindow.log s msg) else s)
  = MainWindow.time_ms s.
Proof. destruct c; reflexivity. Qed.

(** Names the value of the outermost [let] under [time_ms]. *)
Ltac name_let :=
  lazymatch goal with
  | |- MainWindow.time_ms (let x := ?a in @?b x) = ?r =>
      let y := fresh "st" in
      pose (y := a); change (MainWindow.time_ms (b y) = r); cbv beta
  end.

Lemma update_event_logs_time_ms (s : MainWindow.state) :
  MainWindow.time_ms (MainWindow.update_event_logs s) = MainWindow.time_ms s.
Proof.
  cbv beta delta [MainWindow.update_event_logs].
  name_let.
  destruct (Neuron.dead (MainWindow.neuron s) && MainWindow.running s);
    [reflexivity|].
  do 6 name_let.
  assert (H0 : MainWindow.time_ms st0 = MainWindow.time_ms s)
    by apply flag_stage_time_ms.
  assert (H1 : MainWindow.time_ms st1 = MainWindow.time_ms st0)
    by apply flag_stage_time_ms.
  assert (H2 : MainWindow.time_ms st2 = MainWindow.time_ms st1)
    by apply flag_stage_time_ms.
  assert (H3 : MainWindow.time_ms st3 = MainWindow.time_ms st2)
    by apply flag_stage_time_ms.
  assert (H4 : MainWindow.time_ms st4 = MainWindow.time_ms st3)
    by apply flag_stage_time_ms.
  assert (H5 : MainWindow.time_ms st5 = MainWindow.time_ms st4)
    by apply flag_stage_time_ms.
  clearbody st0 st1 st2 st3 st4 st5.
  rewrite <- H0, <- H1, <- H2, <- H3, <- H4, <- H5.
  destruct (MainWindow.last_step_time_ms st5); [|reflexivity].
  match goal with |- context [if ?c then _ else _] => destruct c end;
    reflexivity.
Qed.

Lemma py_int_IZR (k : Z) : py_int (IZR k) = k.
Proof.
  unfold py_int. destruct (Rle_dec 0 (IZR k)).
  - apply Zfloor_eq. lra.
  - apply Zceil_eq. lra.
Qed.

Lemma py_round_IZR (k : Z) : py_round (IZR k) = k.
Proof.
  unfold py_round.
  assert (Hf : Zfloor (IZR k) = k) by (apply Zfloor_eq; lra).
  rewrite Hf. destruct (Rlt_dec (IZR k - IZR k) (1 / 2)); [reflexivity|lra].
Qed.

Lemma py_int_nonneg_le (x : R) : 0 <= x -> (0 <= py_int x)%Z.
Proof.
  intros Hx. rewrite py_int_nonneg by exact Hx.
  apply Zfloor_lub. exact Hx.
Qed.

(** The number of iterations [update_loop] asks for. *)
Lemma steps_to_run_value (s : MainWindow.state) :
  MainWindow.dt s <> 0 ->
  MainWindow.steps_to_run s =
  Ok (if (py_int (IZR (MainWindow.timer_interval s) / MainWindow.dt s
                  * MainWindow.time_scale_factor s) =? 0)%Z
         && ltb 0 (MainWindow.time_scale_factor s)
      then 1%Z
      else py_int (IZR (MainWindow.timer_interval s) / MainWindow.dt s
                   * MainWindow.time_scale_factor s)).
Proof.
  intros Hdt. unfold MainWindow.steps_to_run.
  rewrite py_div_ok by exact Hdt. cbn [bind].
  destruct (_ && _); reflexivity.
Qed.

Ltac window_eval :=
  cbv beta iota zeta delta
    [MainWindow.init DAQ.init DAQ.voltage_range DAQ.adc_bits
     MainWindow.set_neuron MainWindow.set_stim MainWindow.set_time_ms
     MainWindow.set_time_since_last_plot MainWindow.set_running
     MainWindow.set_time_scale_factor MainWindow.set_time_scale
     MainWindow.set_step_recovery_logged
     MainWindow.neuron MainWindow.stim MainWindow.daq MainWindow.time_ms
     MainWindow.dt MainWindow.timer_interval MainWindow.time_scale_factor
     MainWindow.running MainWindow.plot_dt_ms
     MainWindow.time_since_last_plot MainWindow.t_data MainWindow.v_data
     MainWindow.t_full MainWindow.v_full MainWindow.meta_t
     MainWindow.meta_atp MainWindow.meta_ca MainWindow.meta_mito
     MainWindow.meta_integrity MainWindow.meta_damage
     MainWindow.last_step_time_ms MainWindow.step_recovery_logged
     MainWindow.log_widget fst snd].

(** * Further properties of the engine *)

(** ** The neuron: what [reset], [kill] and [step] keep *)

Lemma kill_q10 (s : Neuron.state) : Neuron.q10 (Neuron.kill s) = Neuron.q10 s.
Proof.
  destruct (Neuron.dead s) eqn:E.
  - rewrite kill_dead by exact E. reflexivity.
  - rewrite kill_alive by exact E. reflexivity.
Qed.

Lemma forced_collapse_q10 (s : Neuron.state) (dt_sec : R) :
  Neuron.q10 (Neuron.forced_collapse s dt_sec) = Neuron.q10 s.
Proof.
  unfold Neuron.forced_collapse. cbv zeta.
  match goal with |- context [if ?c then _ else _] => destruct c end.
  - rewrite kill_q10. reflexivity.
  - reflexivity.
Qed.

Lemma entered_q10 (s : Neuron.state) (dt_ms : R) (k : bool) :
  Neuron.q10 (entered s dt_ms k) = Neuron.q10 s.
Proof.
  unfold entered. destruct (k && negb (Neuron.dead s)); [|reflexivity].
  apply forced_collapse_q10.
Qed.

Lemma calcium_q10 (s : Neuron.state) (dt_sec : R) :
  Neuron.q10 (Neuron.calcium s dt_sec) = Neuron.q10 s.
Proof.
  unfold Neuron.calcium.
  destruct (ltb (Neuron.prev_v s) 0 && leb 0 (Neuron.v s)); cbv zeta;
    match goal with |- context [if ?c then _ else _] => destruct c end;
    reflexivity.
Qed.

Lemma damage_health_q10 (s : Neuron.state) (dt_sec : R) :
  Neuron.q10 (Neuron.damage_health s dt_sec) = Neuron.q10 s.
Proof.
  unfold Neuron.damage_health.
  destruct (ltb (Neuron.stress s) 0.6); destruct (ltb 1 (Neuron.stress s));
    reflexivity.
Qed.

Lemma after_atp_q10 (s : Neuron.state) (dt_ms i : R) :
  Neuron.q10 (after_atp s dt_ms i) = Neuron.q10 s.
Proof.
  unfold after_atp.
  change (Neuron.q10 (Neuron.calcium (after_membrane s dt_ms i)
                                      (dt_ms / 1000)) = Neuron.q10 s).
  rewrite calcium_q10. reflexivity.
Qed.

Lemma after_damage_q10 (s : Neuron.state) (dt_ms i : R) :
  Neuron.q10 (after_damage s dt_ms i) = Neuron.q10 s.
Proof.
  unfold after_damage. rewrite damage_health_q10.
  change (Neuron.q10 (after_atp s dt_ms i) = Neuron.q10 s).
  apply after_atp_q10.
Qed.

Lemma damage_health_derived (s : Neuron.state) (dt_sec : R) :
  health_derived (Neuron.damage_health s dt_sec).
Proof.
  unfold health_derived, Neuron.damage_health.
  destruct (ltb (Neuron.stress s) 0.6); destruct (ltb 1 (Neuron.stress s));
    reflexivity.
Qed.

Lemma kill_alive_killed (s : Neuron.state) :
  Neuron.dead s = false -> killed (Neuron.kill s).
Proof.
  intros E. rewrite kill_alive by exact E. unfold killed.
  repeat split; reflexivity.
Qed.

Lemma killed_health_derived (s : Neuron.state) : killed s -> health_derived s.
Proof.
  intros (Hi & Hd & Hh & _). unfold health_derived.
  rewrite Hi, Hd, Hh. unfold Rmax, Rmin.
  destruct (Rle_dec 100 (0 - 0.7 * 100)); destruct (Rle_dec 0 _); lra.
Qed.

Lemma settled_init : settled Neuron.init.
Proof.
  unfold settled, health_derived, viable, killed.
  cbv beta iota delta
    [Neuron.init Neuron.reset Neuron.q10 Neuron.health Neuron.integrity
     Neuron.damage Neuron.dead Neuron.ATP Neuron.mito Neuron.Ca].
  split; [reflexivity|]. split; [|split].
  - rewrite clamp_id; lra.
  - discriminate.
  - intros _. lra.
Qed.

Lemma settled_reset (s : Neuron.state) : settled s -> settled (Neuron.reset s).
Proof.
  intros (Hq & _). unfold settled, health_derived, viable, killed.
  cbv beta iota delta
    [Neuron.reset Neuron.q10 Neuron.health Neuron.integrity
     Neuron.damage Neuron.dead Neuron.ATP Neuron.mito Neuron.Ca].
  split; [exact Hq|]. split; [|split].
  - rewrite clamp_id; lra.
  - discriminate.
  - intros _. lra.
Qed.

Lemma settled_kill_alive (s : Neuron.state) :
  Neuron.q10 s = 1 -> Neuron.dead s = false -> settled (Neuron.kill s).
Proof.
  intros Hq E. pose proof (kill_alive_killed s E) as Hk.
  split; [rewrite kill_q10; exact Hq|].
  split; [apply killed_health_derived; exact Hk|].
  split; [intros _; exact Hk|].
  rewrite kill_is_dead. discriminate.
Qed.

Lemma settled_kill (s : Neuron.state) : settled s -> settled (Neuron.kill s).
Proof.
  intros Hs. destruct (Neuron.dead s) eqn:E.
  - rewrite kill_dead by exact E. exact Hs.
  - apply settled_kill_alive; [apply Hs | exact E].
Qed.

Lemma settled_set_v (s : Neuron.state) (x : R) :
  settled s -> settled (Neuron.set_v x s).
Proof. intros H. exact H. Qed.

Lemma settled_set_prev_v (s : Neuron.state) (x : R) :
  settled s -> settled (Neuron.set_prev_v x s).
Proof. intros H. exact H. Qed.

Lemma forced_collapse_dead (s : Neuron.state) (dt_sec : R) :
  Neuron.dead s = false ->
  Neuron.dead (Neuron.forced_collapse s dt_sec) = true ->
  Neuron.forced_collapse s dt_sec =
  Neuron.kill
    (Neuron.set_damage (Neuron.damage s + 5 * dt_sec)
       (Neuron.set_Ca (Neuron.Ca s + 2 * dt_sec)
          (Neuron.set_ATP (Neuron.ATP s - 5 * dt_sec) s))).
Proof.
  intros E. unfold Neuron.forced_collapse. cbv zeta.
  match goal with |- context [if ?c then _ else _] => destruct c end.
  - reflexivity.
  - cbv beta iota delta [Neuron.set_damage Neuron.set_Ca Neuron.set_ATP
                         Neuron.dead].
    fold (Neuron.dead s). rewrite E. discriminate.
Qed.

Lemma entered_dead_settled (s : Neuron.state) (dt_ms : R) (k : bool) :
  settled s -> Neuron.dead (entered s dt_ms k) = true ->
  settled (entered s dt_ms k).
Proof.
  intros Hs. unfold entered.
  destruct (k && negb (Neuron.dead s)) eqn:E; [|intros _; exact Hs].
  apply andb_true_iff in E. destruct E as [_ E]. apply negb_true_iff in E.
  intros Hd. rewrite (forced_collapse_dead s _ E Hd).
  apply settled_kill_alive; [apply Hs | exact E].
Qed.

(** [step] keeps the invariant. *)
Lemma step_settled (s s' : Neuron.state) (dt_ms i_ext r : R) (k : bool)
  (g : R) :
  settled s -> Neuron.step s dt_ms i_ext k g = Ok (s', r) -> settled s'.
Proof.
  intros Hs. destruct (Neuron.dead (entered s dt_ms k)) eqn:Hd.
  - rewrite step_dead by assumption. cbv zeta. intros H.
    apply Ok_pair_inj in H. destruct H as [<- _].
    apply settled_set_v, entered_dead_settled; assumption.
  - rewrite step_alive by assumption. cbv zeta.
    assert (Hq : Neuron.q10 (entered s dt_ms k) = 1)
      by (rewrite entered_q10; apply Hs).
    set (s1 := entered s dt_ms k) in *. clear Hs.
    destruct (leb (Neuron.ATP (after_atp s1 dt_ms i_ext)) 0.001) eqn:Ea.
    + intros H. apply Ok_pair_inj in H. destruct H as [<- _].
      apply settled_set_prev_v, settled_kill_alive.
      * rewrite after_atp_q10. exact Hq.
      * rewrite after_atp_dead. exact Hd.
    + destruct (leb (Neuron.health (after_damage s1 dt_ms i_ext)) 0) eqn:Eh;
        intros H; apply Ok_pair_inj in H; destruct H as [<- _];
        apply settled_set_prev_v.
      * apply settled_kill_alive.
        -- rewrite after_damage_q10. exact Hq.
        -- rewrite after_damage_dead. exact Hd.
      * split; [rewrite after_damage_q10; exact Hq|].
        split; [apply damage_health_derived|].
        split; [rewrite after_damage_dead, Hd; discriminate|].
        intros _. apply leb_false in Ea. apply leb_false in Eh.
        split; [|exact Eh].
        pose proof (mitochondria_fields (after_atp s1 dt_ms i_ext)
                      (dt_ms / 1000) i_ext) as Hm.
        pose proof (damage_health_fields
                      (Neuron.mitochondria (after_atp s1 dt_ms i_ext)
                         (dt_ms / 1000) i_ext) (dt_ms / 1000)) as Hdh.
        cbv zeta in Hm, Hdh.
        destruct Hm as (_ & _ & _ & _ & _ & _ & Hm & _).
        destruct Hdh as (_ & _ & _ & _ & _ & _ & _ & Hdh & _).
        unfold after_damage. rewrite Hdh, Hm. exact Ea.
Qed.

Lemma reachable_settled (s : Neuron.state) : reachable s -> settled s.
Proof.
  induction 1.
  - apply settled_init.
  - apply settled_reset. assumption.
  - apply settled_kill. assumption.
  - eapply step_settled; eassumption.
Qed.

(** X1.  From every state a neuron can reach, [reset] gives back exactly
    the neuron [__init__] builds: [q10], the one field [reset] does not
    assign, is never changed by [kill] or [step]. *)
Theorem X1_reset_restores_init (s : Neuron.state) :
  reachable s -> Neuron.reset s = Neuron.init.
Proof.
  intros Hr. destruct (reachable_settled s Hr) as (Hq & _).
  cbv beta iota delta [Neuron.reset Neuron.init Neuron.q10].
  fold (Neuron.q10 s). rewrite Hq. reflexivity.
Qed.

Lemma X1_reset_restores_init_witness :
  reachable (Neuron.kill Neuron.init) /\
  Neuron.reset (Neuron.kill Neuron.init) = Neuron.init.
Proof.
  split; [apply reachable_kill, reachable_init|].
  apply X1_reset_restores_init. apply reachable_kill, reachable_init.
Defined.

(** X2.  In every reachable state [health] is the derived quantity
    [clamp(integrity - 0.7 * damage, 0, 100)], also after [kill] and after
    the early returns of [step]. *)
Theorem X2_health_is_derived (s : Neuron.state) :
  reachable s ->
  Neuron.health s
  = Rmax 0 (Rmin 100 (Neuron.integrity s - 0.7 * Neuron.damage s)).
Proof.
  intros Hr. apply (reachable_settled s Hr).
Qed.

Lemma X2_health_is_derived_witness :
  reachable (Neuron.kill Neuron.init) /\
  Neuron.health (Neuron.kill Neuron.init)
  = Rmax 0 (Rmin 100 (Neuron.integrity (Neuron.kill Neuron.init)
                      - 0.7 * Neuron.damage (Neuron.kill Neuron.init))).
Proof.
  split; [apply reachable_kill, reachable_init|].
  apply X2_health_is_derived. apply reachable_kill, reachable_init.
Defined.

(** X3.  A reachable neuron that is dead has the fields [kill] wrote
    ([integrity = 0], [damage = 100], [health = 0], [ATP = 0], [mito = 0],
    [Ca = 10]): nothing changes them afterwards; a reachable neuron that is
    alive has [ATP > 0.001] and [health > 0], the two thresholds at which
    [step] kills. *)
Theorem X3_dead_or_viable (s : Neuron.state) :
  reachable s ->
  (Neuron.dead s = true ->
   Neuron.integrity s = 0 /\ Neuron.damage s = 100 /\ Neuron.health s = 0 /\
   Neuron.ATP s = 0 /\ Neuron.mito s = 0 /\ Neuron.Ca s = 10) /\
  (Neuron.dead s = false -> 0.001 < Neuron.ATP s /\ 0 < Neuron.health s).
Proof.
  intros Hr. destruct (reachable_settled s Hr) as (_ & _ & Hdead & Halive).
  split; assumption.
Qed.

Lemma X3_dead_or_viable_witness :
  reachable (Neuron.kill Neuron.init) /\
  Neuron.dead (Neuron.kill Neuron.init) = true /\
  Neuron.damage (Neuron.kill Neuron.init) = 100 /\
  reachable Neuron.init /\
  Neuron.dead Neuron.init = false /\
  0.001 < Neuron.ATP Neuron.init.
Proof.
  split; [apply reachable_kill, reachable_init|].
  split; [reflexivity|].
  split.
  - apply (proj1 (X3_dead_or_viable (Neuron.kill Neuron.init)
                    (reachable_kill _ reachable_init)) eq_refl).
  - split; [apply reachable_init|]. split; [reflexivity|].
    apply (proj2 (X3_dead_or_viable Neuron.init reachable_init) eq_refl).
Defined.

(** ** The neuron: what one [step] does to [prev_v] and [Ca] *)

(** X4.  [step] (not in forced-collapse mode) returns the [v] it leaves in
    the neuron.  On an alive neuron it sets [prev_v] to the voltage the call
    started with, on each of its three return paths, not to the new [v];
    on a dead neuron it leaves [prev_v] alone. *)
Theorem X4_prev_v_is_the_voltage_before (s s' : Neuron.state)
  (dt_ms i_ext gauss r : R) :
  Neuron.step s dt_ms i_ext false gauss = Ok (s', r) ->
  r = Neuron.v s' /\
  Neuron.prev_v s' = if Neuron.dead s then Neuron.prev_v s else Neuron.v s.
Proof.
  destruct (Neuron.dead s) eqn:Hd.
  - rewrite step_of_dead by exact Hd. intros H.
    apply Ok_pair_inj in H. destruct H as [<- <-]. split; reflexivity.
  - rewrite step_alive by (rewrite entered_off; exact Hd).
    cbv zeta. rewrite entered_off.
    destruct (leb (Neuron.ATP (after_atp s dt_ms i_ext)) 0.001).
    + intros H. apply Ok_pair_inj in H. destruct H as [<- <-].
      split; reflexivity.
    + destruct (leb (Neuron.health (after_damage s dt_ms i_ext)) 0);
        intros H; apply Ok_pair_inj in H; destruct H as [<- <-];
        split; reflexivity.
Qed.

Lemma X4_prev_v_is_the_voltage_before_witness :
  exists s' r,
    Neuron.step Neuron.init 0.025 10 false 0 = Ok (s', r) /\
    r = Neuron.v s' /\ Neuron.prev_v s' = -65.
Proof.
  destruct (step_total Neuron.init 0.025 10 false 0) as (s' & r & Hs).
  exists s', r. split; [exact Hs|].
  exact (X4_prev_v_is_the_voltage_before Neuron.init s' 0.025 10 0 r Hs).
Defined.

Lemma calcium_growth (s : Neuron.state) (dt_sec : R) :
  0 <= dt_sec -> 0 <= Neuron.ATP s -> 0 <= Neuron.Ca s ->
  Neuron.Ca (Neuron.calcium s dt_sec)
  <= Neuron.Ca s
     + (if ltb (Neuron.prev_v s) 0 && leb 0 (Neuron.v s) then 0.02 else 0).
Proof.
  intros Hdt Hatp Hca. unfold Neuron.calcium.
  destruct (ltb (Neuron.prev_v s) 0 && leb 0 (Neuron.v s)); cbv zeta;
    match goal with |- context [if ltb ?a 0 then _ else _] =>
      destruct (ltb a 0) end;
    cbv beta iota delta [Neuron.set_Ca Neuron.Ca Neuron.ATP];
    fold (Neuron.Ca s); fold (Neuron.ATP s); try lra.
  - assert (0 <= (Neuron.Ca s + 0.02) * (0.05 + 2 * Neuron.ATP s) * dt_sec).
    { apply Rmult_le_pos; [apply Rmult_le_pos|]; lra. }
    lra.
  - assert (0 <= Neuron.Ca s * (0.05 + 2 * Neuron.ATP s) * dt_sec).
    { apply Rmult_le_pos; [apply Rmult_le_pos|]; lra. }
    lra.
Qed.

Lemma after_membrane_frame (s : Neuron.state) (dt_ms i : R) :
  Neuron.ATP (after_membrane s dt_ms i) = Neuron.ATP s /\
  Neuron.mito (after_membrane s dt_ms i) = Neuron.mito s /\
  Neuron.Ca (after_membrane s dt_ms i) = Neuron.Ca s /\
  Neuron.prev_v (after_membrane s dt_ms i) = Neuron.prev_v s.
Proof.
  unfold after_membrane.
  match goal with
  | |- context [Neuron.membrane ?a ?b ?c ?d ?e ?f ?g ?h ?i ?j] =>
      pose proof (membrane_fields a b c d e f g h i j) as Hm
  end.
  cbv zeta in Hm.
  destruct Hm as (_ & Hm1 & Hm2 & Hm3 & _ & _ & _ & Hm7).
  repeat split; assumption.
Qed.

Lemma after_damage_Ca_v (s : Neuron.state) (dt_ms i : R) :
  Neuron.Ca (after_damage s dt_ms i)
  = Neuron.Ca (Neuron.calcium (after_membrane s dt_ms i) (dt_ms / 1000)) /\
  Neuron.v (after_damage s dt_ms i) = Neuron.v (after_membrane s dt_ms i).
Proof.
  unfold after_damage, after_atp.
  set (s2 := Neuron.calcium (after_membrane s dt_ms i) (dt_ms / 1000)).
  pose proof (calcium_fields (after_membrane s dt_ms i) (dt_ms / 1000)) as Hc.
  pose proof (atp_fields s2 (dt_ms / 1000) i) as Ha.
  pose proof (mitochondria_fields (Neuron.atp s2 (dt_ms / 1000) i)
                (dt_ms / 1000) i) as Hm.
  pose proof (damage_health_fields
                (Neuron.mitochondria (Neuron.atp s2 (dt_ms / 1000) i)
                   (dt_ms / 1000) i) (dt_ms / 1000)) as Hd.
  cbv zeta in Hc, Ha, Hm, Hd. fold s2 in Hc.
  destruct Hc as (_ & _ & _ & _ & Hcv & _).
  destruct Ha as (_ & _ & _ & _ & Hav & Haca & _).
  destruct Hm as (_ & _ & _ & _ & Hmv & Hmca & _).
  destruct Hd as (_ & _ & _ & _ & _ & Hdv & Hdca & _).
  rewrite Hdca, Hmca, Haca, Hdv, Hmv, Hav, Hcv. split; reflexivity.
Qed.

(** X5.  One [step] either kills the neuron or raises [Ca] by at most
    0.02, the amount of one spike: for a non-negative time step and a
    neuron within its ranges the clearance never adds calcium.  Without a
    spike edge (the previous voltage was not negative, or the returned one
    is) [Ca] does not rise at all. *)
Theorem X5_calcium_rises_only_on_a_spike (s s' : Neuron.state)
  (dt_ms i_ext gauss r : R) :
  bounded s -> Neuron.dead s = false -> 0 <= dt_ms ->
  Neuron.step s dt_ms i_ext false gauss = Ok (s', r) ->
  Neuron.dead s' = true \/
  (Neuron.Ca s' <= Neuron.Ca s + 0.02 /\
   (0 <= Neuron.prev_v s \/ r < 0 -> Neuron.Ca s' <= Neuron.Ca s)).
Proof.
  intros Hb Hd Hdt.
  rewrite step_alive by (rewrite entered_off; exact Hd).
  cbv zeta. rewrite entered_off.
  destruct (leb (Neuron.ATP (after_atp s dt_ms i_ext)) 0.001).
  { intros H. apply Ok_pair_inj in H. destruct H as [<- _].
    left. apply (kill_is_dead (after_atp s dt_ms i_ext)). }
  destruct (leb (Neuron.health (after_damage s dt_ms i_ext)) 0).
  { intros H. apply Ok_pair_inj in H. destruct H as [<- _].
    left. apply (kill_is_dead (after_damage s dt_ms i_ext)). }
  intros H. apply Ok_pair_inj in H. destruct H as [<- <-]. right.
  change (Neuron.Ca (after_damage s dt_ms i_ext) <= Neuron.Ca s + 0.02 /\
          (0 <= Neuron.prev_v s \/ Neuron.v (after_damage s dt_ms i_ext) < 0
           -> Neuron.Ca (after_damage s dt_ms i_ext) <= Neuron.Ca s)).
  destruct (after_damage_Ca_v s dt_ms i_ext) as [-> ->].
  destruct (after_membrane_frame s dt_ms i_ext) as (Ha & _ & Hc & Hp).
  pose proof (calcium_growth (after_membrane s dt_ms i_ext) (dt_ms / 1000))
    as Hg.
  rewrite Ha, Hc, Hp in Hg.
  assert (Hatp : 0 <= Neuron.ATP s) by apply Hb.
  assert (Hca : 0 <= Neuron.Ca s) by apply Hb.
  specialize (Hg ltac:(lra) Hatp Hca).
  split.
  - destruct (_ && _) in Hg; lra.
  - intros Hno.
    replace (ltb (Neuron.prev_v s) 0
             && leb 0 (Neuron.v (after_membrane s dt_ms i_ext)))
      with false in Hg; [lra|].
    symmetry. apply andb_false_iff. destruct Hno as [Hno|Hno].
    + left. apply ltb_false. exact Hno.
    + right. apply leb_false. exact Hno.
Qed.

Lemma X5_calcium_rises_only_on_a_spike_witness :
  bounded Neuron.init /\ Neuron.dead Neuron.init = false /\ 0 <= 0.025 /\
  exists s' r,
    Neuron.step Neuron.init 0.025 10 false 0 = Ok (s', r) /\
    (Neuron.dead s' = true \/
     (Neuron.Ca s' <= Neuron.Ca Neuron.init + 0.02 /\
      (0 <= Neuron.prev_v Neuron.init \/ r < 0 ->
       Neuron.Ca s' <= Neuron.Ca Neuron.init))).
Proof.
  assert (Hdt : 0 <= 0.025) by lra.
  split; [apply init_bounded|]. split; [reflexivity|]. split; [exact Hdt|].
  destruct (step_total Neuron.init 0.025 10 false 0) as (s' & r & Hs).
  exists s', r. split; [exact Hs|].
  apply (X5_calcium_rises_only_on_a_spike Neuron.init s' 0.025 10 0 r
           init_bounded eq_refl Hdt Hs).
Defined.

(** ** The neuron: forced collapse *)

Lemma forced_collapse_alive (s : Neuron.state) (dt_sec : R) :
  Neuron.dead (Neuron.forced_collapse s dt_sec) = false ->
  Neuron.ATP (Neuron.forced_collapse s dt_sec) = Neuron.ATP s - 5 * dt_sec /\
  Neuron.mito (Neuron.forced_collapse s dt_sec) = Neuron.mito s.
Proof.
  unfold Neuron.forced_collapse. cbv zeta.
  match goal with |- context [if ?c then _ else _] => destruct c end.
  - rewrite kill_is_dead. discriminate.
  - intros _. split; reflexivity.
Qed.

Lemma after_damage_ATP (s : Neuron.state) (dt_ms i : R) :
  Neuron.ATP (after_damage s dt_ms i) = Neuron.ATP (after_atp s dt_ms i).
Proof.
  unfold after_damage.
  pose proof (mitochondria_fields (after_atp s dt_ms i) (dt_ms / 1000) i)
    as Hm.
  pose proof (damage_health_fields
                (Neuron.mitochondria (after_atp s dt_ms i) (dt_ms / 1000) i)
                (dt_ms / 1000)) as Hd.
  cbv zeta in Hm, Hd.
  destruct Hm as (_ & _ & _ & _ & _ & _ & Hm & _).
  destruct Hd as (_ & _ & _ & _ & _ & _ & _ & Hd & _).
  rewrite Hd, Hm. reflexivity.
Qed.

(** The ATP update adds at most the production of a full mitochondrial
    capacity. *)
Lemma after_atp_ATP_le (s : Neuron.state) (dt_ms i : R) :
  0 <= dt_ms -> Neuron.mito s <= 100 -> 0 <= Neuron.ATP s ->
  Neuron.ATP (after_atp s dt_ms i) <= Neuron.ATP s + 0.008 * (dt_ms / 1000).
Proof.
  intros Hdt Hm Ha. rewrite after_atp_ATP.
  match goal with |- context [Neuron.Ca ?x] =>
    assert (Hca : 0 <= Neuron.Ca x)
  end.
  { match goal with |- context [Neuron.calcium ?a ?b] =>
      apply (calcium_fields a b) end. }
  set (ca := Neuron.Ca _) in *. clearbody ca.
  pose proof (Rabs_pos i) as Hi. set (ai := Rabs i) in *. clearbody ai.
  apply clamp_le; nra.
Qed.

(** One step of forced collapse kills the neuron or costs it ATP. *)
Lemma forced_step_drains (s s' : Neuron.state) (dt_ms i_ext g r : R) :
  bounded s -> Neuron.dead s = false -> 0 < dt_ms ->
  Neuron.step s dt_ms i_ext true g = Ok (s', r) ->
  Neuron.dead s' = true \/
  Neuron.ATP s' <= Neuron.ATP s - 4.992 * (dt_ms / 1000).
Proof.
  intros Hb Hd Hdt.
  assert (He : entered s dt_ms true
               = Neuron.forced_collapse s (dt_ms / 1000))
    by (unfold entered; rewrite Hd; reflexivity).
  destruct (Neuron.dead (entered s dt_ms true)) eqn:Hd1.
  - rewrite step_dead by assumption. cbv zeta. intros H.
    apply Ok_pair_inj in H. destruct H as [<- _]. left. exact Hd1.
  - rewrite step_alive by assumption. cbv zeta.
    rewrite He in *.
    destruct (forced_collapse_alive s (dt_ms / 1000) Hd1) as [Hatp Hmito].
    set (s1 := Neuron.forced_collapse s (dt_ms / 1000)) in *.
    assert (H0 : 0 < Neuron.ATP s1).
    { revert Hd1. unfold s1, Neuron.forced_collapse. cbv zeta.
      match goal with |- context [if ?c then _ else _] =>
        destruct c eqn:E end.
      - rewrite kill_is_dead. discriminate.
      - intros _. apply orb_false_iff in E. destruct E as [E _].
        apply orb_false_iff in E. destruct E as [E _].
        apply leb_false in E. exact E. }
    assert (Hle : Neuron.ATP (after_atp s1 dt_ms i_ext)
                  <= Neuron.ATP s - 4.992 * (dt_ms / 1000)).
    { pose proof (after_atp_ATP_le s1 dt_ms i_ext) as Hle.
      rewrite Hmito, Hatp in Hle.
      assert (Hm : Neuron.mito s <= 100) by apply Hb.
      specialize (Hle ltac:(lra) Hm ltac:(lra)). lra. }
    destruct (leb (Neuron.ATP (after_atp s1 dt_ms i_ext)) 0.001).
    { intros H. apply Ok_pair_inj in H. destruct H as [<- _].
      left. apply (kill_is_dead (after_atp s1 dt_ms i_ext)). }
    destruct (leb (Neuron.health (after_damage s1 dt_ms i_ext)) 0).
    { intros H. apply Ok_pair_inj in H. destruct H as [<- _].
      left. apply (kill_is_dead (after_damage s1 dt_ms i_ext)). }
    intros H. apply Ok_pair_inj in H. destruct H as [<- _]. right.
    change (Neuron.ATP (after_damage s1 dt_ms i_ext)
            <= Neuron.ATP s - 4.992 * (dt_ms / 1000)).
    rewrite after_damage_ATP. exact Hle.
Qed.

Lemma forced_is_step (dt_ms : R) (calls : list call) :
  Forall (forced dt_ms) calls -> Forall is_step calls.
Proof.
  intros H. eapply Forall_impl; [|exact H].
  intros [dt i k g| |]; cbn; tauto.
Qed.

Lemma forced_run_drains (dt_ms : R) (calls : list call) :
  0 < dt_ms -> Forall (forced dt_ms) calls ->
  forall s, bounded s ->
  exists s' before,
    run s calls = Ok (s', before) /\
    bounded s' /\
    (Neuron.dead s' = true \/
     Neuron.ATP s'
     <= Neuron.ATP s - 4.992 * (dt_ms / 1000) * INR (length calls)).
Proof.
  intros Hdt Hall. induction Hall as [|c calls Hc Hall IH]; intros s Hb.
  - exists s, []. split; [reflexivity|]. split; [exact Hb|].
    right. cbn [length INR]. lra.
  - destruct (Neuron.dead s) eqn:Hd.
    + destruct (run_steps_of_dead (c :: calls)) with (s := s)
        as (s' & before & Hrun & Hd' & Hsame).
      * apply (forced_is_step dt_ms). constructor; assumption.
      * exact Hd.
      * exists s', before. split; [exact Hrun|]. split; [|left; exact Hd'].
        rewrite <- Hsame in Hb. exact Hb.
    + destruct c as [dt i k g| |]; try contradiction.
      destruct Hc as [-> ->].
      destruct (step_total s dt_ms i true g) as (s1 & r & Hs).
      pose proof (step_bounded s s1 dt_ms i r true g Hb Hs) as Hb1.
      destruct (IH s1 Hb1) as (s' & before & Hrun & Hb' & Hfin).
      exists s', (s :: before). split; [|split; [exact Hb'|]].
      * cbn [run do_call]. rewrite Hs. cbn [bind fst]. rewrite Hrun.
        reflexivity.
      * destruct Hfin as [Hfin|Hfin]; [left; exact Hfin|].
        destruct (forced_step_drains s s1 dt_ms i g r Hb Hd Hdt Hs)
          as [Hd1|Hdrain].
        -- left.
           destruct (run_steps_of_dead calls (forced_is_step dt_ms calls Hall)
                       s1 Hd1) as (s2 & before2 & Hrun2 & Hd2 & _).
           rewrite Hrun in Hrun2. apply Ok_pair_inj in Hrun2.
           destruct Hrun2 as [-> _]. exact Hd2.
        -- right. cbn [length]. rewrite S_INR.
           assert (0 <= INR (length calls)) by apply pos_INR. nra.
Qed.

Lemma run_reachable (calls : list call) :
  forall s s' before,
    reachable s -> run s calls = Ok (s', before) -> reachable s'.
Proof.
  induction calls as [|c calls IH]; intros s s' before Hr.
  - cbn [run]. intros H. apply Ok_pair_inj in H. destruct H as [<- _].
    exact Hr.
  - cbn [run]. destruct (do_call s c) as [s1|e] eqn:Hc; [|discriminate].
    cbn [bind]. destruct (run s1 calls) as [[s2 before2]|e] eqn:Hrun;
      [|discriminate].
    cbn [bind fst snd]. intros H. apply Ok_pair_inj in H.
    destruct H as [<- _]. apply (IH s1 s2 before2); [|exact Hrun].
    destruct c as [dt i k g| |]; cbn [do_call] in Hc.
    + destruct (Neuron.step s dt i k g) as [[s3 r]|e] eqn:Hs;
        [|discriminate].
      cbn [bind fst] in Hc. injection Hc as <-.
      eapply reachable_step; eassumption.
    + injection Hc as <-. apply reachable_kill. exact Hr.
    + injection Hc as <-. apply reachable_reset. exact Hr.
Qed.

(** X6.  Forced collapse ([step] with [kill_mode=True]) kills in bounded
    time: each such step with a positive time step either kills the neuron
    or lowers [ATP] by at least [4.992 * dt_sec] (the drain of 5 per second
    less the largest possible production), so from any reachable state every
    run of forced-collapse steps lasting [1/4.992] simulated seconds or more
    ends with [dead = true]. *)
Theorem X6_forced_collapse_kills (s : Neuron.state) (dt_ms : R)
  (calls : list call) :
  reachable s -> 0 < dt_ms -> Forall (forced dt_ms) calls ->
  1 <= 4.992 * (dt_ms / 1000) * INR (length calls) ->
  exists s' before,
    run s calls = Ok (s', before) /\ Neuron.dead s' = true.
Proof.
  intros Hr Hdt Hall Hlong.
  destruct (forced_run_drains dt_ms calls Hdt Hall s
              (reachable_bounded s Hr))
    as (s' & before & Hrun & Hb' & Hfin).
  exists s', before. split; [exact Hrun|].
  destruct Hfin as [Hd|Hatp]; [exact Hd|].
  destruct (Neuron.dead s') eqn:Hd; [reflexivity|].
  pose proof (run_reachable calls s s' before Hr Hrun) as Hr'.
  destruct (reachable_settled s' Hr') as (_ & _ & _ & Halive).
  destruct (Halive Hd) as [Hpos _].
  assert (Hle : Neuron.ATP s <= 1) by apply (reachable_bounded s Hr).
  lra.
Qed.

Lemma X6_forced_collapse_kills_witness :
  reachable Neuron.init /\ 0 < 100 /\
  Forall (forced 100)
    [Step 100 0 true 0; Step 100 5 true 0.1; Step 100 0 true 0] /\
  1 <= 4.992 * (100 / 1000) * INR 3 /\
  exists s' before,
    run Neuron.init
      [Step 100 0 true 0; Step 100 5 true 0.1; Step 100 0 true 0]
    = Ok (s', before) /\ Neuron.dead s' = true.
Proof.
  assert (Hdt : 0 < 100) by lra.
  assert (Hall : Forall (forced 100)
            [Step 100 0 true 0; Step 100 5 true 0.1; Step 100 0 true 0])
    by (repeat constructor).
  assert (Hlong : 1 <= 4.992 * (100 / 1000) * INR 3) by (simpl; lra).
  split; [apply reachable_init|]. split; [exact Hdt|].
  split; [exact Hall|]. split; [exact Hlong|].
  apply (X6_forced_collapse_kills Neuron.init 100 _ reachable_init Hdt Hall
           Hlong).
Defined.

(** ** The neuron: the rates and the gating update *)

Lemma rate_quotient_pos (c x : R) :
  0 < c -> x <> 0 -> 0 < c * x / (1 - exp (- x / 10)).
Proof.
  intros Hc Hx. destruct (Rdichotomy _ _ Hx) as [Hneg|Hpos].
  - assert (He : exp 0 < exp (- x / 10)) by (apply exp_increasing; lra).
    rewrite exp_0 in He.
    replace (c * x / (1 - exp (- x / 10)))
      with ((c * - x) * / (exp (- x / 10) - 1)).
    + apply Rmult_lt_0_compat; [nra|]. apply Rinv_0_lt_compat. lra.
    + replace (1 - exp (- x / 10)) with (- (exp (- x / 10) - 1)) by ring.
      unfold Rdiv. rewrite Rinv_opp. ring.
  - assert (He : exp (- x / 10) < exp 0) by (apply exp_increasing; lra).
    rewrite exp_0 in He.
    apply Rmult_lt_0_compat; [nra|]. apply Rinv_0_lt_compat. lra.
Qed.

Lemma alpha_m_of_pos (u : R) : 0 < alpha_m_of u.
Proof.
  unfold alpha_m_of. destruct (neqb u (-40)) eqn:E; [|lra].
  apply neqb_true in E. apply rate_quotient_pos; lra.
Qed.

Lemma alpha_n_of_pos (u : R) : 0 < alpha_n_of u.
Proof.
  unfold alpha_n_of. destruct (neqb u (-55)) eqn:E; [|lra].
  apply neqb_true in E. apply rate_quotient_pos; lra.
Qed.

Lemma beta_h_of_pos (u : R) : 0 < beta_h_of u < 1.
Proof.
  unfold beta_h_of. pose proof (exp_pos (- (u + 35) / 10)) as He.
  set (e := exp _) in *. clearbody e.
  assert (Hinv : 0 < / (1 + e)) by (apply Rinv_0_lt_compat; lra).
  assert (H1 : (1 + e) * / (1 + e) = 1) by (apply Rinv_r; lra).
  unfold Rdiv. split; nra.
Qed.

(** An explicit Euler step of [x' = a (1 - x) - b x] of size [k] stays in
    [0,1] when [k (a + b) <= 1]. *)
Lemma gate_step_in_range (x a b k : R) :
  0 <= x <= 1 -> 0 <= a -> 0 <= b -> 0 <= k -> k * (a + b) <= 1 ->
  0 <= x + (a * (1 - x) - b * x) * k <= 1.
Proof.
  intros Hx Ha Hb Hk Hs.
  replace (x + (a * (1 - x) - b * x) * k)
    with (x * (1 - k * (a + b)) + k * a) by ring.
  split.
  - apply Rplus_le_le_0_compat; apply Rmult_le_pos; lra.
  - assert (x * (1 - k * (a + b)) <= 1 * (1 - k * (a + b)))
      by (apply Rmult_le_compat_r; lra).
    assert (0 <= k * b) by (apply Rmult_le_pos; lra).
    lra.
Qed.

Lemma after_membrane_gates (s : Neuron.state) (dt_ms i : R) :
  let u := Neuron.v s in
  Neuron.m (after_membrane s dt_ms i)
  = Rmax 0 (Rmin 1 (Neuron.m s
      + (alpha_m_of u * (1 - Neuron.m s) - Neuron._beta_m u * Neuron.m s)
        * dt_ms * 0.5)) /\
  Neuron.h (after_membrane s dt_ms i)
  = Rmax 0 (Rmin 1 (Neuron.h s
      + (Neuron._alpha_h u * (1 - Neuron.h s) - beta_h_of u * Neuron.h s)
        * dt_ms * 0.5)) /\
  Neuron.n (after_membrane s dt_ms i)
  = Rmax 0 (Rmin 1 (Neuron.n s
      + (alpha_n_of u * (1 - Neuron.n s) - Neuron._beta_n u * Neuron.n s)
        * dt_ms * 0.5)).
Proof.
  destruct s. unfold after_membrane. neuron_fields.
  repeat split; reflexivity.
Qed.

Lemma step_gates (s s' : Neuron.state) (dt_ms i_ext g r : R) :
  Neuron.dead s = false ->
  Neuron.step s dt_ms i_ext false g = Ok (s', r) ->
  Neuron.m s' = Neuron.m (after_membrane s dt_ms i_ext) /\
  Neuron.h s' = Neuron.h (after_membrane s dt_ms i_ext) /\
  Neuron.n s' = Neuron.n (after_membrane s dt_ms i_ext).
Proof.
  intros Hd.
  assert (Ha : Neuron.m (after_atp s dt_ms i_ext)
               = Neuron.m (after_membrane s dt_ms i_ext) /\
               Neuron.h (after_atp s dt_ms i_ext)
               = Neuron.h (after_membrane s dt_ms i_ext) /\
               Neuron.n (after_atp s dt_ms i_ext)
               = Neuron.n (after_membrane s dt_ms i_ext)).
  { unfold after_atp.
    pose proof (calcium_fields (after_membrane s dt_ms i_ext)
                  (dt_ms / 1000)) as Hc.
    pose proof (atp_fields
                  (Neuron.calcium (after_membrane s dt_ms i_ext)
                     (dt_ms / 1000)) (dt_ms / 1000) i_ext) as Hatp.
    cbv zeta in Hc, Hatp.
    destruct Hc as (_ & Hc1 & Hc2 & Hc3 & _).
    destruct Hatp as (_ & Ha1 & Ha2 & Ha3 & _).
    rewrite Ha1, Ha2, Ha3, Hc1, Hc2, Hc3. repeat split; reflexivity. }
  assert (Hf : Neuron.m (after_damage s dt_ms i_ext)
               = Neuron.m (after_atp s dt_ms i_ext) /\
               Neuron.h (after_damage s dt_ms i_ext)
               = Neuron.h (after_atp s dt_ms i_ext) /\
               Neuron.n (after_damage s dt_ms i_ext)
               = Neuron.n (after_atp s dt_ms i_ext)).
  { unfold after_damage.
    pose proof (mitochondria_fields (after_atp s dt_ms i_ext)
                  (dt_ms / 1000) i_ext) as Hm.
    pose proof (damage_health_fields
                  (Neuron.mitochondria (after_atp s dt_ms i_ext)
                     (dt_ms / 1000) i_ext) (dt_ms / 1000)) as Hdh.
    cbv zeta in Hm, Hdh.
    destruct Hm as (_ & Hm1 & Hm2 & Hm3 & _).
    destruct Hdh as (_ & _ & Hd1 & Hd2 & Hd3 & _).
    rewrite Hd1, Hd2, Hd3, Hm1, Hm2, Hm3. repeat split; reflexivity. }
  destruct Ha as (Ha1 & Ha2 & Ha3). destruct Hf as (Hf1 & Hf2 & Hf3).
  rewrite step_alive by (rewrite entered_off; exact Hd).
  cbv zeta. rewrite entered_off.
  destruct (leb (Neuron.ATP (after_atp s dt_ms i_ext)) 0.001).
  { intros H. apply Ok_pair_inj in H. destruct H as [<- _].
    destruct (kill_gates (after_atp s dt_ms i_ext)) as (K1 & K2 & K3).
    change (Neuron.m (Neuron.kill (after_atp s dt_ms i_ext))
            = Neuron.m (after_membrane s dt_ms i_ext) /\
            Neuron.h (Neuron.kill (after_atp s dt_ms i_ext))
            = Neuron.h (after_membrane s dt_ms i_ext) /\
            Neuron.n (Neuron.kill (after_atp s dt_ms i_ext))
            = Neuron.n (after_membrane s dt_ms i_ext)).
    rewrite K1, K2, K3, Ha1, Ha2, Ha3. repeat split; reflexivity. }
  destruct (leb (Neuron.health (after_damage s dt_ms i_ext)) 0).
  { intros H. apply Ok_pair_inj in H. destruct H as [<- _].
    destruct (kill_gates (after_damage s dt_ms i_ext)) as (K1 & K2 & K3).
    change (Neuron.m (Neuron.kill (after_damage s dt_ms i_ext))
            = Neuron.m (after_membrane s dt_ms i_ext) /\
            Neuron.h (Neuron.kill (after_damage s dt_ms i_ext))
            = Neuron.h (after_membrane s dt_ms i_ext) /\
            Neuron.n (Neuron.kill (after_damage s dt_ms i_ext))
            = Neuron.n (after_membrane s dt_ms i_ext)).
    rewrite K1, K2, K3, Hf1, Hf2, Hf3, Ha1, Ha2, Ha3.
    repeat split; reflexivity. }
  intros H. apply Ok_pair_inj in H. destruct H as [<- _].
  change (Neuron.m (after_damage s dt_ms i_ext)
          = Neuron.m (after_membrane s dt_ms i_ext) /\
          Neuron.h (after_damage s dt_ms i_ext)
          = Neuron.h (after_membrane s dt_ms i_ext) /\
          Neuron.n (after_damage s dt_ms i_ext)
          = Neuron.n (after_membrane s dt_ms i_ext)).
  rewrite Hf1, Hf2, Hf3, Ha1, Ha2, Ha3. repeat split; reflexivity.
Qed.

Lemma rates_pos_all (u : R) :
  0 < alpha_m_of u /\ 0 < Neuron._beta_m u /\ 0 < Neuron._alpha_h u /\
  0 < beta_h_of u /\ 0 < alpha_n_of u /\ 0 < Neuron._beta_n u.
Proof.
  split; [apply alpha_m_of_pos|]. split; [apply beta_m_pos|].
  split; [unfold Neuron._alpha_h; pose proof (exp_pos (- (u + 65) / 20)); lra|].
  split; [apply beta_h_of_pos|]. split; [apply alpha_n_of_pos|].
  unfold Neuron._beta_n. pose proof (exp_pos (- (u + 65) / 80)). lra.
Qed.

(** X8.  The clamps of the gating variables are inactive for small steps:
    on an alive neuron within its ranges, when [dt_ms * 0.5 * (alpha +
    beta) <= 1] for each of the three pairs of rates at the current voltage,
    [step] leaves in [m], [h] and [n] exactly the Euler update
    [x + (alpha (1 - x) - beta x) * dt_ms * 0.5], whether or not the call
    ends by killing the neuron. *)
Theorem X8_gating_update_unclamped (s s' : Neuron.state)
  (dt_ms i_ext gauss r am bh an : R) :
  bounded s -> Neuron.dead s = false -> 0 <= dt_ms ->
  Neuron._alpha_m (Neuron.v s) = Ok am ->
  Neuron._beta_h (Neuron.v s) = Ok bh ->
  Neuron._alpha_n (Neuron.v s) = Ok an ->
  dt_ms * 0.5 * (am + Neuron._beta_m (Neuron.v s)) <= 1 ->
  dt_ms * 0.5 * (Neuron._alpha_h (Neuron.v s) + bh) <= 1 ->
  dt_ms * 0.5 * (an + Neuron._beta_n (Neuron.v s)) <= 1 ->
  Neuron.step s dt_ms i_ext false gauss = Ok (s', r) ->
  Neuron.m s' = Neuron.m s
    + (am * (1 - Neuron.m s) - Neuron._beta_m (Neuron.v s) * Neuron.m s)
      * dt_ms * 0.5 /\
  Neuron.h s' = Neuron.h s
    + (Neuron._alpha_h (Neuron.v s) * (1 - Neuron.h s) - bh * Neuron.h s)
      * dt_ms * 0.5 /\
  Neuron.n s' = Neuron.n s
    + (an * (1 - Neuron.n s) - Neuron._beta_n (Neuron.v s) * Neuron.n s)
      * dt_ms * 0.5.
Proof.
  intros Hb Hd Hdt Ham Hbh Han Hm Hh Hn Hs.
  rewrite alpha_m_value in Ham. injection Ham as <-.
  rewrite beta_h_value in Hbh. injection Hbh as <-.
  rewrite alpha_n_value in Han. injection Han as <-.
  destruct (step_gates s s' dt_ms i_ext gauss r Hd Hs) as (-> & -> & ->).
  destruct (after_membrane_gates s dt_ms i_ext) as (-> & -> & ->).
  destruct (rates_pos_all (Neuron.v s))
    as (Pam & Pbm & Pah & Pbh & Pan & Pbn).
  destruct Hb as (Bm & Bh & Bn & _).
  split; [|split]; rewrite clamp_id; try reflexivity.
  - replace ((alpha_m_of (Neuron.v s) * (1 - Neuron.m s)
              - Neuron._beta_m (Neuron.v s) * Neuron.m s) * dt_ms * 0.5)
      with ((alpha_m_of (Neuron.v s) * (1 - Neuron.m s)
             - Neuron._beta_m (Neuron.v s) * Neuron.m s) * (dt_ms * 0.5))
      by ring.
    apply gate_step_in_range; lra.
  - replace ((Neuron._alpha_h (Neuron.v s) * (1 - Neuron.h s)
              - beta_h_of (Neuron.v s) * Neuron.h s) * dt_ms * 0.5)
      with ((Neuron._alpha_h (Neuron.v s) * (1 - Neuron.h s)
             - beta_h_of (Neuron.v s) * Neuron.h s) * (dt_ms * 0.5))
      by ring.
    apply gate_step_in_range; lra.
  - replace ((alpha_n_of (Neuron.v s) * (1 - Neuron.n s)
              - Neuron._beta_n (Neuron.v s) * Neuron.n s) * dt_ms * 0.5)
      with ((alpha_n_of (Neuron.v s) * (1 - Neuron.n s)
             - Neuron._beta_n (Neuron.v s) * Neuron.n s) * (dt_ms * 0.5))
      by ring.
    apply gate_step_in_range; lra.
Qed.

Lemma rates_at_rest :
  Neuron._beta_m (-65) = 4 /\ Neuron._alpha_h (-65) = 0.07 /\
  Neuron._beta_n (-65) = 0.125 /\ 0 < alpha_n_of (-65) < 0.1.
Proof.
  unfold Neuron._beta_m, Neuron._alpha_h, Neuron._beta_n.
  replace (- (-65 + 65) / 18) with 0 by lra.
  replace (- (-65 + 65) / 20) with 0 by lra.
  replace (- (-65 + 65) / 80) with 0 by lra.
  rewrite exp_0. repeat split; try lra.
  - apply alpha_n_of_pos.
  - unfold alpha_n_of.
    replace (neqb (-65) (-55)) with true
      by (symmetry; apply neqb_true; lra).
    replace (- (-65 + 55) / 10) with 1 by lra.
    assert (He : 1 + 1 < exp 1) by (apply exp_ineq1; lra).
    set (D := 1 - exp 1). assert (HD : D < -1) by (unfold D; lra).
    clearbody D. unfold Rdiv.
    assert (Hinv : D * / D = 1) by (apply Rinv_r; lra).
    assert (Hneg : / D < 0) by (apply Rinv_lt_0_compat; lra).
    assert (Hlow : -1 < / D) by nra.
    lra.
Qed.

Lemma X8_gating_update_unclamped_witness :
  exists s' r,
    Neuron.step Neuron.init 0.025 10 false 0 = Ok (s', r) /\
    Neuron.m s' = 0.05
      + (alpha_m_of (-65) * (1 - 0.05) - Neuron._beta_m (-65) * 0.05)
        * 0.025 * 0.5.
Proof.
  destruct (step_total Neuron.init 0.025 10 false 0) as (s' & r & Hs).
  exists s', r. split; [exact Hs|].
  destruct rates_at_rest as (Hbm & Hah & Hbn & Han).
  pose proof alpha_m_rest as Ham.
  pose proof (beta_h_of_pos (-65)) as Hbh.
  assert (Hdt : 0 <= 0.025) by lra.
  assert (Cm : 0.025 * 0.5
               * (alpha_m_of (-65) + Neuron._beta_m (Neuron.v Neuron.init))
               <= 1)
    by (change (Neuron.v Neuron.init) with (-65); rewrite Hbm; lra).
  assert (Ch : 0.025 * 0.5
               * (Neuron._alpha_h (Neuron.v Neuron.init) + beta_h_of (-65))
               <= 1)
    by (change (Neuron.v Neuron.init) with (-65); rewrite Hah; lra).
  assert (Cn : 0.025 * 0.5
               * (alpha_n_of (-65) + Neuron._beta_n (Neuron.v Neuron.init))
               <= 1)
    by (change (Neuron.v Neuron.init) with (-65); rewrite Hbn; lra).
  exact (proj1 (X8_gating_update_unclamped Neuron.init s' 0.025 10 0 r
                  (alpha_m_of (-65)) (beta_h_of (-65)) (alpha_n_of (-65))
                  init_bounded eq_refl Hdt
                  (alpha_m_value (-65)) (beta_h_value (-65))
                  (alpha_n_value (-65)) Cm Ch Cn Hs)).
Defined.

(** ** The stimulation generator: modes and the manual step *)

Lemma known_mode_In (x : string) :
  Stimulator.known_mode x = true -> In x Stimulator.MODES.
Proof.
  unfold Stimulator.known_mode. intros H.
  apply existsb_exists in H. destruct H as (y & Hin & Heq).
  apply String.eqb_eq in Heq. subst y. exact Hin.
Qed.

(** [current_at] in full: its value and what it does to the object. *)
Lemma current_at_cases (s : Stimulator.state) (t : R) :
  exists s' i,
    Stimulator.current_at s t = Ok (s', i) /\
    (i = 0 \/ i = Stimulator.amplitude s) /\
    (s' = s \/
     (Stimulator.mode s = "STEP"%string /\
      Stimulator.step_active s = true /\
      s' = Stimulator.set_step_active false s /\ i = 0)).
Proof.
  unfold Stimulator.current_at.
  destruct (Stimulator.mode s =? "OFF")%string; [eauto 8|].
  destruct (Stimulator.mode s =? "STEP")%string eqn:Estep.
  { apply String.eqb_eq in Estep. unfold Stimulator._step_current.
    destruct (Stimulator.step_active s) eqn:Eact; cbn [negb]; [|eauto 8].
    cbv zeta. destruct (_ && _); eauto 10. }
  cbv zeta.
  destruct (Stimulator.mode s =? "CONSTANT")%string; [eauto 8|].
  destruct (Stimulator.mode s =? "PULSE")%string; [|eauto 8].
  destruct (leb (Stimulator.frequency s) 0) eqn:Ef; [cbn [orb]; eauto 8|].
  cbn [orb].
  destruct (ltb (t - Stimulator.protocol_start_time s) 0); [eauto 8|].
  apply leb_false in Ef. rewrite py_div_ok by lra. cbn [bind].
  destruct (leb (1000 / Stimulator.frequency s) 0) eqn:Ep; [eauto 8|].
  apply leb_false in Ep.
  destruct (py_mod_total (t - Stimulator.protocol_start_time s)
              (1000 / Stimulator.frequency s)) as (r & ->); [lra|].
  cbn [bind]. destruct (ltb r _); eauto 8.
Qed.

(** X10.  [current_at] always returns, and its value is either 0 or the
    amplitude.  It leaves the stimulator as it is, except in STEP mode with
    an armed step queried outside its window, where it clears
    [step_active] (and returns 0): the waveform is a pure function of the
    time in every other mode. *)
Theorem X10_current_is_zero_or_amplitude (s : Stimulator.state) (t : R) :
  exists s' i,
    Stimulator.current_at s t = Ok (s', i) /\
    (i = 0 \/ i = Stimulator.amplitude s) /\
    (s' = s \/
     (Stimulator.mode s = "STEP"%string /\
      Stimulator.step_active s = true /\
      s' = Stimulator.set_step_active false s /\ i = 0)).
Proof. apply current_at_cases. Qed.

Lemma stim_reachable_fixed (s : Stimulator.state) :
  stim_reachable s ->
  In (Stimulator.mode s) Stimulator.MODES /\
  Stimulator.frequency s = 10 /\ Stimulator.pulse_width s = 5 /\
  Stimulator.step_duration s = 5.
Proof.
  induction 1 as [|s x t Hr IH|s t Hr IH|s a Hr IH|s s' t i Hr IH Hc].
  - cbn. repeat split; try reflexivity. left. reflexivity.
  - unfold Stimulator.set_mode.
    destruct (Stimulator.known_mode x) eqn:E; [|exact IH].
    split; [apply known_mode_In; exact E|]. apply IH.
  - exact IH.
  - exact IH.
  - destruct (current_at_cases s t) as (s1 & i1 & Hc1 & _ & Hs).
    rewrite Hc in Hc1. apply Ok_pair_inj in Hc1. destruct Hc1 as [<- _].
    destruct Hs as [->|(_ & _ & -> & _)]; exact IH.
Qed.

(** X9.  Whatever is done to a stimulator, its mode stays one of OFF,
    CONSTANT, STEP and PULSE (so the final [return 0.0] of [current_at] is
    never reached) and its waveform parameters keep the values of
    [__init__]: frequency 10, pulse width 5 and step duration 5. *)
Theorem X9_stimulator_parameters_are_fixed (s : Stimulator.state) :
  stim_reachable s ->
  In (Stimulator.mode s) Stimulator.MODES /\
  Stimulator.frequency s = 10 /\ Stimulator.pulse_width s = 5 /\
  Stimulator.step_duration s = 5.
Proof. apply stim_reachable_fixed. Qed.

Lemma X9_stimulator_parameters_are_fixed_witness :
  let s := Stimulator.trigger_step
             (Stimulator.set_amplitude 25
                (Stimulator.set_mode Stimulator.init "STEP" 40)) 50 in
  stim_reachable s /\
  In (Stimulator.mode s) Stimulator.MODES /\
  Stimulator.frequency s = 10 /\ Stimulator.pulse_width s = 5 /\
  Stimulator.step_duration s = 5.
Proof.
  cbv zeta.
  assert (Hr : stim_reachable
                 (Stimulator.trigger_step
                    (Stimulator.set_amplitude 25
                       (Stimulator.set_mode Stimulator.init "STEP" 40)) 50)).
  { apply stim_reachable_trigger_step, stim_reachable_amplitude,
      stim_reachable_set_mode, stim_reachable_init. }
  split; [exact Hr|].
  apply X9_stimulator_parameters_are_fixed. exact Hr.
Defined.

Lemma step_mode_current (s : Stimulator.state) (t : R) :
  Stimulator.mode s = "STEP"%string ->
  Stimulator.current_at s t = Ok (Stimulator._step_current s t).
Proof.
  intros Hmode. unfold Stimulator.current_at. rewrite Hmode.
  change ("STEP" =? "OFF")%string with false.
  change ("STEP" =? "STEP")%string with true.
  reflexivity.
Qed.

(** X13.  The edges of the pulse width: in PULSE mode with a positive
    frequency and [t] not before the protocol start, a pulse width of a
    whole period or more makes the current constantly the amplitude, and a
    pulse width of 0 or less makes it constantly 0. *)
Theorem X13_pulse_width_edges (s : Stimulator.state) (t : R) :
  Stimulator.mode s = "PULSE"%string ->
  0 < Stimulator.frequency s ->
  Stimulator.protocol_start_time s <= t ->
  (1000 / Stimulator.frequency s <= Stimulator.pulse_width s ->
   Stimulator.current_at s t = Ok (s, Stimulator.amplitude s)) /\
  (Stimulator.pulse_width s <= 0 ->
   Stimulator.current_at s t = Ok (s, 0)).
Proof.
  intros Hmode Hf Ht.
  destruct (pulse_current s t Hmode Hf Ht) as [Hph Hc].
  cbv zeta in Hph, Hc. rewrite Hc. clear Hc.
  set (phase := _ - _ * _) in *. clearbody phase.
  split; intros Hw.
  - replace (ltb phase _) with true; [reflexivity|].
    symmetry. apply ltb_true. unfold Rmin.
    destruct (Rle_dec (Stimulator.pulse_width s) _); lra.
  - replace (ltb phase _) with false; [reflexivity|].
    symmetry. apply ltb_false. unfold Rmin.
    destruct (Rle_dec (Stimulator.pulse_width s) _); lra.
Qed.

Lemma X13_pulse_width_edges_witness :
  let s := Stimulator.set_pulse_width 250
             (Stimulator.set_mode Stimulator.init "PULSE" 0) in
  Stimulator.mode s = "PULSE"%string /\
  0 < Stimulator.frequency s /\
  Stimulator.protocol_start_time s <= 42 /\
  1000 / Stimulator.frequency s <= Stimulator.pulse_width s /\
  Stimulator.current_at s 42 = Ok (s, Stimulator.amplitude s).
Proof.
  cbv zeta.
  assert (Hf : 0 < Stimulator.frequency
                     (Stimulator.set_pulse_width 250
                        (Stimulator.set_mode Stimulator.init "PULSE" 0)))
    by (cbn; lra).
  assert (Ht : Stimulator.protocol_start_time
                 (Stimulator.set_pulse_width 250
                    (Stimulator.set_mode Stimulator.init "PULSE" 0)) <= 42)
    by (cbn; lra).
  assert (Hw : 1000 / Stimulator.frequency
                        (Stimulator.set_pulse_width 250
                           (Stimulator.set_mode Stimulator.init "PULSE" 0))
               <= Stimulator.pulse_width
                    (Stimulator.set_pulse_width 250
                       (Stimulator.set_mode Stimulator.init "PULSE" 0)))
    by (cbn; lra).
  split; [reflexivity|]. split; [exact Hf|]. split; [exact Ht|].
  split; [exact Hw|].
  apply (proj1 (X13_pulse_width_edges
                  (Stimulator.set_pulse_width 250
                     (Stimulator.set_mode Stimulator.init "PULSE" 0))
                  42 eq_refl Hf Ht) Hw).
Defined.

(** X14.  [set_mode] with a name outside [MODES] changes nothing.  With a
    known mode it cancels a pending manual step: after a switch to STEP
    every query returns 0 and leaves the object alone, until
    [trigger_step]; and it restarts the phase: after a switch to PULSE at
    [t0], with positive frequency and pulse width, the current at [t0]
    itself is the amplitude. *)
Theorem X14_set_mode_restarts (s : Stimulator.state) (x : string)
  (t0 t : R) :
  (Stimulator.known_mode x = false -> Stimulator.set_mode s x t0 = s) /\
  Stimulator.current_at (Stimulator.set_mode s "STEP" t0) t
  = Ok (Stimulator.set_mode s "STEP" t0, 0) /\
  (0 < Stimulator.frequency s -> 0 < Stimulator.pulse_width s ->
   Stimulator.current_at (Stimulator.set_mode s "PULSE" t0) t0
   = Ok (Stimulator.set_mode s "PULSE" t0, Stimulator.amplitude s)).
Proof.
  split; [|split].
  - intros Hx. unfold Stimulator.set_mode. rewrite Hx. reflexivity.
  - rewrite step_mode_current by reflexivity. reflexivity.
  - intros Hf Hw.
    assert (Hp : 0 < 1000 / Stimulator.frequency s)
      by (apply Rmult_lt_0_compat; [lra | apply Rinv_0_lt_compat; exact Hf]).
    rewrite (pulse_current_in_period (Stimulator.set_mode s "PULSE" t0) t0 0).
    + change (Stimulator.frequency (Stimulator.set_mode s "PULSE" t0))
        with (Stimulator.frequency s).
      change (Stimulator.pulse_width (Stimulator.set_mode s "PULSE" t0))
        with (Stimulator.pulse_width s).
      change (Stimulator.amplitude (Stimulator.set_mode s "PULSE" t0))
        with (Stimulator.amplitude s).
      change (Stimulator.protocol_start_time
                (Stimulator.set_mode s "PULSE" t0)) with t0.
      replace (ltb _ _) with true; [reflexivity|].
      symmetry. apply ltb_true. unfold Rmin.
      destruct (Rle_dec (Stimulator.pulse_width s) _); lra.
    + reflexivity.
    + exact Hf.
    + change (Stimulator.protocol_start_time
                (Stimulator.set_mode s "PULSE" t0)) with t0. lra.
    + change (Stimulator.frequency (Stimulator.set_mode s "PULSE" t0))
        with (Stimulator.frequency s).
      change (Stimulator.protocol_start_time
                (Stimulator.set_mode s "PULSE" t0)) with t0.
      lra.
Qed.

Lemma X14_set_mode_restarts_witness :
  Stimulator.known_mode "RAMP" = false /\
  Stimulator.set_mode Stimulator.init "RAMP" 3 = Stimulator.init /\
  0 < Stimulator.frequency Stimulator.init /\
  0 < Stimulator.pulse_width Stimulator.init /\
  Stimulator.current_at (Stimulator.set_mode Stimulator.init "PULSE" 3) 3
  = Ok (Stimulator.set_mode Stimulator.init "PULSE" 3,
        Stimulator.amplitude Stimulator.init).
Proof.
  assert (Hf : 0 < Stimulator.frequency Stimulator.init) by (cbn; lra).
  assert (Hw : 0 < Stimulator.pulse_width Stimulator.init) by (cbn; lra).
  split; [reflexivity|].
  split.
  - apply (proj1 (X14_set_mode_restarts Stimulator.init "RAMP" 3 0)).
    reflexivity.
  - split; [exact Hf|]. split; [exact Hw|].
    apply (proj2 (proj2 (X14_set_mode_restarts Stimulator.init "RAMP" 3 0))
             Hf Hw).
Defined.

(** ** The quantizer for any range and bit depth *)

Lemma py_round_mono (x y : R) : x <= y -> (py_round x <= py_round y)%Z.
Proof.
  intros Hxy.
  pose proof (Zfloor_bound x) as [Hxlo Hxhi].
  pose proof (Zfloor_bound y) as [Hylo Hyhi].
  pose proof (Zfloor_le x y Hxy) as Hfl.
  assert (Hrx : (Zfloor x <= py_round x <= Zfloor x + 1)%Z).
  { unfold py_round. repeat destruct (Rlt_dec _ _); try lia.
    destruct (Z.even _); lia. }
  assert (Hry : (Zfloor y <= py_round y <= Zfloor y + 1)%Z).
  { unfold py_round. repeat destruct (Rlt_dec _ _); try lia.
    destruct (Z.even _); lia. }
  destruct (Z.eq_dec (Zfloor x) (Zfloor y)) as [Heq|Hne]; [|lia].
  unfold py_round. rewrite <- Heq in *.
  destruct (Rlt_dec (x - IZR (Zfloor x)) (1 / 2)) as [Hdx|Hdx].
  - repeat destruct (Rlt_dec _ _); try lia. destruct (Z.even _); lia.
  - destruct (Rlt_dec (y - IZR (Zfloor x)) (1 / 2)) as [Hdy|Hdy]; [lra|].
    destruct (Rlt_dec (1 / 2) (x - IZR (Zfloor x))) as [Hx2|Hx2].
    + destruct (Rlt_dec (1 / 2) (y - IZR (Zfloor x))); [lia|lra].
    + destruct (Rlt_dec (1 / 2) (y - IZR (Zfloor x))).
      * destruct (Z.even _); lia.
      * destruct (Z.even _); lia.
Qed.

Lemma py_pow2_whole (k : Z) :
  (0 <= k)%Z -> exists n : Z, (1 <= n)%Z /\ py_pow2 k = IZR n.
Proof.
  intros Hk. unfold py_pow2. destruct k as [|p|p]; [| |lia].
  - exists 1%Z. split; [lia|reflexivity].
  - exists (2 ^ Z.of_nat (Pos.to_nat p))%Z. split.
    + assert (0 < 2 ^ Z.of_nat (Pos.to_nat p))%Z
        by (apply Z.pow_pos_nonneg; lia).
      lia.
    + cbn [powerRZ]. rewrite <- pow_IZR. reflexivity.
Qed.

(** [quantize] with a non-empty range, and the grid it rounds to. *)
Lemma quantize_value (d : DAQ.state) (val : R) :
  fst (DAQ.voltage_range d) <> snd (DAQ.voltage_range d) ->
  let lo := fst (DAQ.voltage_range d) in
  let hi := snd (DAQ.voltage_range d) in
  let step_size := (hi - lo) / py_pow2 (DAQ.adc_bits d) in
  DAQ.quantize d val
  = Ok (IZR (py_round ((Rmax lo (Rmin val hi) - lo) / step_size))
        * step_size + lo).
Proof.
  intros Hrange. unfold DAQ.quantize.
  destruct (DAQ.voltage_range d) as [lo hi]. cbn [fst snd] in *.
  assert (Hsteps : py_pow2 (DAQ.adc_bits d) <> 0)
    by (apply powerRZ_NOR; lra).
  cbv zeta. rewrite py_div_ok by exact Hsteps. cbn [bind].
  rewrite py_div_ok; [reflexivity|].
  unfold Rdiv. apply Rmult_integral_contrapositive_currified; [lra|].
  apply Rinv_neq_0_compat. exact Hsteps.
Qed.

(** The facts about the grid of a well-formed channel that the properties
    of [quantize] rest on. *)
Lemma quantize_grid (d : DAQ.state) (val : R) :
  fst (DAQ.voltage_range d) < snd (DAQ.voltage_range d) ->
  (0 <= DAQ.adc_bits d)%Z ->
  let lo := fst (DAQ.voltage_range d) in
  let hi := snd (DAQ.voltage_range d) in
  let step_size := (hi - lo) / py_pow2 (DAQ.adc_bits d) in
  let x := Rmax lo (Rmin val hi) in
  exists (n k : Z),
    (1 <= n)%Z /\ 0 < step_size /\ IZR n * step_size = hi - lo /\
    lo <= x <= hi /\
    k = py_round ((x - lo) / step_size) /\ (0 <= k <= n)%Z /\
    (x - lo) / step_size * step_size = x - lo /\
    DAQ.quantize d val = Ok (IZR k * step_size + lo).
Proof.
  intros Hrange Hbits lo hi step_size x.
  destruct (py_pow2_whole _ Hbits) as (n & Hn & Hpow).
  assert (Hn0 : 0 < IZR n) by (apply IZR_lt; lia).
  assert (Hstep : 0 < step_size).
  { unfold step_size. rewrite Hpow. apply Rmult_lt_0_compat;
      [unfold lo, hi; lra | apply Rinv_0_lt_compat; exact Hn0]. }
  assert (Hfull : IZR n * step_size = hi - lo).
  { unfold step_size. rewrite Hpow. unfold Rdiv.
    rewrite (Rmult_comm (hi - lo)), <- Rmult_assoc, Rinv_r by lra. ring. }
  assert (Hx : lo <= x <= hi).
  { unfold x, Rmax, Rmin, lo, hi.
    destruct (Rle_dec val _); destruct (Rle_dec _ _); lra. }
  assert (Hq : (x - lo) / step_size * step_size = x - lo)
    by (unfold Rdiv; rewrite Rmult_assoc, Rinv_l; lra).
  exists n, (py_round ((x - lo) / step_size)).
  split; [exact Hn|]. split; [exact Hstep|]. split; [exact Hfull|].
  split; [exact Hx|]. split; [reflexivity|]. split.
  - apply py_round_bounds. cbn [IZR]. split.
    + apply Rmult_le_pos; [lra|]. left. apply Rinv_0_lt_compat. exact Hstep.
    + apply Rmult_le_reg_r with step_size; [exact Hstep|].
      rewrite Hq, Hfull. lra.
  - split; [exact Hq|].
    apply quantize_value. apply Rlt_not_eq. exact Hrange.
Qed.

(** X16.  Quantising is idempotent: a value [quantize] returned is a grid
    point, and quantising it again returns it unchanged. *)
Theorem X16_quantize_is_idempotent (d : DAQ.state) (val : R) :
  fst (DAQ.voltage_range d) < snd (DAQ.voltage_range d) ->
  (0 <= DAQ.adc_bits d)%Z ->
  exists q, DAQ.quantize d val = Ok q /\ DAQ.quantize d q = Ok q.
Proof.
  intros Hrange Hbits.
  destruct (quantize_grid d val Hrange Hbits)
    as (n & k & Hn & Hstep & Hfull & Hx & Hk & Hkn & Hq & Hquant).
  cbv zeta in *.
  set (lo := fst (DAQ.voltage_range d)) in *.
  set (hi := snd (DAQ.voltage_range d)) in *.
  set (step_size := (hi - lo) / py_pow2 (DAQ.adc_bits d)) in *.
  exists (IZR k * step_size + lo). split; [exact Hquant|].
  rewrite quantize_value by (apply Rlt_not_eq; exact Hrange).
  cbv zeta. fold lo hi step_size.
  assert (Hin : lo <= IZR k * step_size + lo <= hi).
  { destruct Hkn as [Hk0 Hk1]. apply IZR_le in Hk0. apply IZR_le in Hk1.
    split; nra. }
  assert (Hclamp : Rmax lo (Rmin (IZR k * step_size + lo) hi)
                   = IZR k * step_size + lo).
  { unfold Rmax, Rmin. destruct (Rle_dec _ hi); destruct (Rle_dec lo _); lra. }
  rewrite Hclamp.
  replace ((IZR k * step_size + lo - lo) / step_size) with (IZR k)
    by (unfold Rdiv; replace (IZR k * step_size + lo - lo)
          with (IZR k * step_size) by ring;
        rewrite Rmult_assoc, Rinv_r by lra; ring).
  rewrite py_round_IZR. reflexivity.
Qed.

Lemma X16_quantize_is_idempotent_witness :
  fst (DAQ.voltage_range DAQ.init) < snd (DAQ.voltage_range DAQ.init) /\
  (0 <= DAQ.adc_bits DAQ.init)%Z /\
  exists q,
    DAQ.quantize DAQ.init (-64.2) = Ok q /\ DAQ.quantize DAQ.init q = Ok q.
Proof.
  assert (Hr : fst (DAQ.voltage_range DAQ.init)
               < snd (DAQ.voltage_range DAQ.init)) by (cbn; lra).
  assert (Hb : (0 <= DAQ.adc_bits DAQ.init)%Z) by (cbn; lia).
  split; [exact Hr|]. split; [exact Hb|].
  apply (X16_quantize_is_idempotent DAQ.init (-64.2) Hr Hb).
Defined.

(** X18.  Quantising preserves order: a larger input never gives a smaller
    output. *)
Theorem X18_quantize_is_monotone (d : DAQ.state) (val1 val2 : R) :
  fst (DAQ.voltage_range d) < snd (DAQ.voltage_range d) ->
  (0 <= DAQ.adc_bits d)%Z ->
  val1 <= val2 ->
  exists q1 q2,
    DAQ.quantize d val1 = Ok q1 /\ DAQ.quantize d val2 = Ok q2 /\ q1 <= q2.
Proof.
  intros Hrange Hbits Hle.
  destruct (quantize_grid d val1 Hrange Hbits)
    as (n & k1 & Hn & Hstep & _ & _ & Hk1 & _ & _ & Hq1).
  destruct (quantize_grid d val2 Hrange Hbits)
    as (_ & k2 & _ & _ & _ & _ & Hk2 & _ & _ & Hq2).
  cbv zeta in *.
  set (lo := fst (DAQ.voltage_range d)) in *.
  set (hi := snd (DAQ.voltage_range d)) in *.
  set (step_size := (hi - lo) / py_pow2 (DAQ.adc_bits d)) in *.
  exists (IZR k1 * step_size + lo), (IZR k2 * step_size + lo).
  split; [exact Hq1|]. split; [exact Hq2|].
  assert (Hk : (k1 <= k2)%Z).
  { rewrite Hk1, Hk2. apply py_round_mono.
    apply Rmult_le_compat_r; [left; apply Rinv_0_lt_compat; exact Hstep|].
    apply Rplus_le_compat_r. unfold Rmax, Rmin.
    destruct (Rle_dec val1 hi); destruct (Rle_dec val2 hi);
      repeat destruct (Rle_dec lo _); lra. }
  apply IZR_le in Hk. nra.
Qed.

Lemma X18_quantize_is_monotone_witness :
  fst (DAQ.voltage_range DAQ.init) < snd (DAQ.voltage_range DAQ.init) /\
  (0 <= DAQ.adc_bits DAQ.init)%Z /\ -70 <= 30.5 /\
  exists q1 q2,
    DAQ.quantize DAQ.init (-70) = Ok q1 /\
    DAQ.quantize DAQ.init 30.5 = Ok q2 /\ q1 <= q2.
Proof.
  assert (Hr : fst (DAQ.voltage_range DAQ.init)
               < snd (DAQ.voltage_range DAQ.init)) by (cbn; lra).
  assert (Hb : (0 <= DAQ.adc_bits DAQ.init)%Z) by (cbn; lia).
  assert (Hv : -70 <= 30.5) by lra.
  split; [exact Hr|]. split; [exact Hb|]. split; [exact Hv|].
  apply (X18_quantize_is_monotone DAQ.init (-70) 30.5 Hr Hb Hv).
Defined.

(** ** The orchestrator: event detection *)

(** Names the value of the outermost [let] under a predicate. *)
Ltac name_let_under P :=
  lazymatch goal with
  | |- P (let x := ?a in @?b x) =>
      let y := fresh "st" in
      pose (y := a); change (P (b y)); cbv beta
  end.

(** [update_event_logs] test by test. *)
Lemma update_event_logs_unfold (s : MainWindow.state)
  (P : MainWindow.state -> Prop) :
  (Neuron.dead (MainWindow.neuron s) && MainWindow.running s = true ->
   P (MainWindow.set_running false (MainWindow.log s MainWindow.CellDied))) ->
  (Neuron.dead (MainWindow.neuron s) && MainWindow.running s = false ->
   forall st0 st1 st2 st3 st4 st5,
     st0 = flag_stage
             (ltb (Neuron.ATP (MainWindow.neuron s)) 0.3
              && negb (Neuron.flag_atp_low (MainWindow.neuron s)))
             (Neuron.set_flag_atp_low true) MainWindow.AtpLow s ->
     st1 = flag_stage
             (ltb 1 (Neuron.Ca (MainWindow.neuron st0))
              && negb (Neuron.flag_ca_high (MainWindow.neuron st0)))
             (Neuron.set_flag_ca_high true) MainWindow.CaHigh st0 ->
     st2 = flag_stage
             (ltb (Neuron.mito (MainWindow.neuron st1)) 80
              && negb (Neuron.flag_mito_stress (MainWindow.neuron st1)))
             (Neuron.set_flag_mito_stress true) MainWindow.MitoStress st1 ->
     st3 = flag_stage
             (ltb (Neuron.integrity (MainWindow.neuron st2)) 60
              && negb (Neuron.flag_integrity_low (MainWindow.neuron st2)))
             (Neuron.set_flag_integrity_low true) MainWindow.IntegrityLow
             st2 ->
     st4 = flag_stage
             (ltb 20 (Neuron.damage (MainWindow.neuron st3))
              && negb (Neuron.flag_damage_high (MainWindow.neuron st3)))
             (Neuron.set_flag_damage_high true) MainWindow.DamageHigh st3 ->
     st5 = flag_stage
             (ltb (Neuron.ATP (MainWindow.neuron st4)) 0.2
              && ltb 0.5 (Neuron.Ca (MainWindow.neuron st4))
              && negb (Stimulator.mode (MainWindow.stim s) =? "OFF")%string
              && negb (Neuron.flag_cascade (MainWindow.neuron st4)))
             (Neuron.set_flag_cascade true) MainWindow.Cascade st4 ->
     P (recovery_stage st5)) ->
  P (MainWindow.update_event_logs s).
Proof.
  intros Hdead Hlive.
  cbv beta delta [MainWindow.update_event_logs].
  name_let_under P.
  destruct (Neuron.dead (MainWindow.neuron s) && MainWindow.running s) eqn:E.
  - apply Hdead. reflexivity.
  - do 6 name_let_under P.
    apply (Hlive eq_refl st0 st1 st2 st3 st4 st5); reflexivity.
Qed.

Lemma flag_stage_log (c : bool) (f : Neuron.state -> Neuron.state)
  (msg : MainWindow.notification) (s : MainWindow.state) :
  MainWindow.log_widget (flag_stage c f msg s)
  = MainWindow.log_widget s
    ++ (if c then [(MainWindow.time_ms s / 1000, msg)] else []) /\
  MainWindow.neuron (flag_stage c f msg s)
  = (if c then f (MainWindow.neuron s) else MainWindow.neuron s).
Proof.
  unfold flag_stage. destruct c.
  - split; reflexivity.
  - rewrite app_nil_r. split; reflexivity.
Qed.

Lemma latch_pending_refl (F : Neuron.state -> bool)
  (M : MainWindow.notification) (s : MainWindow.state) :
  latch_pending F M s s.
Proof.
  exists []. rewrite app_nil_r. repeat split; try reflexivity.
  intros H. exact H.
Qed.

Lemma latch_pending_other (F : Neuron.state -> bool)
  (M M' : MainWindow.notification) (c : bool)
  (f : Neuron.state -> Neuron.state) (s st : MainWindow.state) :
  latch_pending F M s st ->
  M' <> M ->
  (forall x, F (f x) = F x) ->
  latch_pending F M s (flag_stage c f M' st).
Proof.
  intros (entries & Hlog & Hno & Hflag) Hne Hf.
  destruct (flag_stage_log c f M' st) as [Hl Hn].
  exists (entries ++ (if c then [(MainWindow.time_ms st / 1000, M')] else [])).
  split; [|split].
  - rewrite Hl, Hlog, app_assoc. reflexivity.
  - unfold logged in *. rewrite map_app, in_app_iff.
    intros [H|H]; [exact (Hno H)|].
    destruct c; cbn in H; [|exact H].
    destruct H as [H|H]; [exact (Hne H)|exact H].
  - rewrite Hn. destruct c; [rewrite Hf|]; exact Hflag.
Qed.

Lemma latch_kept_own (F : Neuron.state -> bool)
  (M : MainWindow.notification) (c : bool)
  (f : Neuron.state -> Neuron.state) (s st : MainWindow.state) :
  latch_pending F M s st ->
  (forall x, F (f x) = true) ->
  (c = true -> F (MainWindow.neuron st) = false) ->
  latch_kept F M s (flag_stage c f M st).
Proof.
  intros (entries & Hlog & Hno & Hflag) Hf Hc.
  destruct (flag_stage_log c f M st) as [Hl Hn].
  exists (entries ++ (if c then [(MainWindow.time_ms st / 1000, M)] else [])).
  split; [|split].
  - rewrite Hl, Hlog, app_assoc. reflexivity.
  - intros Hset. destruct c.
    + rewrite Hflag in Hc. rewrite (Hc eq_refl) in Hset. discriminate.
    + rewrite Hn, Hflag. split; [exact Hset|].
      unfold logged in *. rewrite app_nil_r. exact Hno.
  - unfold logged. rewrite map_app, in_app_iff.
    intros [H|H]; [exfalso; exact (Hno H)|].
    destruct c; cbn in H; [|contradiction].
    rewrite <- Hflag, Hn, Hf. split; [apply Hc|]; reflexivity.
Qed.

Lemma latch_kept_other (F : Neuron.state -> bool)
  (M M' : MainWindow.notification) (c : bool)
  (f : Neuron.state -> Neuron.state) (s st : MainWindow.state) :
  latch_kept F M s st ->
  M' <> M ->
  (forall x, F (f x) = F x) ->
  latch_kept F M s (flag_stage c f M' st).
Proof.
  intros (entries & Hlog & Hset & Hlogged) Hne Hf.
  destruct (flag_stage_log c f M' st) as [Hl Hn].
  assert (Hflag : F (MainWindow.neuron (flag_stage c f M' st))
                  = F (MainWindow.neuron st))
    by (rewrite Hn; destruct c; [apply Hf|reflexivity]).
  assert (Hsame : logged M (entries
                    ++ (if c then [(MainWindow.time_ms st / 1000, M')]
                        else [])) -> logged M entries).
  { unfold logged. rewrite map_app, in_app_iff. intros [H|H]; [exact H|].
    destruct c; cbn in H; [|contradiction].
    destruct H as [H|H]; [exfalso; exact (Hne H)|contradiction]. }
  exists (entries ++ (if c then [(MainWindow.time_ms st / 1000, M')] else [])).
  split; [|split].
  - rewrite Hl, Hlog, app_assoc. reflexivity.
  - intros H. destruct (Hset H) as [H1 H2]. rewrite Hflag.
    split; [exact H1|]. intros H3. exact (H2 (Hsame H3)).
  - intros H. rewrite Hflag. apply Hlogged, Hsame, H.
Qed.

Lemma latch_kept_recovery (F : Neuron.state -> bool)
  (M : MainWindow.notification) (s st : MainWindow.state) :
  latch_kept F M s st ->
  (forall r, MainWindow.Recovery r <> M) ->
  latch_kept F M s (recovery_stage st).
Proof.
  intros Hk Hne. unfold recovery_stage.
  destruct (MainWindow.last_step_time_ms st) as [last|]; [|exact Hk].
  match goal with |- context [if ?c then _ else _] => destruct c end;
    [|exact Hk].
  destruct Hk as (entries & Hlog & Hset & Hlogged).
  set (e := (MainWindow.time_ms st / 1000,
             MainWindow.Recovery (MainWindow.time_ms st - last))).
  assert (Hsame : logged M (entries ++ [e]) -> logged M entries).
  { unfold logged. rewrite map_app, in_app_iff. intros [H|H]; [exact H|].
    cbn in H. destruct H as [H|H]; [exfalso; exact (Hne _ H)|contradiction]. }
  exists (entries ++ [e]). split; [|split].
  - change (MainWindow.log_widget st ++ [e]
            = MainWindow.log_widget s ++ entries ++ [e]).
    rewrite Hlog, app_assoc. reflexivity.
  - intros H. destruct (Hset H) as [H1 H2].
    split; [exact H1|]. intros H3. exact (H2 (Hsame H3)).
  - intros H. apply Hlogged, Hsame, H.
Qed.

Lemma latch_kept_death (F : Neuron.state -> bool)
  (M : MainWindow.notification) (s : MainWindow.state) :
  MainWindow.CellDied <> M ->
  latch_kept F M s
    (MainWindow.set_running false (MainWindow.log s MainWindow.CellDied)).
Proof.
  intros Hne.
  exists [(MainWindow.time_ms s / 1000, MainWindow.CellDied)].
  assert (Hno : ~ logged M [(MainWindow.time_ms s / 1000, MainWindow.CellDied)])
    by (unfold logged; cbn; intros [H|H]; [exact (Hne H)|exact H]).
  split; [reflexivity|]. split.
  - intros H. split; [exact H|exact Hno].
  - intros H. exfalso. exact (Hno H).
Qed.

(** The condition of a test ends with the negated flag. *)
Ltac flag_was_clear :=
  let Hc := fresh "Hc" in
  intros Hc; apply andb_true_iff in Hc; destruct Hc as [_ Hc];
  apply negb_true_iff in Hc; exact Hc.

Ltac pending_chain :=
  lazymatch goal with
  | H : ?st = flag_stage _ _ _ _ |- latch_pending _ _ _ ?st =>
      rewrite H; clear H;
      apply latch_pending_other;
      [pending_chain | discriminate | intros ?; reflexivity]
  | |- latch_pending _ _ ?s ?s => apply latch_pending_refl
  end.

Ltac kept_chain :=
  lazymatch goal with
  | H : ?st = flag_stage _ _ _ _ |- latch_kept _ _ _ ?st =>
      rewrite H; clear H;
      first
        [ apply latch_kept_other;
          [kept_chain | discriminate | intros ?; reflexivity]
        | apply latch_kept_own;
          [pending_chain | intros ?; reflexivity | flag_was_clear] ]
  end.

Lemma update_event_logs_latch (F : Neuron.state -> bool)
  (M : MainWindow.notification) (s : MainWindow.state) :
  In (F, M) latches -> latch_kept F M s (MainWindow.update_event_logs s).
Proof.
  intros Hin.
  apply (update_event_logs_unfold s (latch_kept F M s)).
  - intros _. apply latch_kept_death.
    cbn in Hin.
    destruct Hin as [H|[H|[H|[H|[H|[H|[]]]]]]]; inversion H; discriminate.
  - intros _ st0 st1 st2 st3 st4 st5 E0 E1 E2 E3 E4 E5.
    apply latch_kept_recovery.
    + cbn in Hin.
      destruct Hin as [H|[H|[H|[H|[H|[H|[]]]]]]]; inversion H; subst F M;
        kept_chain.
    + intros r. cbn in Hin.
      destruct Hin as [H|[H|[H|[H|[H|[H|[]]]]]]]; inversion H; discriminate.
Qed.

(** X22.  The six warnings are one-shot: over one [update_event_logs], for
    each flag and its notification, a flag that was set stays set and its
    notification is not logged again, and a notification that is logged had
    its flag clear before and has it set afterwards.  So between two resets
    of the flags each warning is logged at most once. *)
Theorem X22_warnings_are_one_shot (s : MainWindow.state) :
  Forall (fun latch =>
            latch_kept (fst latch) (snd latch) s
              (MainWindow.update_event_logs s))
         latches.
Proof.
  apply Forall_forall. intros [F M] Hin. cbn [fst snd].
  apply update_event_logs_latch. exact Hin.
Qed.

Lemma flag_stage_simulation (c : bool) (f : Neuron.state -> Neuron.state)
  (msg : MainWindow.notification) (s st : MainWindow.state) :
  simulation_of st = simulation_of s /\
  MainWindow.running st = MainWindow.running s ->
  (forall x, without_flags (f x) = without_flags x) ->
  simulation_of (flag_stage c f msg st) = simulation_of s /\
  MainWindow.running (flag_stage c f msg st) = MainWindow.running s.
Proof.
  intros [Hsim Hrun] Hf. unfold flag_stage. destruct c; [|split; assumption].
  split; [|exact Hrun]. rewrite <- Hsim. unfold simulation_of.
  change (MainWindow.neuron
            (MainWindow.set_neuron (f (MainWindow.neuron st))
               (MainWindow.log st msg)))
    with (f (MainWindow.neuron st)).
  rewrite Hf. reflexivity.
Qed.

Lemma recovery_stage_simulation (s st : MainWindow.state) :
  simulation_of st = simulation_of s /\
  MainWindow.running st = MainWindow.running s ->
  simulation_of (recovery_stage st) = simulation_of s /\
  MainWindow.running (recovery_stage st) = MainWindow.running s.
Proof.
  intros [Hsim Hrun]. unfold recovery_stage.
  destruct (MainWindow.last_step_time_ms st); [|split; assumption].
  match goal with |- context [if ?c then _ else _] => destruct c end;
    [|split; assumption].
  split; [|exact Hrun]. rewrite <- Hsim. reflexivity.
Qed.

Ltac simulation_chain :=
  lazymatch goal with
  | H : ?st = flag_stage _ _ _ _
    |- simulation_of ?st = _ /\ MainWindow.running ?st = _ =>
      rewrite H; clear H;
      apply flag_stage_simulation; [simulation_chain | intros ?; reflexivity]
  | |- simulation_of ?s = simulation_of ?s /\ _ => split; reflexivity
  end.

(** [update_event_logs] only keeps books. *)
Lemma update_event_logs_simulation (s : MainWindow.state) :
  simulation_of (MainWindow.update_event_logs s) = simulation_of s /\
  MainWindow.running (MainWindow.update_event_logs s)
  = MainWindow.running s && negb (Neuron.dead (MainWindow.neuron s)) /\
  (Neuron.dead (MainWindow.neuron s) && MainWindow.running s = true ->
   MainWindow.neuron (MainWindow.update_event_logs s) = MainWindow.neuron s /\
   MainWindow.log_widget (MainWindow.update_event_logs s)
   = MainWindow.log_widget s
     ++ [(MainWindow.time_ms s / 1000, MainWindow.CellDied)]).
Proof.
  apply (update_event_logs_unfold s
           (fun s' =>
              simulation_of s' = simulation_of s /\
              MainWindow.running s'
              = MainWindow.running s
                && negb (Neuron.dead (MainWindow.neuron s)) /\
              (Neuron.dead (MainWindow.neuron s) && MainWindow.running s
               = true ->
               MainWindow.neuron s' = MainWindow.neuron s /\
               MainWindow.log_widget s'
               = MainWindow.log_widget s
                 ++ [(MainWindow.time_ms s / 1000, MainWindow.CellDied)]))).
  - intros E. apply andb_true_iff in E. destruct E as [Ed Er].
    split; [reflexivity|]. split.
    + rewrite Er, Ed. reflexivity.
    + intros _. split; reflexivity.
  - intros E st0 st1 st2 st3 st4 st5 E0 E1 E2 E3 E4 E5.
    assert (H : simulation_of (recovery_stage st5) = simulation_of s /\
                MainWindow.running (recovery_stage st5)
                = MainWindow.running s).
    { apply recovery_stage_simulation. simulation_chain. }
    destruct H as [Hsim Hrun]. split; [exact Hsim|]. split.
    + rewrite Hrun.
      destruct (MainWindow.running s); [|reflexivity].
      rewrite andb_true_r in E. rewrite E. reflexivity.
    + intros Habs. rewrite E in Habs. discriminate.
Qed.

(** X23.  [update_event_logs] only keeps books: it leaves the simulation
    (time, stimulator, channel, histories and every field of the neuron but
    its six flags) as it is.  It clears [running] exactly when the neuron is
    dead; when it does so on a running simulation it logs the death and
    nothing else, and touches no flag. *)
Theorem X23_event_detection_keeps_the_simulation (s : MainWindow.state) :
  simulation_of (MainWindow.update_event_logs s) = simulation_of s /\
  MainWindow.running (MainWindow.update_event_logs s)
  = MainWindow.running s && negb (Neuron.dead (MainWindow.neuron s)) /\
  (Neuron.dead (MainWindow.neuron s) && MainWindow.running s = true ->
   MainWindow.neuron (MainWindow.update_event_logs s) = MainWindow.neuron s /\
   MainWindow.log_widget (MainWindow.update_event_logs s)
   = MainWindow.log_widget s
     ++ [(MainWindow.time_ms s / 1000, MainWindow.CellDied)]).
Proof. apply update_event_logs_simulation. Qed.

Lemma X23_event_detection_keeps_the_simulation_witness :
  let s := MainWindow.set_running true
             (MainWindow.set_neuron (Neuron.kill Neuron.init)
                MainWindow.init) in
  Neuron.dead (MainWindow.neuron s) && MainWindow.running s = true /\
  MainWindow.running (MainWindow.update_event_logs s) = false /\
  MainWindow.neuron (MainWindow.update_event_logs s) = MainWindow.neuron s /\
  MainWindow.log_widget (MainWindow.update_event_logs s)
  = MainWindow.log_widget s
    ++ [(MainWindow.time_ms s / 1000, MainWindow.CellDied)].
Proof.
  cbv zeta. split; [reflexivity|].
  destruct (X23_event_detection_keeps_the_simulation
              (MainWindow.set_running true
                 (MainWindow.set_neuron (Neuron.kill Neuron.init)
                    MainWindow.init))) as (_ & Hrun & Hdead).
  split; [rewrite Hrun; reflexivity|].
  apply Hdead. reflexivity.
Defined.


(** ** The orchestrator: one tick *)

(** The body of the loop in full. *)
Lemma loop_body_shape (s : MainWindow.state) (gauss normal : R) :
  fst (DAQ.voltage_range (MainWindow.daq s))
    <> snd (DAQ.voltage_range (MainWindow.daq s)) ->
  exists st' i x u,
    Stimulator.current_at (MainWindow.stim s) (MainWindow.time_ms s)
    = Ok (st', i) /\
    Neuron.step (MainWindow.neuron s) (MainWindow.dt s) i false gauss
    = Ok (x, u) /\
    if leb (MainWindow.plot_dt_ms s)
           (MainWindow.time_since_last_plot s + MainWindow.dt s)
    then exists q,
           DAQ.acquire_sample (MainWindow.daq s) u normal = Ok q /\
           MainWindow.loop_body s gauss normal
           = Ok (sampled (advanced s st' x) q,
                 MainWindow.mk_update (MainWindow.time_ms s)
                   (MainWindow.dt s) i)
    else MainWindow.loop_body s gauss normal
         = Ok (advanced s st' x,
               MainWindow.mk_update (MainWindow.time_ms s)
                 (MainWindow.dt s) i).
Proof.
  intros Hrange. destruct s. unfold MainWindow.loop_body.
  window_fields. cbn [MainWindow.daq] in Hrange.
  destruct (current_at_total stim time_ms) as (st' & i & Hc).
  destruct (step_total neuron dt i false gauss) as (x & u & Hs).
  exists st', i, x, u. split; [exact Hc|]. split; [exact Hs|].
  rewrite Hc. cbn [bind]. window_fields. rewrite Hs. cbn [bind].
  window_fields.
  destruct (leb plot_dt_ms (time_since_last_plot + dt)).
  - destruct (acquire_sample_total daq u normal Hrange) as (q & Hq).
    exists q. split; [exact Hq|]. rewrite Hq. cbn [bind].
    unfold sampled, advanced. window_fields. reflexivity.
  - unfold advanced. window_fields. reflexivity.
Qed.

Lemma append_maxlen (d : MainWindow.deque) (x : R) :
  MainWindow.maxlen (MainWindow.append d x) = MainWindow.maxlen d.
Proof.
  unfold MainWindow.append. destruct (MainWindow.maxlen d) as [[|k]|] eqn:E;
    try (destruct (_ <=? _)%nat); cbn; congruence.
Qed.

Lemma append_items (d : MainWindow.deque) (x : R) :
  MainWindow.items (MainWindow.append d x)
  = match MainWindow.maxlen d with
    | None => MainWindow.items d ++ [x]
    | Some O => MainWindow.items d
    | Some k =>
        if (k <=? length (MainWindow.items d))%nat
        then skipn 1 (MainWindow.items d) ++ [x]
        else MainWindow.items d ++ [x]
    end.
Proof.
  unfold MainWindow.append. destruct (MainWindow.maxlen d) as [[|k]|];
    try (destruct (_ <=? _)%nat); reflexivity.
Qed.

Lemma append_length_parallel (d1 d2 : MainWindow.deque) (x y : R) :
  length (MainWindow.items d1) = length (MainWindow.items d2) ->
  MainWindow.maxlen d1 = MainWindow.maxlen d2 ->
  length (MainWindow.items (MainWindow.append d1 x))
  = length (MainWindow.items (MainWindow.append d2 y)).
Proof.
  intros Hlen Hmax. rewrite !append_items, Hmax, Hlen.
  destruct (MainWindow.maxlen d2) as [[|k]|].
  - exact Hlen.
  - destruct (_ <=? _)%nat; rewrite !length_app, ?length_skipn, Hlen;
      reflexivity.
  - rewrite !length_app, Hlen. reflexivity.
Qed.

Lemma append_within_capacity (d : MainWindow.deque) (x : R) :
  within_capacity d -> within_capacity (MainWindow.append d x).
Proof.
  unfold within_capacity. rewrite append_maxlen, append_items.
  destruct (MainWindow.maxlen d) as [[|k]|]; [tauto| |tauto].
  intros Hle. destruct (_ <=? _)%nat eqn:E.
  - rewrite length_app, length_skipn. cbn [length]. lia.
  - apply Nat.leb_gt in E. rewrite length_app. cbn [length]. lia.
Qed.

Lemma Forall_skipn {A : Type} (P : A -> Prop) (k : nat) (l : list A) :
  Forall P l -> Forall P (skipn k l).
Proof.
  intros H. rewrite <- (firstn_skipn k l) in H.
  apply Forall_app in H. apply H.
Qed.

Lemma append_Forall (P : R -> Prop) (d : MainWindow.deque) (x : R) :
  Forall P (MainWindow.items d) -> P x ->
  Forall P (MainWindow.items (MainWindow.append d x)).
Proof.
  intros Hd Hx. rewrite append_items.
  assert (Hnew : Forall P [x]) by (constructor; [exact Hx|constructor]).
  destruct (MainWindow.maxlen d) as [[|k]|]; [exact Hd| |].
  - destruct (_ <=? _)%nat; apply Forall_app; split;
      try exact Hnew; [apply Forall_skipn|]; exact Hd.
  - apply Forall_app. split; assumption.
Qed.

Lemma acquire_sample_in_range (d : DAQ.state) (u normal q : R) :
  fst (DAQ.voltage_range d) < snd (DAQ.voltage_range d) ->
  (0 <= DAQ.adc_bits d)%Z ->
  DAQ.acquire_sample d u normal = Ok q ->
  fst (DAQ.voltage_range d) <= q <= snd (DAQ.voltage_range d).
Proof.
  intros Hrange Hbits Hq.
  destruct (quantize_grid d (u + normal) Hrange Hbits)
    as (n & k & Hn & Hstep & Hfull & Hx & Hk & Hkn & _ & Hquant).
  cbv zeta in *. unfold DAQ.acquire_sample in Hq. cbv zeta in Hq.
  rewrite Hquant in Hq. cbn [bind] in Hq. injection Hq as <-.
  destruct Hkn as [Hk0 Hk1]. apply IZR_le in Hk0. apply IZR_le in Hk1.
  split; nra.
Qed.

Lemma tick_invariant_advanced (s : MainWindow.state)
  (st' : Stimulator.state) (x : Neuron.state) :
  tick_invariant s -> bounded x -> tick_invariant (advanced s st' x).
Proof.
  intros (Hr & Hb & _ & Hp & Hc1 & Hc2 & Hs) Hx.
  repeat split; try assumption; try apply Hp; try apply Hs; apply Hx.
Qed.

Lemma tick_invariant_sampled (s : MainWindow.state) (q : R) :
  tick_invariant s ->
  fst (DAQ.voltage_range (MainWindow.daq s)) <= q
    <= snd (DAQ.voltage_range (MainWindow.daq s)) ->
  tick_invariant (sampled s q).
Proof.
  intros (Hr & Hb & Hn & Hp & Hc1 & Hc2 & Hs) Hq.
  destruct Hp as (P1 & P2 & P3 & P4 & P5 & P6 & P7 & P8 & P9).
  destruct Hs as (S1 & S2 & S3 & S4 & S5 & S6 & S7).
  assert (Ha : 0 <= Neuron.ATP (MainWindow.neuron s) <= 1) by apply Hn.
  assert (Hca : 0 <= Neuron.Ca (MainWindow.neuron s)) by apply Hn.
  assert (Hmi : 0 <= Neuron.mito (MainWindow.neuron s) <= 100) by apply Hn.
  assert (Hin : 0 <= Neuron.integrity (MainWindow.neuron s) <= 100)
    by apply Hn.
  assert (Hda : 0 <= Neuron.damage (MainWindow.neuron s) <= 100)
    by apply Hn.
  destruct s. unfold sampled. unfold tick_invariant, histories_parallel,
    samples_in_range, bounded in *.
  cbv beta iota zeta delta
    [MainWindow.record_sample MainWindow.set_time_since_last_plot
     MainWindow.neuron MainWindow.stim MainWindow.daq MainWindow.time_ms
     MainWindow.dt MainWindow.timer_interval MainWindow.time_scale_factor
     MainWindow.running MainWindow.plot_dt_ms
     MainWindow.time_since_last_plot MainWindow.t_data MainWindow.v_data
     MainWindow.t_full MainWindow.v_full MainWindow.meta_t
     MainWindow.meta_atp MainWindow.meta_ca MainWindow.meta_mito
     MainWindow.meta_integrity MainWindow.meta_damage
     MainWindow.last_step_time_ms MainWindow.step_recovery_logged
     MainWindow.log_widget] in *.
  split; [exact Hr|]. split; [exact Hb|].
  split; [exact Hn|].
  split.
  { rewrite !length_app. cbn [length].
    repeat split; try congruence;
      try (rewrite !append_maxlen; assumption);
      apply append_length_parallel; assumption. }
  split; [apply append_within_capacity; exact Hc1|].
  split; [apply append_within_capacity; exact Hc2|].
  repeat split;
    try (apply Forall_app; split; [assumption|];
         constructor; [assumption|constructor]);
    apply append_Forall; assumption.
Qed.

(** What the body of the loop leaves alone. *)
Lemma advanced_frame (s : MainWindow.state) (st' : Stimulator.state)
  (x : Neuron.state) :
  MainWindow.running (advanced s st' x) = MainWindow.running s /\
  MainWindow.dt (advanced s st' x) = MainWindow.dt s /\
  MainWindow.plot_dt_ms (advanced s st' x) = MainWindow.plot_dt_ms s /\
  MainWindow.daq (advanced s st' x) = MainWindow.daq s /\
  MainWindow.maxlen (MainWindow.t_data (advanced s st' x))
  = MainWindow.maxlen (MainWindow.t_data s) /\
  MainWindow.maxlen (MainWindow.t_full (advanced s st' x))
  = MainWindow.maxlen (MainWindow.t_full s) /\
  MainWindow.meta_t (advanced s st' x) = MainWindow.meta_t s /\
  MainWindow.time_since_last_plot (advanced s st' x)
  = MainWindow.time_since_last_plot s + MainWindow.dt s /\
  MainWindow.neuron (advanced s st' x) = x.
Proof. repeat split; reflexivity. Qed.

Lemma sampled_frame (s : MainWindow.state) (q : R) :
  MainWindow.running (sampled s q) = MainWindow.running s /\
  MainWindow.dt (sampled s q) = MainWindow.dt s /\
  MainWindow.plot_dt_ms (sampled s q) = MainWindow.plot_dt_ms s /\
  MainWindow.daq (sampled s q) = MainWindow.daq s /\
  MainWindow.maxlen (MainWindow.t_data (sampled s q))
  = MainWindow.maxlen (MainWindow.t_data s) /\
  MainWindow.maxlen (MainWindow.t_full (sampled s q))
  = MainWindow.maxlen (MainWindow.t_full s) /\
  MainWindow.meta_t (sampled s q)
  = MainWindow.meta_t s ++ [MainWindow.time_ms s / 1000] /\
  MainWindow.time_since_last_plot (sampled s q)
  = MainWindow.time_since_last_plot s - MainWindow.plot_dt_ms s /\
  MainWindow.neuron (sampled s q) = MainWindow.neuron s.
Proof.
  repeat split; try reflexivity.
  - apply (append_maxlen (MainWindow.t_data s)).
  - apply (append_maxlen (MainWindow.t_full s)).
Qed.

(** One iteration, with everything the properties of a tick need: the
    invariant, what is left alone, and the sampling clock. [b] tells
    whether the iteration recorded a sample. *)
Lemma loop_body_tick (s : MainWindow.state) (gauss normal : R) :
  tick_invariant s ->
  exists s' c (b : bool),
    MainWindow.loop_body s gauss normal = Ok (s', c) /\
    tick_invariant s' /\
    MainWindow.running s' = MainWindow.running s /\
    MainWindow.dt s' = MainWindow.dt s /\
    MainWindow.plot_dt_ms s' = MainWindow.plot_dt_ms s /\
    MainWindow.maxlen (MainWindow.t_data s')
    = MainWindow.maxlen (MainWindow.t_data s) /\
    MainWindow.maxlen (MainWindow.t_full s')
    = MainWindow.maxlen (MainWindow.t_full s) /\
    b = leb (MainWindow.plot_dt_ms s)
            (MainWindow.time_since_last_plot s + MainWindow.dt s) /\
    length (MainWindow.meta_t s')
    = (length (MainWindow.meta_t s) + if b then 1 else 0)%nat /\
    MainWindow.time_since_last_plot s'
    = MainWindow.time_since_last_plot s + MainWindow.dt s
      - (if b then MainWindow.plot_dt_ms s else 0).
Proof.
  intros Hinv.
  assert (Hr : fst (DAQ.voltage_range (MainWindow.daq s))
               < snd (DAQ.voltage_range (MainWindow.daq s))) by apply Hinv.
  assert (Hb : (0 <= DAQ.adc_bits (MainWindow.daq s))%Z) by apply Hinv.
  assert (Hn : bounded (MainWindow.neuron s)) by apply Hinv.
  destruct (loop_body_shape s gauss normal (Rlt_not_eq _ _ Hr))
    as (st' & i & x & u & Hc & Hs & Hshape).
  pose proof (step_bounded _ _ _ _ _ _ _ Hn Hs) as Hx.
  pose proof (tick_invariant_advanced s st' x Hinv Hx) as Hadv.
  pose proof (advanced_frame s st' x)
    as (F1 & F2 & F3 & F4 & F5 & F6 & F7 & F8 & F9).
  destruct (leb (MainWindow.plot_dt_ms s)
              (MainWindow.time_since_last_plot s + MainWindow.dt s)) eqn:E.
  - destruct Hshape as (q & Hq & Hbody).
    pose proof (acquire_sample_in_range _ _ _ _ Hr Hb Hq) as Hqr.
    rewrite <- F4 in Hqr.
    pose proof (tick_invariant_sampled (advanced s st' x) q Hadv Hqr) as Hsam.
    pose proof (sampled_frame (advanced s st' x) q)
      as (G1 & G2 & G3 & G4 & G5 & G6 & G7 & G8 & G9).
    eexists _, _, true. split; [exact Hbody|].
    split; [exact Hsam|].
    rewrite G1, G2, G3, G5, G6, G7, G8, F1, F2, F3, F5, F6, F7, F8.
    repeat split; try reflexivity.
    rewrite length_app. reflexivity.
  - eexists _, _, false. split; [exact Hshape|].
    split; [exact Hadv|].
    rewrite F1, F2, F3, F5, F6, F7, F8.
    repeat split; try reflexivity; try lia. lra.
Qed.

Lemma clock_step (s s' : MainWindow.state) (b : bool) :
  sampling_clock_ok s ->
  MainWindow.dt s' = MainWindow.dt s ->
  MainWindow.plot_dt_ms s' = MainWindow.plot_dt_ms s ->
  b = leb (MainWindow.plot_dt_ms s)
          (MainWindow.time_since_last_plot s + MainWindow.dt s) ->
  MainWindow.time_since_last_plot s'
  = MainWindow.time_since_last_plot s + MainWindow.dt s
    - (if b then MainWindow.plot_dt_ms s else 0) ->
  sampling_clock_ok s'.
Proof.
  intros [Hdt Ht] Edt Ep Eb Et. unfold sampling_clock_ok.
  rewrite Edt, Ep, Et. split; [exact Hdt|].
  destruct b; symmetry in Eb.
  - apply leb_true in Eb. lra.
  - apply leb_false in Eb. lra.
Qed.

(** The loop of a tick: [k] is the number of samples it records. *)
Lemma for_range_tick (count : nat) :
  forall (i : nat) (draws : nat -> R * R) (s : MainWindow.state),
  tick_invariant s ->
  exists s' calls (k : nat),
    MainWindow.for_range count i draws s = Ok (s', calls) /\
    length calls = count /\
    tick_invariant s' /\
    MainWindow.running s' = MainWindow.running s /\
    MainWindow.dt s' = MainWindow.dt s /\
    MainWindow.plot_dt_ms s' = MainWindow.plot_dt_ms s /\
    MainWindow.maxlen (MainWindow.t_data s')
    = MainWindow.maxlen (MainWindow.t_data s) /\
    MainWindow.maxlen (MainWindow.t_full s')
    = MainWindow.maxlen (MainWindow.t_full s) /\
    length (MainWindow.meta_t s') = (length (MainWindow.meta_t s) + k)%nat /\
    MainWindow.time_since_last_plot s'
    = MainWindow.time_since_last_plot s + INR count * MainWindow.dt s
      - INR k * MainWindow.plot_dt_ms s /\
    (sampling_clock_ok s -> sampling_clock_ok s').
Proof.
  induction count as [|count IH]; intros i draws s Hinv.
  - exists s, [], O. split; [reflexivity|]. split; [reflexivity|].
    split; [exact Hinv|].
    do 5 (split; [reflexivity|]).
    split; [lia|]. split; [cbn [INR]; lra|]. intros H. exact H.
  - destruct (loop_body_tick s (fst (draws i)) (snd (draws i)) Hinv)
      as (s1 & c & b & Hbody & Hinv1 & R1 & D1 & P1 & M1 & M1' & Eb & L1 & T1).
    destruct (IH (S i) draws s1 Hinv1)
      as (s' & calls & k & Hfor & Hlen & Hinv' & R2 & D2 & P2 & M2 & M2' & L2 & T2
          & C2).
    exists s', (c :: calls), ((if b then 1 else 0) + k)%nat.
    split.
    { cbn [MainWindow.for_range]. rewrite Hbody. cbn [bind fst snd].
      rewrite Hfor. reflexivity. }
    split; [cbn [length]; rewrite Hlen; reflexivity|].
    split; [exact Hinv'|].
    rewrite R2, D2, P2, M2, M2', L2, T2, R1, D1, P1, M1, M1', L1, T1.
    do 5 (split; [reflexivity|]).
    split; [lia|]. split.
    + rewrite S_INR, plus_INR. destruct b; cbn [INR]; lra.
    + intros Hclock. apply C2.
      apply (clock_step s s1 b Hclock D1 P1 Eb T1).
Qed.

Lemma tick_invariant_simulation (s s' : MainWindow.state) :
  simulation_of s' = simulation_of s -> tick_invariant s ->
  tick_invariant s'.
Proof.
  intros Heq Hinv.
  change (tick_invariant (simulation_of s')). rewrite Heq. exact Hinv.
Qed.

Lemma simulation_fields (s s' : MainWindow.state) :
  simulation_of s' = simulation_of s ->
  MainWindow.dt s' = MainWindow.dt s /\
  MainWindow.plot_dt_ms s' = MainWindow.plot_dt_ms s /\
  MainWindow.time_since_last_plot s' = MainWindow.time_since_last_plot s /\
  MainWindow.meta_t s' = MainWindow.meta_t s /\
  MainWindow.t_data s' = MainWindow.t_data s /\
  MainWindow.t_full s' = MainWindow.t_full s /\
  Neuron.dead (MainWindow.neuron s') = Neuron.dead (MainWindow.neuron s).
Proof.
  intros Heq.
  split; [exact (f_equal MainWindow.dt Heq)|].
  split; [exact (f_equal MainWindow.plot_dt_ms Heq)|].
  split; [exact (f_equal MainWindow.time_since_last_plot Heq)|].
  split; [exact (f_equal MainWindow.meta_t Heq)|].
  split; [exact (f_equal MainWindow.t_data Heq)|].
  split; [exact (f_equal MainWindow.t_full Heq)|].
  exact (f_equal (fun w => Neuron.dead (MainWindow.neuron w)) Heq).
Qed.

(** A tick of a running orchestrator, with everything it keeps. *)
Lemma update_loop_tick (s : MainWindow.state) (draws : nat -> R * R) :
  tick_invariant s ->
  MainWindow.running s = true ->
  MainWindow.dt s <> 0 ->
  exists s' calls (k : nat),
    MainWindow.update_loop s draws = Ok (s', calls) /\
    tick_invariant s' /\
    MainWindow.maxlen (MainWindow.t_data s')
    = MainWindow.maxlen (MainWindow.t_data s) /\
    MainWindow.maxlen (MainWindow.t_full s')
    = MainWindow.maxlen (MainWindow.t_full s) /\
    length (MainWindow.meta_t s') = (length (MainWindow.meta_t s) + k)%nat /\
    MainWindow.time_since_last_plot s'
    = MainWindow.time_since_last_plot s
      + INR (length calls) * MainWindow.dt s
      - INR k * MainWindow.plot_dt_ms s /\
    (sampling_clock_ok s -> sampling_clock_ok s') /\
    MainWindow.running s' = negb (Neuron.dead (MainWindow.neuron s')).
Proof.
  intros Hinv Hrun Hdt.
  pose proof (steps_to_run_value s Hdt) as Hsteps.
  match type of Hsteps with _ = Ok ?x => set (steps := x) in Hsteps end.
  destruct (for_range_tick (Z.to_nat steps) 0 draws s Hinv)
    as (s1 & calls & k & Hfor & Hlen & Hinv1 & R1 & D1 & P1 & M1 & M1' & L1
        & T1 & C1).
  destruct (update_event_logs_simulation s1) as (Hsim & Hrun' & _).
  destruct (simulation_fields _ _ Hsim)
    as (E1 & E2 & E3 & E4 & E5 & E6 & E7).
  exists (MainWindow.update_event_logs s1), calls, k.
  split.
  { unfold MainWindow.update_loop. rewrite Hrun. cbn [negb].
    rewrite Hsteps. cbn [bind]. rewrite Hfor. reflexivity. }
  split; [exact (tick_invariant_simulation _ _ Hsim Hinv1)|].
  rewrite E5, E6, E4, E3, Hlen.
  split; [exact M1|]. split; [exact M1'|]. split; [exact L1|].
  split; [exact T1|]. split.
  - intros Hclock. specialize (C1 Hclock).
    unfold sampling_clock_ok in *. rewrite E1, E2, E3. exact C1.
  - rewrite Hrun', E7, R1, Hrun. reflexivity.
Qed.

(** X20.  A tick keeps the history buffers sound: when the live and the
    long voltage windows are within their capacities and all buffers are
    parallel (one entry each per sample), they are so after the tick, and
    the capacities themselves are unchanged; the voltage window never grows
    beyond [maxlen]. *)
Theorem X20_tick_keeps_histories_parallel (s : MainWindow.state)
  (draws : nat -> R * R) :
  tick_invariant s ->
  MainWindow.running s = true ->
  MainWindow.dt s <> 0 ->
  exists s' calls,
    MainWindow.update_loop s draws = Ok (s', calls) /\
    histories_parallel s' /\
    within_capacity (MainWindow.t_data s') /\
    within_capacity (MainWindow.v_data s') /\
    within_capacity (MainWindow.t_full s') /\
    within_capacity (MainWindow.v_full s') /\
    MainWindow.maxlen (MainWindow.t_data s')
    = MainWindow.maxlen (MainWindow.t_data s) /\
    MainWindow.maxlen (MainWindow.t_full s')
    = MainWindow.maxlen (MainWindow.t_full s).
Proof.
  intros Hinv Hrun Hdt.
  destruct (update_loop_tick s draws Hinv Hrun Hdt)
    as (s' & calls & k & Hloop & Hinv' & M1 & M2 & _).
  exists s', calls. split; [exact Hloop|].
  destruct Hinv' as (_ & _ & _ & Hp & Hc1 & Hc2 & _).
  split; [exact Hp|].
  destruct Hp as (_ & _ & _ & _ & _ & P6 & P7 & P8 & P9).
  split; [exact Hc1|].
  split; [unfold within_capacity in *; rewrite P7, P6; exact Hc1|].
  split; [exact Hc2|].
  split; [unfold within_capacity in *; rewrite P9, P8; exact Hc2|].
  split; [exact M1 | exact M2].
Qed.

Lemma loop_body_daq (s : MainWindow.state) (gauss normal : R) :
  tick_invariant s ->
  exists s' c,
    MainWindow.loop_body s gauss normal = Ok (s', c) /\
    tick_invariant s' /\ MainWindow.daq s' = MainWindow.daq s.
Proof.
  intros Hinv.
  assert (Hr : fst (DAQ.voltage_range (MainWindow.daq s))
               < snd (DAQ.voltage_range (MainWindow.daq s))) by apply Hinv.
  destruct (loop_body_tick s gauss normal Hinv)
    as (s' & c & b & Hbody & Hinv' & _).
  exists s', c. split; [exact Hbody|]. split; [exact Hinv'|].
  destruct (loop_body_ok s gauss normal (Rlt_not_eq _ _ Hr))
    as (s2 & c2 & Hbody2 & _ & _ & _ & _ & Hdaq).
  rewrite Hbody in Hbody2. apply Ok_pair_inj in Hbody2.
  destruct Hbody2 as [<- _]. exact Hdaq.
Qed.

Lemma for_range_daq (count : nat) :
  forall (i : nat) (draws : nat -> R * R) (s : MainWindow.state),
  tick_invariant s ->
  exists s' calls,
    MainWindow.for_range count i draws s = Ok (s', calls) /\
    tick_invariant s' /\ MainWindow.daq s' = MainWindow.daq s.
Proof.
  induction count as [|count IH]; intros i draws s Hinv.
  - exists s, []. split; [reflexivity|]. split; [exact Hinv|reflexivity].
  - destruct (loop_body_daq s (fst (draws i)) (snd (draws i)) Hinv)
      as (s1 & c & Hbody & Hinv1 & Hdaq1).
    destruct (IH (S i) draws s1 Hinv1) as (s' & calls & Hfor & Hinv' & Hdaq).
    exists s', (c :: calls). split; [|split; [exact Hinv'|]].
    + cbn [MainWindow.for_range]. rewrite Hbody. cbn [bind fst snd].
      rewrite Hfor. reflexivity.
    + rewrite Hdaq. exact Hdaq1.
Qed.

Lemma started_invariant :
  tick_invariant (MainWindow.set_running true MainWindow.init) /\
  sampling_clock_ok (MainWindow.set_running true MainWindow.init) /\
  MainWindow.dt (MainWindow.set_running true MainWindow.init) <> 0.
Proof.
  split; [|split].
  - unfold tick_invariant.
    split; [cbn; lra|]. split; [cbn; lia|]. split; [exact init_bounded|].
    split; [repeat split; reflexivity|].
    split; [apply Nat.le_0_l|]. split; [exact I|].
    repeat split; constructor.
  - unfold sampling_clock_ok. window_eval. lra.
  - window_eval. lra.
Qed.

Lemma X20_tick_keeps_histories_parallel_witness :
  tick_invariant (MainWindow.set_running true MainWindow.init) /\
  MainWindow.running (MainWindow.set_running true MainWindow.init) = true /\
  MainWindow.dt (MainWindow.set_running true MainWindow.init) <> 0 /\
  exists s' calls,
    MainWindow.update_loop (MainWindow.set_running true MainWindow.init)
      (fun _ => (0, 0)) = Ok (s', calls) /\
    histories_parallel s' /\
    within_capacity (MainWindow.v_data s').
Proof.
  destruct started_invariant as (Hinv & _ & Hdt).
  split; [exact Hinv|]. split; [reflexivity|]. split; [exact Hdt|].
  destruct (X20_tick_keeps_histories_parallel
              (MainWindow.set_running true MainWindow.init)
              (fun _ => (0, 0)) Hinv eq_refl Hdt)
    as (s' & calls & Hloop & Hp & _ & Hv & _).
  exists s', calls. split; [exact Hloop|]. split; [exact Hp | exact Hv].
Defined.

(** X24.  What a tick records is in range: when the samples on record are
    within the ranges of what they measure (ATP in [0,1], Ca >= 0, mito,
    integrity and damage in [0,100], measured voltages within the range of
    the channel) and the neuron is within its ranges, the same holds after
    the tick, whatever the stimulation and the noise. *)
Theorem X24_recorded_samples_stay_in_range (s : MainWindow.state)
  (draws : nat -> R * R) :
  tick_invariant s ->
  MainWindow.running s = true ->
  MainWindow.dt s <> 0 ->
  exists s' calls,
    MainWindow.update_loop s draws = Ok (s', calls) /\
    samples_in_range s' /\
    bounded (MainWindow.neuron s') /\
    MainWindow.daq s' = MainWindow.daq s.
Proof.
  intros Hinv Hrun Hdt.
  pose proof (steps_to_run_value s Hdt) as Hsteps.
  match type of Hsteps with _ = Ok ?x => set (steps := x) in Hsteps end.
  destruct (for_range_daq (Z.to_nat steps) 0 draws s Hinv)
    as (s1 & calls & Hfor & Hinv1 & Hdaq).
  destruct (update_event_logs_simulation s1) as (Hsim & _).
  exists (MainWindow.update_event_logs s1), calls.
  split.
  { unfold MainWindow.update_loop. rewrite Hrun. cbn [negb].
    rewrite Hsteps. cbn [bind]. rewrite Hfor. reflexivity. }
  pose proof (tick_invariant_simulation _ _ Hsim Hinv1)
    as (_ & _ & Hb & _ & _ & _ & Hs).
  split; [exact Hs|]. split; [exact Hb|].
  rewrite <- Hdaq. exact (f_equal MainWindow.daq Hsim).
Qed.

Lemma X24_recorded_samples_stay_in_range_witness :
  tick_invariant (MainWindow.set_running true MainWindow.init) /\
  MainWindow.running (MainWindow.set_running true MainWindow.init) = true /\
  MainWindow.dt (MainWindow.set_running true MainWindow.init) <> 0 /\
  exists s' calls,
    MainWindow.update_loop (MainWindow.set_running true MainWindow.init)
      (fun _ => (0, 0)) = Ok (s', calls) /\
    samples_in_range s'.
Proof.
  destruct started_invariant as (Hinv & _ & Hdt).
  split; [exact Hinv|]. split; [reflexivity|]. split; [exact Hdt|].
  destruct (X24_recorded_samples_stay_in_range
              (MainWindow.set_running true MainWindow.init)
              (fun _ => (0, 0)) Hinv eq_refl Hdt)
    as (s' & calls & Hloop & Hs & _).
  exists s', calls. split; [exact Hloop | exact Hs].
Defined.

(** X25.  Death stops the run: after a tick of a running orchestrator
    [running] is true exactly when the neuron is alive; and once a tick has
    seen the neuron dead, every further tick does nothing at all. *)
Theorem X25_death_halts_the_run (s : MainWindow.state)
  (draws : nat -> R * R) :
  tick_invariant s ->
  MainWindow.running s = true ->
  MainWindow.dt s <> 0 ->
  exists s' calls,
    MainWindow.update_loop s draws = Ok (s', calls) /\
    MainWindow.running s' = negb (Neuron.dead (MainWindow.neuron s')) /\
    (Neuron.dead (MainWindow.neuron s') = true ->
     forall draws', MainWindow.update_loop s' draws' = Ok (s', [])).
Proof.
  intros Hinv Hrun Hdt.
  destruct (update_loop_tick s draws Hinv Hrun Hdt)
    as (s' & calls & k & Hloop & _ & _ & _ & _ & _ & _ & Hr).
  exists s', calls. split; [exact Hloop|]. split; [exact Hr|].
  intros Hdead draws'. unfold MainWindow.update_loop.
  rewrite Hr, Hdead. reflexivity.
Qed.

Lemma X25_death_halts_the_run_witness :
  let s := MainWindow.set_neuron (Neuron.kill Neuron.init)
             (MainWindow.set_running true MainWindow.init) in
  tick_invariant s /\ MainWindow.running s = true /\ MainWindow.dt s <> 0 /\
  exists s' calls,
    MainWindow.update_loop s (fun _ => (0, 0)) = Ok (s', calls) /\
    MainWindow.running s' = negb (Neuron.dead (MainWindow.neuron s')).
Proof.
  cbv zeta. destruct started_invariant as (Hinv & _ & Hdt).
  assert (Hinv' : tick_invariant
                    (MainWindow.set_neuron (Neuron.kill Neuron.init)
                       (MainWindow.set_running true MainWindow.init))).
  { destruct Hinv as (H1 & H2 & _ & H4 & H5 & H6 & H7).
    split; [exact H1|]. split; [exact H2|].
    split; [exact (kill_preserves_bounded _ init_bounded)|].
    split; [exact H4|]. split; [exact H5|]. split; [exact H6|]. exact H7. }
  split; [exact Hinv'|]. split; [reflexivity|]. split; [exact Hdt|].
  destruct (X25_death_halts_the_run
              (MainWindow.set_neuron (Neuron.kill Neuron.init)
                 (MainWindow.set_running true MainWindow.init))
              (fun _ => (0, 0)) Hinv' eq_refl Hdt)
    as (s' & calls & Hloop & Hr & _).
  exists s', calls. split; [exact Hloop | exact Hr].
Defined.

(** ** The orchestrator: the thresholds of the warnings *)

Lemma latch_fires_own (F : Neuron.state -> bool)
  (M : MainWindow.notification) (A : Prop) (c : bool)
  (f : Neuron.state -> Neuron.state) (s st : MainWindow.state) :
  latch_pending F M s st ->
  (forall x, F (f x) = true) ->
  (c = true <-> A) ->
  latch_fires F M A s
    (flag_stage (c && negb (F (MainWindow.neuron st))) f M st).
Proof.
  intros (entries & Hlog & Hno & Hflag) Hf Hc.
  destruct (flag_stage_log (c && negb (F (MainWindow.neuron st))) f M st)
    as [Hl Hn].
  rewrite Hflag in Hl, Hn |- *.
  exists (entries
          ++ (if c && negb (F (MainWindow.neuron s))
              then [(MainWindow.time_ms st / 1000, M)] else [])).
  split; [rewrite Hl, Hlog, app_assoc; reflexivity|].
  rewrite Hn. unfold logged in *. rewrite map_app.
  destruct c; destruct (F (MainWindow.neuron s)) eqn:EF; cbn [andb negb].
  - split.
    + rewrite app_nil_r. split.
      * intros H. exfalso. exact (Hno H).
      * intros [_ H]. discriminate.
    + rewrite Hflag; try rewrite EF. split; [intros _; left; reflexivity|reflexivity].
  - split.
    + split.
      * intros _. split; [apply Hc|]; reflexivity.
      * intros _. apply in_or_app. right. left. reflexivity.
    + rewrite Hf. split; [intros _; right; apply Hc|]; reflexivity.
  - split.
    + rewrite app_nil_r. split.
      * intros H. exfalso. exact (Hno H).
      * intros [_ H]. discriminate.
    + rewrite Hflag; try rewrite EF. split; [intros _; left; reflexivity|reflexivity].
  - split.
    + rewrite app_nil_r. split.
      * intros H. exfalso. exact (Hno H).
      * intros [H _]. apply Hc in H. discriminate.
    + rewrite Hflag; try rewrite EF. split; [discriminate|].
      intros [H|H]; [discriminate|]. apply Hc in H. discriminate.
Qed.

Lemma latch_fires_entries (F : Neuron.state -> bool)
  (M : MainWindow.notification) (A : Prop) (s st st' : MainWindow.state)
  (more : list (R * MainWindow.notification)) :
  latch_fires F M A s st ->
  MainWindow.log_widget st' = MainWindow.log_widget st ++ more ->
  ~ logged M more ->
  F (MainWindow.neuron st') = F (MainWindow.neuron st) ->
  latch_fires F M A s st'.
Proof.
  intros (entries & Hlog & Hlogged & Hset) Hl Hno Hflag.
  exists (entries ++ more). split; [|split].
  - rewrite Hl, Hlog, app_assoc. reflexivity.
  - rewrite <- Hlogged. unfold logged in *. rewrite map_app. split.
    + intros H. apply in_app_or in H.
      destruct H as [H|H]; [exact H|exfalso; exact (Hno H)].
    + intros H. apply in_or_app. left. exact H.
  - rewrite Hflag. exact Hset.
Qed.

Lemma latch_fires_other (F : Neuron.state -> bool)
  (M M' : MainWindow.notification) (A : Prop) (c : bool)
  (f : Neuron.state -> Neuron.state) (s st : MainWindow.state) :
  latch_fires F M A s st ->
  M' <> M ->
  (forall x, F (f x) = F x) ->
  latch_fires F M A s (flag_stage c f M' st).
Proof.
  intros Hfires Hne Hf.
  destruct (flag_stage_log c f M' st) as [Hl Hn].
  apply (latch_fires_entries F M A s st _
           (if c then [(MainWindow.time_ms st / 1000, M')] else []) Hfires Hl).
  - unfold logged. destruct c; cbn; [|intros H; exact H].
    intros [H|H]; [exact (Hne H)|exact H].
  - rewrite Hn. destruct c; [apply Hf|reflexivity].
Qed.

Lemma latch_fires_recovery (F : Neuron.state -> bool)
  (M : MainWindow.notification) (A : Prop) (s st : MainWindow.state) :
  latch_fires F M A s st ->
  (forall r, MainWindow.Recovery r <> M) ->
  latch_fires F M A s (recovery_stage st).
Proof.
  intros Hfires Hne. unfold recovery_stage.
  destruct (MainWindow.last_step_time_ms st) as [last|]; [|exact Hfires].
  match goal with |- context [if ?c then _ else _] => destruct c end;
    [|exact Hfires].
  apply (latch_fires_entries F M A s st _
           [(MainWindow.time_ms st / 1000,
             MainWindow.Recovery (MainWindow.time_ms st - last))] Hfires).
  - reflexivity.
  - unfold logged. cbn. intros [H|H]; [exact (Hne _ H)|exact H].
  - reflexivity.
Qed.

Lemma cascade_threshold (a b : R) (mode : string) :
  ltb a 0.2 && ltb 0.5 b && negb (mode =? "OFF")%string = true
  <-> a < 0.2 /\ 0.5 < b /\ mode <> "OFF"%string.
Proof.
  split.
  - intros H. apply andb_true_iff in H. destruct H as [H H3].
    apply andb_true_iff in H. destruct H as [H1 H2].
    split; [apply ltb_true, H1|]. split; [apply ltb_true, H2|].
    apply String.eqb_neq. apply negb_true_iff, H3.
  - intros (H1 & H2 & H3).
    apply andb_true_iff. split; [apply andb_true_iff; split|].
    + apply ltb_true, H1.
    + apply ltb_true, H2.
    + apply negb_true_iff, String.eqb_neq, H3.
Qed.

Ltac fires_chain :=
  lazymatch goal with
  | H : ?st = flag_stage _ _ _ _ |- latch_fires _ _ _ _ ?st =>
      rewrite H; clear H;
      first
        [ apply latch_fires_other;
          [fires_chain | discriminate | intros ?; reflexivity]
        | apply latch_fires_own;
          [pending_chain | intros ?; reflexivity
          | first [apply ltb_true | apply cascade_threshold]] ]
  end.

Lemma update_event_logs_fires (F : Neuron.state -> bool)
  (M : MainWindow.notification) (s : MainWindow.state) :
  Neuron.dead (MainWindow.neuron s) && MainWindow.running s = false ->
  In (F, M) latches ->
  latch_fires F M (alarm M s) s (MainWindow.update_event_logs s).
Proof.
  intros Hlive Hin.
  apply (update_event_logs_unfold s (latch_fires F M (alarm M s) s)).
  - intros E. rewrite E in Hlive. discriminate.
  - intros _ st0 st1 st2 st3 st4 st5 E0 E1 E2 E3 E4 E5.
    assert (S0 : simulation_of st0 = simulation_of s /\
                 MainWindow.running st0 = MainWindow.running s)
      by simulation_chain.
    assert (S1 : simulation_of st1 = simulation_of s /\
                 MainWindow.running st1 = MainWindow.running s)
      by simulation_chain.
    assert (S2 : simulation_of st2 = simulation_of s /\
                 MainWindow.running st2 = MainWindow.running s)
      by simulation_chain.
    assert (S3 : simulation_of st3 = simulation_of s /\
                 MainWindow.running st3 = MainWindow.running s)
      by simulation_chain.
    assert (S4 : simulation_of st4 = simulation_of s /\
                 MainWindow.running st4 = MainWindow.running s)
      by simulation_chain.
    assert (C0 : Neuron.Ca (MainWindow.neuron st0)
                 = Neuron.Ca (MainWindow.neuron s))
      by exact (f_equal (fun w => Neuron.Ca (MainWindow.neuron w)) (proj1 S0)).
    assert (C1 : Neuron.mito (MainWindow.neuron st1)
                 = Neuron.mito (MainWindow.neuron s))
      by exact (f_equal (fun w => Neuron.mito (MainWindow.neuron w))
                  (proj1 S1)).
    assert (C2 : Neuron.integrity (MainWindow.neuron st2)
                 = Neuron.integrity (MainWindow.neuron s))
      by exact (f_equal (fun w => Neuron.integrity (MainWindow.neuron w))
                  (proj1 S2)).
    assert (C3 : Neuron.damage (MainWindow.neuron st3)
                 = Neuron.damage (MainWindow.neuron s))
      by exact (f_equal (fun w => Neuron.damage (MainWindow.neuron w))
                  (proj1 S3)).
    assert (C4 : Neuron.ATP (MainWindow.neuron st4)
                 = Neuron.ATP (MainWindow.neuron s))
      by exact (f_equal (fun w => Neuron.ATP (MainWindow.neuron w))
                  (proj1 S4)).
    assert (C5 : Neuron.Ca (MainWindow.neuron st4)
                 = Neuron.Ca (MainWindow.neuron s))
      by exact (f_equal (fun w => Neuron.Ca (MainWindow.neuron w)) (proj1 S4)).
    rewrite C0 in E1. rewrite C1 in E2. rewrite C2 in E3. rewrite C3 in E4.
    rewrite C4, C5 in E5.
    clear S0 S1 S2 S3 S4 C0 C1 C2 C3 C4 C5.
    apply latch_fires_recovery.
    + cbn in Hin.
      destruct Hin as [H|[H|[H|[H|[H|[H|[]]]]]]]; inversion H; subst F M;
        cbn [alarm]; fires_chain.
    + intros r. cbn in Hin.
      destruct Hin as [H|[H|[H|[H|[H|[H|[]]]]]]]; inversion H; discriminate.
Qed.

(** X26.  The warnings fire on their thresholds.  Unless the call reports
    the death of the cell, over one [update_event_logs] each of the six
    warnings is logged exactly when its condition holds at entry with its
    flag clear (ATP < 0.3; Ca > 1; mito < 80; integrity < 60; damage > 20;
    ATP < 0.2 and Ca > 0.5 with the stimulation not off), and its flag is
    set afterwards exactly when it was set or the condition holds: no
    warning hides or triggers another. *)
Theorem X26_warnings_fire_on_thresholds (s : MainWindow.state) :
  Neuron.dead (MainWindow.neuron s) && MainWindow.running s = false ->
  Forall (fun latch =>
            latch_fires (fst latch) (snd latch) (alarm (snd latch) s) s
              (MainWindow.update_event_logs s))
         latches.
Proof.
  intros Hlive. apply Forall_forall. intros [F M] Hin. cbn [fst snd].
  apply update_event_logs_fires; assumption.
Qed.

Lemma X26_warnings_fire_on_thresholds_witness :
  let s := MainWindow.set_neuron (Neuron.kill Neuron.init) MainWindow.init in
  Neuron.dead (MainWindow.neuron s) && MainWindow.running s = false /\
  Neuron.flag_atp_low (MainWindow.neuron s) = false /\
  Neuron.flag_atp_low (MainWindow.neuron (MainWindow.update_event_logs s))
  = true.
Proof.
  cbv zeta. split; [reflexivity|]. split; [reflexivity|].
  pose proof (X26_warnings_fire_on_thresholds
                (MainWindow.set_neuron (Neuron.kill Neuron.init)
                   MainWindow.init) eq_refl) as H.
  apply Forall_inv in H. cbn [fst snd] in H.
  destruct H as (entries & _ & _ & Hset).
  apply Hset. right. cbn [alarm]. window_eval.
  rewrite (kill_alive Neuron.init eq_refl). cbn [Neuron.ATP]. lra.
Defined.

(** ** The orchestrator: a second look changes nothing *)

Lemma recovery_stage_logged (st : MainWindow.state) :
  MainWindow.step_recovery_logged st = true -> recovery_stage st = st.
Proof.
  intros H. unfold recovery_stage.
  destruct (MainWindow.last_step_time_ms st); [|reflexivity].
  rewrite H. cbn [negb]. rewrite andb_false_r. cbn [andb]. reflexivity.
Qed.

Lemma recovery_stage_idem (st : MainWindow.state) :
  recovery_stage (recovery_stage st) = recovery_stage st.
Proof.
  assert (H : recovery_stage st = st \/
              MainWindow.step_recovery_logged (recovery_stage st) = true).
  { unfold recovery_stage.
    destruct (MainWindow.last_step_time_ms st); [|left; reflexivity].
    match goal with |- context [if ?c then _ else _] => destruct c end;
      [right; reflexivity | left; reflexivity]. }
  destruct H as [H|H].
  - rewrite !H. reflexivity.
  - apply recovery_stage_logged, H.
Qed.

Lemma settled_condition (c fl fl0 : bool) (A : Prop) :
  (fl = true <-> fl0 = true \/ A) ->
  (c = true -> A) ->
  c && negb fl = false.
Proof.
  intros H Hc. destruct c; [|reflexivity].
  destruct fl; [reflexivity|]. exfalso.
  assert (E : false = true) by (apply H; right; apply Hc; reflexivity).
  discriminate.
Qed.

Lemma update_event_logs_settles (s : MainWindow.state) :
  Neuron.dead (MainWindow.neuron s) && MainWindow.running s = false ->
  MainWindow.update_event_logs (MainWindow.update_event_logs s)
  = MainWindow.update_event_logs s.
Proof.
  intros Hlive.
  destruct (update_event_logs_simulation s) as (Hsim & Hrun & _).
  assert (Hrec : recovery_stage (MainWindow.update_event_logs s)
                 = MainWindow.update_event_logs s).
  { apply (update_event_logs_unfold s (fun r => recovery_stage r = r)).
    - intros E. rewrite E in Hlive. discriminate.
    - intros. apply recovery_stage_idem. }
  destruct (update_event_logs_fires Neuron.flag_atp_low MainWindow.AtpLow s
              Hlive ltac:(left; reflexivity)) as (? & _ & _ & L0).
  destruct (update_event_logs_fires Neuron.flag_ca_high MainWindow.CaHigh s
              Hlive ltac:(right; left; reflexivity)) as (? & _ & _ & L1).
  destruct (update_event_logs_fires Neuron.flag_mito_stress
              MainWindow.MitoStress s
              Hlive ltac:(do 2 right; left; reflexivity)) as (? & _ & _ & L2).
  destruct (update_event_logs_fires Neuron.flag_integrity_low
              MainWindow.IntegrityLow s
              Hlive ltac:(do 3 right; left; reflexivity)) as (? & _ & _ & L3).
  destruct (update_event_logs_fires Neuron.flag_damage_high
              MainWindow.DamageHigh s
              Hlive ltac:(do 4 right; left; reflexivity)) as (? & _ & _ & L4).
  destruct (update_event_logs_fires Neuron.flag_cascade MainWindow.Cascade s
              Hlive ltac:(do 5 right; left; reflexivity)) as (? & _ & _ & L5).
  cbn [alarm] in L0, L1, L2, L3, L4, L5.
  remember (MainWindow.update_event_logs s) as s' eqn:Es'. clear Es'.
  assert (Hdead : Neuron.dead (MainWindow.neuron s')
                  = Neuron.dead (MainWindow.neuron s))
    by exact (f_equal (fun w => Neuron.dead (MainWindow.neuron w)) Hsim).
  assert (HATP : Neuron.ATP (MainWindow.neuron s')
                 = Neuron.ATP (MainWindow.neuron s))
    by exact (f_equal (fun w => Neuron.ATP (MainWindow.neuron w)) Hsim).
  assert (HCa : Neuron.Ca (MainWindow.neuron s')
                = Neuron.Ca (MainWindow.neuron s))
    by exact (f_equal (fun w => Neuron.Ca (MainWindow.neuron w)) Hsim).
  assert (Hmito : Neuron.mito (MainWindow.neuron s')
                  = Neuron.mito (MainWindow.neuron s))
    by exact (f_equal (fun w => Neuron.mito (MainWindow.neuron w)) Hsim).
  assert (Hint : Neuron.integrity (MainWindow.neuron s')
                 = Neuron.integrity (MainWindow.neuron s))
    by exact (f_equal (fun w => Neuron.integrity (MainWindow.neuron w)) Hsim).
  assert (Hdam : Neuron.damage (MainWindow.neuron s')
                 = Neuron.damage (MainWindow.neuron s))
    by exact (f_equal (fun w => Neuron.damage (MainWindow.neuron w)) Hsim).
  assert (Hstim : MainWindow.stim s' = MainWindow.stim s)
    by exact (f_equal MainWindow.stim Hsim).
  clear Hsim.
  apply (update_event_logs_unfold s' (fun r => r = s')).
  - intros E. exfalso. rewrite Hdead, Hrun in E.
    destruct (Neuron.dead (MainWindow.neuron s));
      destruct (MainWindow.running s); discriminate.
  - intros _ st0 st1 st2 st3 st4 st5 E0 E1 E2 E3 E4 E5.
    rewrite (settled_condition _ _ _ _ L0) in E0
      by (intros H; apply ltb_true in H; rewrite HATP in H; exact H).
    unfold flag_stage in E0. subst st0.
    rewrite (settled_condition _ _ _ _ L1) in E1
      by (intros H; apply ltb_true in H; rewrite HCa in H; exact H).
    unfold flag_stage in E1. subst st1.
    rewrite (settled_condition _ _ _ _ L2) in E2
      by (intros H; apply ltb_true in H; rewrite Hmito in H; exact H).
    unfold flag_stage in E2. subst st2.
    rewrite (settled_condition _ _ _ _ L3) in E3
      by (intros H; apply ltb_true in H; rewrite Hint in H; exact H).
    unfold flag_stage in E3. subst st3.
    rewrite (settled_condition _ _ _ _ L4) in E4
      by (intros H; apply ltb_true in H; rewrite Hdam in H; exact H).
    unfold flag_stage in E4. subst st4.
    rewrite (settled_condition _ _ _ _ L5) in E5
      by (intros H; apply cascade_threshold in H;
          rewrite HATP, HCa, Hstim in H; exact H).
    unfold flag_stage in E5. subst st5.
    exact Hrec.
Qed.

(** X27.  A second look changes nothing: unless the first call reports
    the death of the cell, calling [update_event_logs] again right after it
    leaves the orchestrator exactly as the first call left it; nothing is
    logged twice and no flag moves without a step of the simulation in
    between. *)
Theorem X27_event_detection_settles (s : MainWindow.state) :
  Neuron.dead (MainWindow.neuron s) && MainWindow.running s = false ->
  MainWindow.update_event_logs (MainWindow.update_event_logs s)
  = MainWindow.update_event_logs s.
Proof. apply update_event_logs_settles. Qed.

Lemma X27_event_detection_settles_witness :
  let s := MainWindow.set_neuron (Neuron.kill Neuron.init) MainWindow.init in
  Neuron.dead (MainWindow.neuron s) && MainWindow.running s = false /\
  MainWindow.update_event_logs (MainWindow.update_event_logs s)
  = MainWindow.update_event_logs s.
Proof.
  cbv zeta. split; [reflexivity|].
  apply (X27_event_detection_settles
           (MainWindow.set_neuron (Neuron.kill Neuron.init) MainWindow.init)).
  reflexivity.
Defined.

(** ** The range of [math.exp] *)

Lemma exp_nat_mul (a : R) (n : nat) : exp (INR n * a) = exp a ^ n.
Proof.
  induction n as [|n IH].
  - cbn [INR pow]. rewrite Rmult_0_l. apply exp_0.
  - rewrite S_INR, Rmult_plus_distr_r, Rmult_1_l, exp_plus, IH.
    cbn [pow]. apply Rmult_comm.
Qed.

Lemma exp_overflow_IZR :
  exp_overflow = IZR ((2 ^ Z.of_nat 54 - 1) * 2 ^ Z.of_nat 970).
Proof.
  unfold exp_overflow.
  rewrite mult_IZR, minus_IZR, <- !pow_IZR. reflexivity.
Qed.

(** [exp 497 <= 3^497 < 2^1024 - 2^970]. *)
Lemma exp_below_overflow (x : R) : x <= 497 -> exp x < exp_overflow.
Proof.
  intros Hx.
  assert (H1 : exp x <= exp 497).
  { destruct Hx as [Hx| ->]; [left; apply exp_increasing; exact Hx|].
    apply Rle_refl. }
  assert (H2 : exp 497 <= 3 ^ 497).
  { replace 497 with (INR 497 * 1) at 1.
    - rewrite exp_nat_mul. apply pow_incr. split.
      + left. apply exp_pos.
      + apply exp_le_3.
    - rewrite INR_IZR_INZ. change (Z.of_nat 497) with 497%Z. lra. }
  assert (H3 : 3 ^ 497 < exp_overflow).
  { rewrite exp_overflow_IZR, pow_IZR. apply IZR_lt.
    apply Z.ltb_lt. vm_compute. reflexivity. }
  eapply Rle_lt_trans; [exact H1|].
  eapply Rle_lt_trans; [exact H2|exact H3].
Qed.

(** [exp 796 >= (5/4)^3184 >= 2^1024 - 2^970]. *)
Lemma exp_above_overflow (x : R) : 796 <= x -> exp_overflow <= exp x.
Proof.
  intros Hx.
  assert (H1 : exp 796 <= exp x).
  { destruct Hx as [Hx| <-]; [left; apply exp_increasing; exact Hx|].
    apply Rle_refl. }
  assert (H2 : (5 / 4) ^ 3184 <= exp 796).
  { replace 796 with (INR 3184 * (1 / 4)).
    - rewrite exp_nat_mul. apply pow_incr. split; [lra|].
      pose proof (exp_ineq1_le (1 / 4)). lra.
    - rewrite INR_IZR_INZ. change (Z.of_nat 3184) with 3184%Z. lra. }
  assert (H3 : exp_overflow <= (5 / 4) ^ 3184).
  { assert (Hq : (5 / 4) ^ 3184 * 4 ^ 3184 = 5 ^ 3184).
    { rewrite <- Rpow_mult_distr. f_equal. lra. }
    assert (Hpos : 0 < 4 ^ 3184) by (apply pow_lt; lra).
    assert (Hz : exp_overflow * 4 ^ 3184 <= 5 ^ 3184).
    { rewrite exp_overflow_IZR, !pow_IZR, <- mult_IZR. apply IZR_le.
      apply Z.leb_le. vm_compute. reflexivity. }
    apply (Rmult_le_reg_r (4 ^ 3184)); [exact Hpos|].
    rewrite Hq. exact Hz. }
  eapply Rle_trans; [exact H3|].
  eapply Rle_trans; [exact H2|exact H1].
Qed.

Lemma math_exp_ok (x : R) : x <= 497 -> math_exp x = Ok (exp x).
Proof.
  intros Hx. unfold math_exp.
  destruct (Rle_dec exp_overflow (exp x)) as [H|H]; [|reflexivity].
  pose proof (exp_below_overflow x Hx) as Hlt.
  exfalso. exact (Rlt_irrefl _ (Rle_lt_trans _ _ _ H Hlt)).
Qed.

Lemma math_exp_raises (x : R) :
  796 <= x -> math_exp x = Raise OverflowError.
Proof.
  intros Hx. unfold math_exp.
  destruct (Rle_dec exp_overflow (exp x)) as [H|H]; [reflexivity|].
  exfalso. exact (H (exp_above_overflow x Hx)).
Qed.

Lemma math_exp_cases (x : R) :
  math_exp x = Ok (exp x) \/ math_exp x = Raise OverflowError.
Proof.
  unfold math_exp. destruct (Rle_dec exp_overflow (exp x)); auto.
Qed.

(** ** The rates never divide by zero (C7) *)

Lemma ranged_alpha_m_cases (u : R) :
  Neuron.Ranged._alpha_m u = Neuron._alpha_m u \/
  (u <> -40 /\ exp_overflow <= exp (- (u + 40) / 10) /\
   Neuron.Ranged._alpha_m u = Raise OverflowError).
Proof.
  unfold Neuron.Ranged._alpha_m, Neuron._alpha_m, math_exp.
  destruct (neqb u (-40)) eqn:E; [|left; reflexivity].
  destruct (Rle_dec exp_overflow (exp (- (u + 40) / 10))) as [H|H].
  - right. apply neqb_true in E. split; [exact E|]. split; [exact H|].
    reflexivity.
  - left. reflexivity.
Qed.

Lemma ranged_alpha_n_cases (u : R) :
  Neuron.Ranged._alpha_n u = Neuron._alpha_n u \/
  (u <> -55 /\ exp_overflow <= exp (- (u + 55) / 10) /\
   Neuron.Ranged._alpha_n u = Raise OverflowError).
Proof.
  unfold Neuron.Ranged._alpha_n, Neuron._alpha_n, math_exp.
  destruct (neqb u (-55)) eqn:E; [|left; reflexivity].
  destruct (Rle_dec exp_overflow (exp (- (u + 55) / 10))) as [H|H].
  - right. apply neqb_true in E. split; [exact E|]. split; [exact H|].
    reflexivity.
  - left. reflexivity.
Qed.

Lemma ranged_beta_h_cases (u : R) :
  Neuron.Ranged._beta_h u = Neuron._beta_h u \/
  Neuron.Ranged._beta_h u = Raise OverflowError.
Proof.
  unfold Neuron.Ranged._beta_h, Neuron._beta_h.
  destruct (math_exp_cases (- (u + 35) / 10)) as [-> | ->]; auto.
Qed.

Lemma ranged_beta_m_cases (u : R) :
  Neuron.Ranged._beta_m u = Ok (Neuron._beta_m u) \/
  Neuron.Ranged._beta_m u = Raise OverflowError.
Proof.
  unfold Neuron.Ranged._beta_m, Neuron._beta_m.
  destruct (math_exp_cases (- (u + 65) / 18)) as [-> | ->]; auto.
Qed.

Lemma ranged_alpha_h_cases (u : R) :
  Neuron.Ranged._alpha_h u = Ok (Neuron._alpha_h u) \/
  Neuron.Ranged._alpha_h u = Raise OverflowError.
Proof.
  unfold Neuron.Ranged._alpha_h, Neuron._alpha_h.
  destruct (math_exp_cases (- (u + 65) / 20)) as [-> | ->]; auto.
Qed.

Lemma ranged_beta_n_cases (u : R) :
  Neuron.Ranged._beta_n u = Ok (Neuron._beta_n u) \/
  Neuron.Ranged._beta_n u = Raise OverflowError.
Proof.
  unfold Neuron.Ranged._beta_n, Neuron._beta_n.
  destruct (math_exp_cases (- (u + 65) / 80)) as [-> | ->]; auto.
Qed.

(** From -5000 mV up no exponent of a rate function is above 497. *)
Lemma ranged_rates_return (u : R) :
  -5000 <= u ->
  Neuron.Ranged._alpha_m u = Neuron._alpha_m u /\
  Neuron.Ranged._beta_m u = Ok (Neuron._beta_m u) /\
  Neuron.Ranged._alpha_h u = Ok (Neuron._alpha_h u) /\
  Neuron.Ranged._beta_h u = Neuron._beta_h u /\
  Neuron.Ranged._alpha_n u = Neuron._alpha_n u /\
  Neuron.Ranged._beta_n u = Ok (Neuron._beta_n u).
Proof.
  intros Hu.
  unfold Neuron.Ranged._alpha_m, Neuron.Ranged._beta_m,
    Neuron.Ranged._alpha_h, Neuron.Ranged._beta_h, Neuron.Ranged._alpha_n,
    Neuron.Ranged._beta_n.
  rewrite (math_exp_ok (- (u + 40) / 10)) by lra.
  rewrite (math_exp_ok (- (u + 65) / 18)) by lra.
  rewrite (math_exp_ok (- (u + 65) / 20)) by lra.
  rewrite (math_exp_ok (- (u + 35) / 10)) by lra.
  rewrite (math_exp_ok (- (u + 55) / 10)) by lra.
  rewrite (math_exp_ok (- (u + 65) / 80)) by lra.
  cbn [bind]. repeat split; reflexivity.
Qed.

(** [Ranged.step] is [step], unless [math.exp] overflows. *)
Lemma ranged_step_cases (s : Neuron.state) (dt_ms i_ext : R) (k : bool)
  (g : R) :
  Neuron.Ranged.step s dt_ms i_ext k g = Neuron.step s dt_ms i_ext k g \/
  Neuron.Ranged.step s dt_ms i_ext k g = Raise OverflowError.
Proof.
  unfold Neuron.Ranged.step, Neuron.step. cbv zeta.
  fold (entered s dt_ms k).
  destruct (Neuron.dead (entered s dt_ms k)); [left; reflexivity|].
  destruct (ranged_alpha_m_cases (Neuron.v (entered s dt_ms k)))
    as [-> | (_ & _ & ->)]; [|right; reflexivity].
  destruct (Neuron._alpha_m (Neuron.v (entered s dt_ms k))) as [am|e];
    [|left; reflexivity].
  cbn [bind].
  destruct (ranged_beta_m_cases (Neuron.v (entered s dt_ms k)))
    as [-> | ->]; [|right; reflexivity].
  cbn [bind].
  destruct (ranged_alpha_h_cases (Neuron.v (entered s dt_ms k)))
    as [-> | ->]; [|right; reflexivity].
  cbn [bind].
  destruct (ranged_beta_h_cases (Neuron.v (entered s dt_ms k)))
    as [-> | ->]; [|right; reflexivity].
  destruct (Neuron._beta_h (Neuron.v (entered s dt_ms k))) as [bh|e];
    [|left; reflexivity].
  cbn [bind].
  destruct (ranged_alpha_n_cases (Neuron.v (entered s dt_ms k)))
    as [-> | (_ & _ & ->)]; [|right; reflexivity].
  destruct (Neuron._alpha_n (Neuron.v (entered s dt_ms k))) as [an|e];
    [|left; reflexivity].
  cbn [bind].
  destruct (ranged_beta_n_cases (Neuron.v (entered s dt_ms k)))
    as [-> | ->]; [|right; reflexivity].
  cbn [bind]. left. reflexivity.
Qed.

Lemma entered_alive_v (s : Neuron.state) (dt_ms : R) (k : bool) :
  Neuron.dead (entered s dt_ms k) = false ->
  Neuron.v (entered s dt_ms k) = Neuron.v s.
Proof.
  unfold entered. destruct (k && negb (Neuron.dead s)); [|reflexivity].
  unfold Neuron.forced_collapse. cbv zeta.
  match goal with |- context [if ?c then _ else _] => destruct c end.
  - rewrite kill_is_dead. discriminate.
  - intros _. reflexivity.
Qed.

Lemma ranged_step_returns (s : Neuron.state) (dt_ms i_ext : R) (k : bool)
  (g : R) :
  -5000 <= Neuron.v s ->
  Neuron.Ranged.step s dt_ms i_ext k g = Neuron.step s dt_ms i_ext k g.
Proof.
  intros Hv.
  unfold Neuron.Ranged.step, Neuron.step. cbv zeta.
  fold (entered s dt_ms k).
  destruct (Neuron.dead (entered s dt_ms k)) eqn:Hd; [reflexivity|].
  rewrite <- (entered_alive_v s dt_ms k Hd) in Hv.
  destruct (ranged_rates_return _ Hv) as (-> & -> & -> & -> & -> & ->).
  rewrite alpha_m_value, beta_h_value, alpha_n_value.
  cbn [bind]. reflexivity.
Qed.

(** C7, as the code has it.  No rate function divides by zero: [alpha_m]
    and [alpha_n] (and [beta_h], the third one that divides) return a value
    at every voltage at which [math.exp] does not overflow, so at every
    voltage from -5000 mV up, and raise the [OverflowError] of [math.exp]
    otherwise; the removable singularities are replaced by their limits,
    [alpha_m(-40) = 1.0] and [alpha_n(-55) = 0.1]; and no evaluation
    inside [step] divides by zero: [step] returns from -5000 mV up, and the
    only exception it can raise is that [OverflowError]. *)
Theorem C7_rates_never_divide_by_zero :
  (forall u,
     ((exists r, Neuron.Ranged._alpha_m u = Ok r) \/
      Neuron.Ranged._alpha_m u = Raise OverflowError) /\
     ((exists r, Neuron.Ranged._alpha_n u = Ok r) \/
      Neuron.Ranged._alpha_n u = Raise OverflowError) /\
     ((exists r, Neuron.Ranged._beta_h u = Ok r) \/
      Neuron.Ranged._beta_h u = Raise OverflowError)) /\
  (forall u, -5000 <= u ->
     exists am bm ah bh an bn,
       Neuron.Ranged._alpha_m u = Ok am /\
       Neuron.Ranged._beta_m u = Ok bm /\
       Neuron.Ranged._alpha_h u = Ok ah /\
       Neuron.Ranged._beta_h u = Ok bh /\
       Neuron.Ranged._alpha_n u = Ok an /\
       Neuron.Ranged._beta_n u = Ok bn) /\
  Neuron.Ranged._alpha_m (-40) = Ok 1 /\
  Neuron.Ranged._alpha_n (-55) = Ok 0.1 /\
  (forall s dt_ms i_ext kill_mode gauss,
     (exists s' r,
        Neuron.Ranged.step s dt_ms i_ext kill_mode gauss = Ok (s', r)) \/
     Neuron.Ranged.step s dt_ms i_ext kill_mode gauss
     = Raise OverflowError) /\
  (forall s dt_ms i_ext kill_mode gauss,
     -5000 <= Neuron.v s ->
     exists s' r,
       Neuron.Ranged.step s dt_ms i_ext kill_mode gauss = Ok (s', r)).
Proof.
  split; [|split; [|split; [|split; [|split]]]].
  - intros u. split; [|split].
    + destruct (ranged_alpha_m_cases u) as [-> | (_ & _ & ->)];
        [rewrite alpha_m_value; eauto | auto].
    + destruct (ranged_alpha_n_cases u) as [-> | (_ & _ & ->)];
        [rewrite alpha_n_value; eauto | auto].
    + destruct (ranged_beta_h_cases u) as [-> | ->];
        [rewrite beta_h_value; eauto | auto].
  - intros u Hu.
    destruct (ranged_rates_return u Hu) as (-> & -> & -> & -> & -> & ->).
    rewrite alpha_m_value, beta_h_value, alpha_n_value.
    do 6 eexists. repeat split; reflexivity.
  - unfold Neuron.Ranged._alpha_m.
    replace (neqb (-40) (-40)) with false; [reflexivity|].
    symmetry. apply neqb_false. reflexivity.
  - unfold Neuron.Ranged._alpha_n.
    replace (neqb (-55) (-55)) with false; [reflexivity|].
    symmetry. apply neqb_false. reflexivity.
  - intros s dt_ms i_ext k g.
    destruct (ranged_step_cases s dt_ms i_ext k g) as [-> | ->];
      [left; apply step_total | right; reflexivity].
  - intros s dt_ms i_ext k g Hv.
    rewrite ranged_step_returns by exact Hv. apply step_total.
Qed.

Lemma C7_rates_never_divide_by_zero_witness :
  -5000 <= Neuron.v Neuron.init /\
  (exists r, Neuron.Ranged._alpha_m (Neuron.v Neuron.init) = Ok r) /\
  exists s' r, Neuron.Ranged.step Neuron.init 0.025 10 false 0 = Ok (s', r).
Proof.
  destruct C7_rates_never_divide_by_zero as (_ & Hr & _ & _ & _ & Hstep).
  assert (Hv : -5000 <= Neuron.v Neuron.init) by (cbn; lra).
  split; [exact Hv|]. split.
  - destruct (Hr _ Hv) as (am & bm & ah & bh & an & bn & H & _).
    exists am. exact H.
  - apply Hstep. exact Hv.
Defined.

(** C7 as stated fails: [alpha_m] is not defined at every voltage.  At
    -8000 mV it evaluates [math.exp(796.0)], which is beyond the binary64
    range, and raises [OverflowError]. *)
Lemma C7_alpha_m_overflows :
  Neuron.Ranged._alpha_m (-8000) = Raise OverflowError /\
  ~ exists r, Neuron.Ranged._alpha_m (-8000) = Ok r.
Proof.
  assert (H : Neuron.Ranged._alpha_m (-8000) = Raise OverflowError).
  { unfold Neuron.Ranged._alpha_m.
    replace (neqb (-8000) (-40)) with true
      by (symmetry; apply neqb_true; lra).
    rewrite math_exp_raises by lra. reflexivity. }
  split; [exact H|]. intros (r & Hr). rewrite H in Hr. discriminate.
Qed.

(** ** The pulse train on binary64 (C6) *)

Lemma b64_zero_leb (x : Binary64.float) :
  Binary64.is_zero x = true ->
  Binary64.leb x (SpecFloat.S754_zero false) = true.
Proof. destruct x as [s|s| |s m e]; try discriminate. reflexivity. Qed.

Lemma b64_py_div_ok (a b : Binary64.float) :
  Binary64.leb b (SpecFloat.S754_zero false) = false ->
  Binary64.py_div a b = Ok (SpecFloat.SFdiv Binary64.prec Binary64.emax a b).
Proof.
  intros H. unfold Binary64.py_div.
  destruct (Binary64.is_zero b) eqn:E; [|reflexivity].
  rewrite (b64_zero_leb b E) in H. discriminate.
Qed.

Lemma b64_py_mod_ok (x y : Binary64.float) :
  Binary64.leb y (SpecFloat.S754_zero false) = false ->
  exists r, Binary64.py_mod x y = Ok r.
Proof.
  intros H. unfold Binary64.py_mod.
  destruct (Binary64.is_zero y) eqn:E.
  - rewrite (b64_zero_leb y E) in H. discriminate.
  - cbv zeta.
    destruct (negb (Binary64.is_zero (Binary64.fmod x y)));
      [destruct (negb _)|]; eexists; reflexivity.
Qed.

(** In PULSE mode [current_at] is what its tests on the computed elapsed
    time, period and phase say. *)
Lemma b64_pulse_cases (s : Binary64.Stimulator.state) (t : Binary64.float) :
  Binary64.Stimulator.mode s = "PULSE"%string ->
  let zero := SpecFloat.S754_zero false in
  let rel_t := Binary64.sub t (Binary64.Stimulator.protocol_start_time s) in
  (Binary64.leb (Binary64.Stimulator.frequency s) zero
   || Binary64.ltb rel_t zero = true ->
   Binary64.Stimulator.current_at s t = Ok (s, zero)) /\
  (Binary64.leb (Binary64.Stimulator.frequency s) zero
   || Binary64.ltb rel_t zero = false ->
   exists period,
     Binary64.py_div (Binary64.of_Z 1000) (Binary64.Stimulator.frequency s)
     = Ok period /\
     (Binary64.leb period zero = true ->
      Binary64.Stimulator.current_at s t = Ok (s, zero)) /\
     (Binary64.leb period zero = false ->
      exists phase,
        Binary64.py_mod rel_t period = Ok phase /\
        Binary64.Stimulator.current_at s t
        = Ok (s, if Binary64.ltb phase
                      (Binary64.min (Binary64.Stimulator.pulse_width s) period)
                 then Binary64.Stimulator.amplitude s else zero))).
Proof.
  intros Hmode zero rel_t.
  unfold Binary64.Stimulator.current_at. rewrite Hmode.
  change ("PULSE" =? "OFF")%string with false.
  change ("PULSE" =? "STEP")%string with false.
  change ("PULSE" =? "CONSTANT")%string with false.
  change ("PULSE" =? "PULSE")%string with true.
  cbv iota zeta. fold zero. fold rel_t.
  split.
  - intros H. rewrite H. reflexivity.
  - intros H. rewrite H.
    apply orb_false_iff in H. destruct H as [Hf _].
    rewrite (b64_py_div_ok _ _ Hf). cbn [bind].
    eexists. split; [reflexivity|]. split.
    + intros Hp. rewrite Hp. reflexivity.
    + intros Hp. rewrite Hp.
      destruct (b64_py_mod_ok rel_t _ Hp) as (phase & Hphase).
      exists phase. split; [exact Hphase|].
      rewrite Hphase. cbn [bind].
      destruct (Binary64.ltb phase _); reflexivity.
Qed.

Lemma b64_current_at_total (s : Binary64.Stimulator.state)
  (t : Binary64.float) :
  exists s' i, Binary64.Stimulator.current_at s t = Ok (s', i).
Proof.
  destruct (String.eqb_spec (Binary64.Stimulator.mode s) "PULSE") as [E|E].
  - destruct (b64_pulse_cases s t E) as [H0 H1].
    destruct (Binary64.leb (Binary64.Stimulator.frequency s)
                (SpecFloat.S754_zero false)
              || Binary64.ltb
                   (Binary64.sub t (Binary64.Stimulator.protocol_start_time s))
                   (SpecFloat.S754_zero false)) eqn:Ec.
    + eexists _, _. apply H0. reflexivity.
    + destruct (H1 eq_refl) as (period & _ & Hle & Hgt).
      destruct (Binary64.leb period (SpecFloat.S754_zero false)) eqn:Ep.
      * eexists _, _. apply Hle. reflexivity.
      * destruct (Hgt eq_refl) as (phase & _ & Hc). eexists _, _. exact Hc.
  - apply String.eqb_neq in E.
    unfold Binary64.Stimulator.current_at. rewrite E.
    destruct (_ =? "OFF")%string; [eexists _, _; reflexivity|].
    destruct (_ =? "STEP")%string.
    { destruct (Binary64.Stimulator._step_current s t) as [s' i].
      exists s', i. reflexivity. }
    cbv zeta.
    destruct (_ =? "CONSTANT")%string; eexists _, _; reflexivity.
Qed.

(** A finite float minus itself is [+0.0]. *)
Lemma b64_sub_diag (x : Binary64.float) :
  Binary64.is_finite x = true ->
  Binary64.sub x x = SpecFloat.S754_zero false.
Proof.
  destruct x as [s|s| |s m e]; try discriminate; intros _.
  - destruct s; reflexivity.
  - unfold Binary64.sub, SpecFloat.SFsub. cbv zeta.
    rewrite Z.sub_diag. reflexivity.
Qed.

(** The value the protocol of the claim gives for a computed elapsed
    time. *)
Lemma b64_pulse_train_at (start t rel : Binary64.float) :
  Binary64.sub t start = rel ->
  Binary64.Stimulator.current_at (pulse_train start) t
  = (if Binary64.ltb rel (SpecFloat.S754_zero false)
     then Ok (pulse_train start, SpecFloat.S754_zero false)
     else
       phase <- Binary64.py_mod rel (Binary64.of_Z 100) ;;
       if Binary64.ltb phase (Binary64.of_Z 5)
       then Ok (pulse_train start, Binary64.of_Z 20)
       else Ok (pulse_train start, SpecFloat.S754_zero false)).
Proof.
  intros Hrel.
  unfold Binary64.Stimulator.current_at, pulse_train.
  cbn [Binary64.Stimulator.mode Binary64.Stimulator.frequency
       Binary64.Stimulator.protocol_start_time
       Binary64.Stimulator.pulse_width Binary64.Stimulator.amplitude].
  change ("PULSE" =? "OFF")%string with false.
  change ("PULSE" =? "STEP")%string with false.
  change ("PULSE" =? "CONSTANT")%string with false.
  change ("PULSE" =? "PULSE")%string with true.
  cbv iota zeta. rewrite Hrel.
  change (Binary64.leb (Binary64.of_Z 10) (SpecFloat.S754_zero false))
    with false.
  cbn [orb].
  change (Binary64.py_div (Binary64.of_Z 1000) (Binary64.of_Z 10))
    with (Ok (Binary64.of_Z 100)).
  cbn [bind].
  change (Binary64.leb (Binary64.of_Z 100) (SpecFloat.S754_zero false))
    with false.
  change (Binary64.min (Binary64.of_Z 5) (Binary64.of_Z 100))
    with (Binary64.of_Z 5).
  cbv iota. reflexivity.
Qed.

Lemma b64_add_zero_sub (x : Binary64.float) :
  Binary64.is_finite x = true ->
  Binary64.sub (Binary64.add x (Binary64.of_Z 0)) x
  = SpecFloat.S754_zero false.
Proof.
  destruct x as [s|s| |s m e]; try discriminate; intros _.
  - destruct s; reflexivity.
  - change (Binary64.add (SpecFloat.S754_finite s m e) (Binary64.of_Z 0))
      with (SpecFloat.S754_finite s m e).
    apply b64_sub_diag. reflexivity.
Qed.

(** C6, as the code has it.  In PULSE mode [current_at(t)] never raises
    and is a square wave phased from [protocol_start_time] by the elapsed
    time the code computes, [rel_t = t - protocol_start_time] in binary64:
    it is 0 whenever [frequency <= 0] or [rel_t < 0] ([t] before the
    start); otherwise, with [period = 1000 / frequency] (0 again when the
    period is not positive) and [width = min(pulse_width, period)], it is
    the amplitude when [rel_t % period < width] and 0 when not; the object
    is unchanged.  With [frequency = 10], [pulse_width = 5] and
    [amplitude = 20] it is 20 at [protocol_start + 0], 0 for a computed
    elapsed time of 6 and 20 for a computed elapsed time of 100, as at
    [0 + 6] and [0 + 100] after a start at 0. *)
Theorem C6_pulse_square_wave :
  (forall s t, exists s' i, Binary64.Stimulator.current_at s t = Ok (s', i)) /\
  (forall s t,
     Binary64.Stimulator.mode s = "PULSE"%string ->
     let zero := SpecFloat.S754_zero false in
     let rel_t :=
       Binary64.sub t (Binary64.Stimulator.protocol_start_time s) in
     (Binary64.leb (Binary64.Stimulator.frequency s) zero
      || Binary64.ltb rel_t zero = true ->
      Binary64.Stimulator.current_at s t = Ok (s, zero)) /\
     (Binary64.leb (Binary64.Stimulator.frequency s) zero
      || Binary64.ltb rel_t zero = false ->
      exists period,
        Binary64.py_div (Binary64.of_Z 1000)
          (Binary64.Stimulator.frequency s) = Ok period /\
        (Binary64.leb period zero = true ->
         Binary64.Stimulator.current_at s t = Ok (s, zero)) /\
        (Binary64.leb period zero = false ->
         exists phase,
           Binary64.py_mod rel_t period = Ok phase /\
           Binary64.Stimulator.current_at s t
           = Ok (s, if Binary64.ltb phase
                         (Binary64.min (Binary64.Stimulator.pulse_width s)
                            period)
                    then Binary64.Stimulator.amplitude s else zero)))) /\
  (forall start t,
     (Binary64.is_finite start = true ->
      Binary64.Stimulator.current_at (pulse_train start)
        (Binary64.add start (Binary64.of_Z 0))
      = Ok (pulse_train start, Binary64.of_Z 20)) /\
     (Binary64.sub t start = Binary64.of_Z 6 ->
      Binary64.Stimulator.current_at (pulse_train start) t
      = Ok (pulse_train start, SpecFloat.S754_zero false)) /\
     (Binary64.sub t start = Binary64.of_Z 100 ->
      Binary64.Stimulator.current_at (pulse_train start) t
      = Ok (pulse_train start, Binary64.of_Z 20))) /\
  (Binary64.Stimulator.current_at (pulse_train (Binary64.of_Z 0))
     (Binary64.add (Binary64.of_Z 0) (Binary64.of_Z 6))
   = Ok (pulse_train (Binary64.of_Z 0), SpecFloat.S754_zero false) /\
   Binary64.Stimulator.current_at (pulse_train (Binary64.of_Z 0))
     (Binary64.add (Binary64.of_Z 0) (Binary64.of_Z 100))
   = Ok (pulse_train (Binary64.of_Z 0), Binary64.of_Z 20)).
Proof.
  split; [exact b64_current_at_total|].
  split; [exact b64_pulse_cases|].
  split.
  - intros start t. split; [|split].
    + intros Hfin.
      rewrite (b64_pulse_train_at start _ _ (b64_add_zero_sub start Hfin)).
      vm_compute. reflexivity.
    + intros Hrel. rewrite (b64_pulse_train_at start t _ Hrel).
      vm_compute. reflexivity.
    + intros Hrel. rewrite (b64_pulse_train_at start t _ Hrel).
      vm_compute. reflexivity.
  - vm_compute. split; reflexivity.
Qed.

Lemma C6_pulse_square_wave_witness :
  Binary64.sub (Binary64.decimal 65 10) (Binary64.decimal 5 10)
  = Binary64.of_Z 6 /\
  Binary64.Stimulator.current_at (pulse_train (Binary64.decimal 5 10))
    (Binary64.decimal 65 10)
  = Ok (pulse_train (Binary64.decimal 5 10), SpecFloat.S754_zero false).
Proof.
  assert (H : Binary64.sub (Binary64.decimal 65 10)
                (Binary64.decimal 5 10) = Binary64.of_Z 6)
    by (vm_compute; reflexivity).
  split; [exact H|].
  destruct C6_pulse_square_wave as (_ & _ & Hs & _).
  apply (Hs (Binary64.decimal 5 10) (Binary64.decimal 65 10)).
  exact H.
Defined.

(** C6 as stated fails: [current_at(protocol_start + 100)] is not 20 for
    every start.  With the protocol started at 28.075 the float sum
    [28.075 + 100] is 128.075 and the elapsed time the code computes from
    it is 99.99999999999999 (7036874417766399 * 2^-46), in the inactive
    part of the first period: the result is 0. *)
Lemma C6_start_plus_100_gives_zero :
  let start := Binary64.decimal 28075 1000 in
  let t := Binary64.add start (Binary64.of_Z 100) in
  Binary64.sub t start = SpecFloat.S754_finite false 7036874417766399 (-46) /\
  Binary64.Stimulator.current_at (pulse_train start) t
  = Ok (pulse_train start, SpecFloat.S754_zero false).
Proof. vm_compute. split; reflexivity. Qed.

(** ** The updates of a tick (C8) *)

Lemma after_updates_succ (n : nat) (dt t : R) :
  after_updates (S n) dt t = after_updates n dt (t + dt).
Proof.
  unfold after_updates. induction n as [|n IH]; [reflexivity|].
  cbn [Nat.iter nat_rect] in *. rewrite IH. reflexivity.
Qed.

(** The body of the loop, whatever the channel: only the acquisition of a
    sample can fail. *)
Lemma loop_body_outcome (s : MainWindow.state) (gauss normal : R) :
  exists st' i x u,
    Stimulator.current_at (MainWindow.stim s) (MainWindow.time_ms s)
    = Ok (st', i) /\
    Neuron.step (MainWindow.neuron s) (MainWindow.dt s) i false gauss
    = Ok (x, u) /\
    MainWindow.loop_body s gauss normal
    = if leb (MainWindow.plot_dt_ms s)
             (MainWindow.time_since_last_plot s + MainWindow.dt s)
      then
        q <- DAQ.acquire_sample (MainWindow.daq s) u normal ;;
        Ok (sampled (advanced s st' x) q,
            MainWindow.mk_update (MainWindow.time_ms s) (MainWindow.dt s) i)
      else
        Ok (advanced s st' x,
            MainWindow.mk_update (MainWindow.time_ms s) (MainWindow.dt s) i).
Proof.
  destruct s. unfold MainWindow.loop_body. window_fields.
  destruct (current_at_total stim time_ms) as (st' & i & Hc).
  destruct (step_total neuron dt i false gauss) as (x & u & Hs).
  exists st', i, x, u. split; [exact Hc|]. split; [exact Hs|].
  rewrite Hc. cbn [bind]. window_fields. rewrite Hs. cbn [bind].
  window_fields.
  destruct (leb plot_dt_ms (time_since_last_plot + dt)).
  - destruct (DAQ.acquire_sample daq u normal) as [q|e]; cbn [bind];
      [|reflexivity].
    unfold sampled, advanced. window_fields. reflexivity.
  - unfold advanced. window_fields. reflexivity.
Qed.

(** An iteration that completes made one call of [Neuron.step], with the
    step of the loop and the current of the stimulator at the simulated
    time; it keeps the neuron of that call and adds [dt] to the simulated
    time. *)
Lemma loop_body_replay (s s' : MainWindow.state) (gauss normal : R)
  (c : MainWindow.update) :
  MainWindow.loop_body s gauss normal = Ok (s', c) ->
  exists u,
    Stimulator.current_at (MainWindow.stim s) (MainWindow.time_ms s)
    = Ok (MainWindow.stim s', MainWindow.with_i_stim c) /\
    Neuron.step (MainWindow.neuron s) (MainWindow.with_dt c)
      (MainWindow.with_i_stim c) false gauss
    = Ok (MainWindow.neuron s', u) /\
    MainWindow.at_time_ms c = MainWindow.time_ms s /\
    MainWindow.with_dt c = MainWindow.dt s /\
    MainWindow.time_ms s' = MainWindow.time_ms s + MainWindow.dt s /\
    MainWindow.dt s' = MainWindow.dt s.
Proof.
  destruct (loop_body_outcome s gauss normal)
    as (st' & i & x & u & Hc & Hs & ->).
  intros Hbody. exists u.
  destruct (leb (MainWindow.plot_dt_ms s)
              (MainWindow.time_since_last_plot s + MainWindow.dt s)).
  - destruct (DAQ.acquire_sample (MainWindow.daq s) u normal) as [q|e];
      [|discriminate].
    cbn [bind] in Hbody. apply Ok_pair_inj in Hbody.
    destruct Hbody as [<- <-].
    repeat split; try reflexivity; assumption.
  - apply Ok_pair_inj in Hbody. destruct Hbody as [<- <-].
    repeat split; try reflexivity; assumption.
Qed.

Lemma for_range_replay (count : nat) :
  forall (i : nat) (draws : nat -> R * R) (s s' : MainWindow.state)
    (calls : list MainWindow.update),
  MainWindow.for_range count i draws s = Ok (s', calls) ->
  length calls = count /\
  replay calls i draws (MainWindow.neuron s) = Ok (MainWindow.neuron s') /\
  MainWindow.time_ms s'
  = after_updates count (MainWindow.dt s) (MainWindow.time_ms s) /\
  forall j c, nth_error calls j = Some c ->
    MainWindow.at_time_ms c
    = after_updates j (MainWindow.dt s) (MainWindow.time_ms s) /\
    MainWindow.with_dt c = MainWindow.dt s.
Proof.
  induction count as [|count IH]; intros i draws s s' calls Hfor.
  - cbn [MainWindow.for_range] in Hfor. apply Ok_pair_inj in Hfor.
    destruct Hfor as [<- <-].
    split; [reflexivity|]. split; [reflexivity|]. split; [reflexivity|].
    intros j c Hj. destruct j; discriminate.
  - cbn [MainWindow.for_range] in Hfor.
    destruct (MainWindow.loop_body s (fst (draws i)) (snd (draws i)))
      as [[s1 c1]|e] eqn:Hbody; [|discriminate].
    cbn [bind fst snd] in Hfor.
    destruct (MainWindow.for_range count (S i) draws s1)
      as [[s2 rest]|e] eqn:Hrest; [|discriminate].
    cbn [bind fst snd] in Hfor. apply Ok_pair_inj in Hfor.
    destruct Hfor as [<- <-].
    destruct (loop_body_replay s s1 _ _ c1 Hbody)
      as (u & _ & Hstep & Hat & Hdt & Htime & Hdt1).
    destruct (IH (S i) draws s1 s2 rest Hrest)
      as (Hlen & Hreplay & Htime' & Hcalls).
    split; [|split; [|split]].
    + cbn [length]. rewrite Hlen. reflexivity.
    + cbn [replay]. rewrite Hstep. cbn [bind fst]. exact Hreplay.
    + rewrite after_updates_succ, Htime', Htime, Hdt1. reflexivity.
    + intros j c Hj. destruct j as [|j].
      * cbn [nth_error] in Hj. injection Hj as <-.
        split; [exact Hat | exact Hdt].
      * cbn [nth_error] in Hj. destruct (Hcalls j c Hj) as [Hc1 Hc2].
        rewrite after_updates_succ, Hc1, Hc2, Htime, Hdt1.
        split; reflexivity.
Qed.

(** A tick that completes: [steps_to_run] calls of [Neuron.step], which
    give the neuron of the tick, one [dt] of simulated time each. *)
Lemma update_loop_replay (s s' : MainWindow.state) (draws : nat -> R * R)
  (calls : list MainWindow.update) :
  MainWindow.running s = true ->
  MainWindow.update_loop s draws = Ok (s', calls) ->
  exists steps x,
    MainWindow.steps_to_run s = Ok steps /\
    length calls = Z.to_nat steps /\
    replay calls 0 draws (MainWindow.neuron s) = Ok x /\
    without_flags (MainWindow.neuron s') = without_flags x /\
    (forall j c, nth_error calls j = Some c ->
       MainWindow.at_time_ms c
       = after_updates j (MainWindow.dt s) (MainWindow.time_ms s) /\
       MainWindow.with_dt c = MainWindow.dt s) /\
    MainWindow.time_ms s'
    = after_updates (length calls) (MainWindow.dt s) (MainWindow.time_ms s).
Proof.
  intros Hrun. unfold MainWindow.update_loop. rewrite Hrun. cbn [negb].
  destruct (MainWindow.steps_to_run s) as [steps|e]; [|discriminate].
  cbn [bind].
  destruct (MainWindow.for_range (Z.to_nat steps) 0 draws s)
    as [[s1 cs]|e] eqn:Hfor; [|discriminate].
  cbn [bind fst snd]. intros Hloop. apply Ok_pair_inj in Hloop.
  destruct Hloop as [<- <-].
  destruct (for_range_replay _ _ _ _ _ _ Hfor)
    as (Hlen & Hreplay & Htime & Hcalls).
  exists steps, (MainWindow.neuron s1).
  split; [reflexivity|]. split; [exact Hlen|]. split; [exact Hreplay|].
  split; [|split; [exact Hcalls|]].
  - destruct (update_event_logs_simulation s1) as (Hsim & _).
    exact (f_equal MainWindow.neuron Hsim).
  - rewrite update_event_logs_time_ms, Htime, Hlen. reflexivity.
Qed.

(** With the step, the tick interval and the channel of [__init__] a tick
    of a running simulation completes. *)
Lemma update_loop_completes (s : MainWindow.state) (draws : nat -> R * R) :
  as_constructed s ->
  MainWindow.running s = true ->
  MainWindow.dt s <> 0 /\
  0 <= IZR (MainWindow.timer_interval s) / MainWindow.dt s /\
  exists s' calls, MainWindow.update_loop s draws = Ok (s', calls).
Proof.
  intros (Hdt & Hti & Hdaq) Hrun.
  assert (Hne : MainWindow.dt s <> 0) by (rewrite Hdt; lra).
  split; [exact Hne|]. split; [rewrite Hdt, Hti; lra|].
  assert (Hinv : fst (DAQ.voltage_range (MainWindow.daq s))
                 <> snd (DAQ.voltage_range (MainWindow.daq s)))
    by (rewrite Hdaq; cbn; lra).
  unfold MainWindow.update_loop. rewrite Hrun. cbn [negb].
  rewrite (steps_to_run_value s Hne). cbn [bind].
  match goal with |- context [Z.to_nat ?z] => generalize (Z.to_nat z) end.
  intros count.
  assert (Hfor : forall i s0,
            fst (DAQ.voltage_range (MainWindow.daq s0))
              <> snd (DAQ.voltage_range (MainWindow.daq s0)) ->
            exists s1 cs, MainWindow.for_range count i draws s0 = Ok (s1, cs)).
  { induction count as [|count IH]; intros i s0 Hr.
    - exists s0, []. reflexivity.
    - destruct (loop_body_ok s0 (fst (draws i)) (snd (draws i)) Hr)
        as (s1 & c1 & Hbody & _ & _ & _ & _ & Hdaq1).
      destruct (IH (S i) s1) as (s2 & cs & Hrest).
      { rewrite Hdaq1. exact Hr. }
      exists s2, (c1 :: cs). cbn [MainWindow.for_range].
      rewrite Hbody. cbn [bind fst snd]. rewrite Hrest. reflexivity. }
  destruct (Hfor 0%nat s Hinv) as (s1 & cs & ->).
  cbn [bind fst snd]. eexists _, _. reflexivity.
Qed.

(** C8, as the code has it.  On every tick of a running orchestrator the
    number of neuron updates is [int(timer_interval / dt *
    time_scale_factor)], the quotient truncated toward zero (not rounded),
    replaced by 1 when it is 0 and the factor is positive; it is [round] of
    the quotient whenever the quotient is a whole number.  The updates are
    calls of [Neuron.step] with the step [dt], made one after the other on
    the neuron of the orchestrator, which ends as they leave it; each of
    them adds [dt] to the simulated time.  With the step, the tick interval
    and the channel of [__init__], which nothing assigns again, the tick
    completes and makes at least one update whenever the factor is
    positive. *)
Theorem C8_updates_per_tick (s : MainWindow.state) (draws : nat -> R * R) :
  MainWindow.running s = true ->
  let quotient := IZR (MainWindow.timer_interval s) / MainWindow.dt s
                  * MainWindow.time_scale_factor s in
  let steps := if (py_int quotient =? 0)%Z
                  && ltb 0 (MainWindow.time_scale_factor s)
               then 1%Z else py_int quotient in
  (forall s' calls,
     MainWindow.update_loop s draws = Ok (s', calls) ->
     length calls = Z.to_nat steps /\
     (exists x,
        replay calls 0 draws (MainWindow.neuron s) = Ok x /\
        without_flags (MainWindow.neuron s') = without_flags x) /\
     (forall j c, nth_error calls j = Some c ->
        MainWindow.at_time_ms c
        = after_updates j (MainWindow.dt s) (MainWindow.time_ms s) /\
        MainWindow.with_dt c = MainWindow.dt s) /\
     MainWindow.time_ms s'
     = after_updates (length calls) (MainWindow.dt s)
         (MainWindow.time_ms s)) /\
  (forall k : Z, quotient = IZR k -> py_int quotient = py_round quotient) /\
  (as_constructed s ->
   (exists s' calls, MainWindow.update_loop s draws = Ok (s', calls)) /\
   (0 < MainWindow.time_scale_factor s -> (1 <= Z.to_nat steps)%nat)).
Proof.
  intros Hrun quotient steps. split; [|split].
  - intros s' calls Hloop.
    destruct (update_loop_replay s s' draws calls Hrun Hloop)
      as (steps' & x & Hsteps & Hlen & Hreplay & Hflags & Hcalls & Htime).
    assert (Hdt : MainWindow.dt s <> 0).
    { intros Hz. revert Hsteps. unfold MainWindow.steps_to_run, py_div.
      destruct (Req_dec_T (MainWindow.dt s) 0); [discriminate|contradiction]. }
    rewrite (steps_to_run_value s Hdt) in Hsteps.
    injection Hsteps as <-.
    split; [exact Hlen|]. split; [exists x; split; assumption|].
    split; [exact Hcalls | exact Htime].
  - intros k Hk. rewrite Hk, py_int_IZR, py_round_IZR. reflexivity.
  - intros Hc.
    destruct (update_loop_completes s draws Hc Hrun) as (_ & Hq0 & Hex).
    split; [exact Hex|].
    intros Hf.
    assert (Hq : 0 <= quotient).
    { unfold quotient. apply Rmult_le_pos; [exact Hq0|lra]. }
    pose proof (py_int_nonneg_le quotient Hq) as Hn.
    unfold steps.
    replace (ltb 0 (MainWindow.time_scale_factor s)) with true
      by (symmetry; apply ltb_true; exact Hf).
    rewrite andb_true_r.
    destruct (py_int quotient =? 0)%Z eqn:E; [lia|].
    apply Z.eqb_neq in E. lia.
Qed.

Lemma running_as_constructed (factor : R) :
  as_constructed
    (MainWindow.set_running true
       (MainWindow.set_time_scale MainWindow.init factor)).
Proof. repeat split; reflexivity. Qed.

Lemma C8_updates_per_tick_witness :
  let s := MainWindow.set_running true
             (MainWindow.set_time_scale MainWindow.init 1) in
  MainWindow.running s = true /\
  as_constructed s /\
  exists s' calls x,
    MainWindow.update_loop s (fun _ => (0, 0)) = Ok (s', calls) /\
    length calls = 800%nat /\
    replay calls 0 (fun _ => (0, 0)) (MainWindow.neuron s) = Ok x /\
    without_flags (MainWindow.neuron s') = without_flags x /\
    MainWindow.time_ms s'
    = after_updates 800 (MainWindow.dt s) (MainWindow.time_ms s).
Proof.
  cbv zeta.
  split; [reflexivity|]. split; [apply running_as_constructed|].
  destruct (C8_updates_per_tick
              (MainWindow.set_running true
                 (MainWindow.set_time_scale MainWindow.init 1))
              (fun _ => (0, 0)) eq_refl) as (Hcount & _ & Hruns).
  destruct (Hruns (running_as_constructed 1)) as ((s' & calls & Hloop) & _).
  destruct (Hcount s' calls Hloop) as (Hlen & (x & Hreplay & Hflags) & _ & Htime).
  assert (Hn : length calls = 800%nat).
  { rewrite Hlen. window_eval.
    replace (20 / 0.025 * 1) with (IZR 800) by lra.
    rewrite py_int_IZR. reflexivity. }
  exists s', calls, x. split; [exact Hloop|]. split; [exact Hn|].
  split; [exact Hreplay|]. split; [exact Hflags|].
  rewrite Htime, Hn. reflexivity.
Defined.

(** C8 as stated fails.  With the tick interval (20 ms) and the step
    (0.025 ms) of the program and a time-scale factor of 0.002 the quotient
    is 1.6: [round] gives 2, the tick makes one update, one call of
    [Neuron.step] on its neuron. *)
Lemma C8_one_update_where_round_gives_two :
  let s := MainWindow.set_running true
             (MainWindow.set_time_scale MainWindow.init 0.002) in
  py_round (IZR (MainWindow.timer_interval s) / MainWindow.dt s
            * MainWindow.time_scale_factor s) = 2%Z /\
  exists s' calls x,
    MainWindow.update_loop s (fun _ => (0, 0)) = Ok (s', calls) /\
    length calls = 1%nat /\
    replay calls 0 (fun _ => (0, 0)) (MainWindow.neuron s) = Ok x /\
    without_flags (MainWindow.neuron s') = without_flags x.
Proof.
  cbv zeta. split.
  - window_eval.
    replace (20 / 0.025 * 0.002) with 1.6 by lra.
    assert (Hf : Zfloor 1.6 = 1%Z) by (apply Zfloor_eq; simpl; lra).
    unfold py_round. rewrite Hf.
    destruct (Rlt_dec (1.6 - 1) (1 / 2)); [lra|].
    destruct (Rlt_dec (1 / 2) (1.6 - 1)); [reflexivity|lra].
  - destruct (update_loop_completes
                (MainWindow.set_running true
                   (MainWindow.set_time_scale MainWindow.init 0.002))
                (fun _ => (0, 0)) (running_as_constructed 0.002) eq_refl)
      as (_ & _ & s' & calls & Hloop).
    destruct (update_loop_replay
                (MainWindow.set_running true
                   (MainWindow.set_time_scale MainWindow.init 0.002))
                s' (fun _ => (0, 0)) calls eq_refl Hloop)
      as (steps & x & Hsteps & Hlen & Hreplay & Hflags & _).
    exists s', calls, x. split; [exact Hloop|]. split.
    + rewrite Hlen.
      rewrite steps_to_run_value in Hsteps by (window_eval; lra).
      injection Hsteps as <-.
      window_eval.
      replace (20 / 0.025 * 0.002) with 1.6 by lra.
      assert (Hi : py_int 1.6 = 1%Z).
      { rewrite py_int_nonneg by lra. apply Zfloor_eq. simpl. lra. }
      rewrite Hi. reflexivity.
    + split; [exact Hreplay | exact Hflags].
Qed.

(** ** The rates in the physiological range *)

(** X7.  Between -200 and 200 mV the six Hodgkin-Huxley rate functions
    return, their values are positive, the replaced singular points
    included, and [beta_h] stays below 1. *)
Theorem X7_rates_are_positive (u : R) :
  -200 <= u <= 200 ->
  (exists r, Neuron.Ranged._alpha_m u = Ok r /\ 0 < r) /\
  (exists r, Neuron.Ranged._beta_m u = Ok r /\ 0 < r) /\
  (exists r, Neuron.Ranged._alpha_h u = Ok r /\ 0 < r) /\
  (exists r, Neuron.Ranged._beta_h u = Ok r /\ 0 < r < 1) /\
  (exists r, Neuron.Ranged._alpha_n u = Ok r /\ 0 < r) /\
  (exists r, Neuron.Ranged._beta_n u = Ok r /\ 0 < r).
Proof.
  intros [Hlo Hhi].
  assert (Hu : -5000 <= u) by lra.
  destruct (ranged_rates_return u Hu) as (-> & -> & -> & -> & -> & ->).
  rewrite alpha_m_value, beta_h_value, alpha_n_value.
  split; [|split; [|split; [|split; [|split]]]].
  - exists (alpha_m_of u). split; [reflexivity|apply alpha_m_of_pos].
  - eexists. split; [reflexivity|apply beta_m_pos].
  - eexists. split; [reflexivity|].
    unfold Neuron._alpha_h. pose proof (exp_pos (- (u + 65) / 20)). lra.
  - exists (beta_h_of u). split; [reflexivity|apply beta_h_of_pos].
  - exists (alpha_n_of u). split; [reflexivity|apply alpha_n_of_pos].
  - eexists. split; [reflexivity|].
    unfold Neuron._beta_n. pose proof (exp_pos (- (u + 65) / 80)). lra.
Qed.

Lemma X7_rates_are_positive_witness :
  -200 <= -65 <= 200 /\
  exists r, Neuron.Ranged._beta_h (-65) = Ok r /\ 0 < r < 1.
Proof.
  assert (H : -200 <= -65 <= 200) by lra.
  split; [exact H|].
  destruct (X7_rates_are_positive (-65) H) as (_ & _ & _ & Hb & _).
  exact Hb.
Defined.

(** ** The quantizer on an empty range *)

(** X19.  The quantizer fails on an empty range: with [min_v = max_v] and
    a bit depth below 1024 (where [2 ** adc_bits] still converts to a
    float) the grid step is 0 and [quantize] raises [ZeroDivisionError],
    whatever the input. *)
Theorem X19_quantize_fails_on_empty_range (d : DAQ.state) (val : R) :
  fst (DAQ.voltage_range d) = snd (DAQ.voltage_range d) ->
  (DAQ.adc_bits d < 1024)%Z ->
  DAQ.quantize d val = Raise ZeroDivisionError.
Proof.
  intros Heq _. unfold DAQ.quantize.
  destruct (DAQ.voltage_range d) as [lo hi]. cbn [fst snd] in Heq.
  subst hi.
  assert (Hsteps : py_pow2 (DAQ.adc_bits d) <> 0)
    by (apply powerRZ_NOR; lra).
  cbv zeta. rewrite py_div_ok by exact Hsteps. cbn [bind].
  unfold py_div.
  destruct (Req_dec_T ((lo - lo) / py_pow2 (DAQ.adc_bits d)) 0)
    as [|Hne]; [reflexivity|].
  exfalso. apply Hne. unfold Rdiv. ring.
Qed.

Lemma X19_quantize_fails_on_empty_range_witness :
  let d := DAQ.mk 12 0.5 (5, 5) in
  fst (DAQ.voltage_range d) = snd (DAQ.voltage_range d) /\
  (DAQ.adc_bits d < 1024)%Z /\
  DAQ.quantize d 1 = Raise ZeroDivisionError.
Proof.
  cbv zeta. split; [reflexivity|]. split; [reflexivity|].
  apply (X19_quantize_fails_on_empty_range (DAQ.mk 12 0.5 (5, 5)) 1);
    reflexivity.
Defined.
